(** * sync-jira-actions: the GitHub-to-JIRA issue mirror (sync_issue.py)

    A shallow embedding of [src/sync_jira_actions/sync_issue.py].

    The Python module talks to two remote services (the JIRA client object
    [jira] and the GitHub repository handle [REPO]), runs one subprocess
    ([markdown2confluence]), sleeps and draws random numbers.  None of these is
    part of the module, so a handler is embedded as a finite interaction
    program [Prog]: a tree whose nodes are the calls the handler makes and
    whose branches are the possible answers.  A [World] decides the answers;
    every theorem about "what the handler does" is stated for all worlds, and
    the calls made are observable as a trace.

    Text is modelled by [string], one character for one code point: the
    character with code [n] stands for the code point [n], so the model's
    text is the text whose code points are at most U+00FF.  The classes of
    the regular expressions ([\w], [\d], [\s]), [str.lower] and
    [str.isnumeric] are Python's classes for [str], which are the Unicode
    ones, on that range.  [print] only writes to standard output and is left
    out. *)

From Stdlib Require Import String Ascii List Bool Arith NArith ZArith Lia.
From Stdlib Require Import DecimalString DecimalN.
From Equations Require Import Equations.
Import ListNotations.
Local Open Scope list_scope.
Local Open Scope string_scope.

(* ===================================================================== *)
(** ** Python strings                                                     *)
(* ===================================================================== *)

Module PyStr.

Definition nl : string := String "010" EmptyString.

Definition code (c : ascii) : nat := nat_of_ascii c.

Definition between (lo hi : nat) (c : ascii) : bool :=
  Nat.leb lo (code c) && Nat.leb (code c) hi.

(** [\d]: the decimal digits, which up to U+00FF are [0] to [9]. *)
Definition is_digit (c : ascii) : bool := between 48 57 c.
(** [[A-Z]] *)
Definition is_upper (c : ascii) : bool := between 65 90 c.
Definition is_lower (c : ascii) : bool := between 97 122 c.
(** The letters beyond U+007F: the two ordinal indicators, the micro sign,
    and U+00C0 to U+00FF without the multiplication and the division sign. *)
Definition is_letter_beyond_ascii (c : ascii) : bool :=
  between 170 170 c || between 181 181 c || between 186 186 c
  || between 192 214 c || between 216 246 c || between 248 255 c.
(** [c.isnumeric()]: the digits, the superscripts two, three and one, and the
    fractions one quarter, one half and three quarters. *)
Definition is_numeric (c : ascii) : bool :=
  is_digit c || between 178 179 c || between 185 185 c || between 188 190 c.
(** [\w]: the characters that are alphanumeric for [str], and the underscore. *)
Definition is_word (c : ascii) : bool :=
  is_digit c || is_upper c || is_lower c || Ascii.eqb c "_"
  || is_letter_beyond_ascii c || is_numeric c.
(** [\s]: tab to carriage return, the four separators U+001C to U+001F,
    space, next line (U+0085) and no-break space (U+00A0). *)
Definition is_space (c : ascii) : bool :=
  between 9 13 c || between 28 32 c || between 133 133 c || between 160 160 c.

(** The letters [c.lower()] changes: [A] to [Z], and U+00C0 to U+00DE without
    the multiplication sign; each is 32 below its lower-case letter. *)
Definition lower_char (c : ascii) : ascii :=
  if is_upper c || between 192 214 c || between 216 222 c
  then ascii_of_nat (code c + 32) else c.

Fixpoint map (f : ascii -> ascii) (s : string) : string :=
  match s with
  | EmptyString => EmptyString
  | String c s' => String (f c) (map f s')
  end.

Fixpoint forallb (p : ascii -> bool) (s : string) : bool :=
  match s with
  | EmptyString => true
  | String c s' => p c && forallb p s'
  end.

(** [s.lower()] *)
Definition lower (s : string) : string := map lower_char s.

(** [s.startswith(p)] *)
Definition startswith (s p : string) : bool := String.prefix p s.

(** [s.endswith(c)] for a one-character suffix *)
Fixpoint endswith_char (s : string) (c : ascii) : bool :=
  match s with
  | EmptyString => false
  | String a EmptyString => Ascii.eqb a c
  | String _ s' => endswith_char s' c
  end.

(** [s.replace(a, b)] for one-character [a] and [b] *)
Definition replace_char (a b : ascii) (s : string) : string :=
  map (fun c => if Ascii.eqb c a then b else c) s.

(** [sub in s] *)
Fixpoint contains (sub s : string) : bool :=
  String.prefix sub s ||
  match s with
  | EmptyString => false
  | String _ s' => contains sub s'
  end.

(** [s[:n]] *)
Definition take (n : N) (s : string) : string := String.substring 0 (N.to_nat n) s.

(** The longest prefix of [s] whose characters satisfy [p], and the rest. *)
Fixpoint span (p : ascii -> bool) (s : string) : string * string :=
  match s with
  | EmptyString => (EmptyString, EmptyString)
  | String c s' =>
      if p c then let (a, b) := span p s' in (String c a, b)
      else (EmptyString, s)
  end.

Definition nonempty (s : string) : bool :=
  match s with EmptyString => false | _ => true end.

(** [str(n)] for a non-negative integer *)
Definition of_N (n : N) : string := NilZero.string_of_uint (N.to_uint n).

End PyStr.

(* ===================================================================== *)
(** ** The two regular expressions                                        *)
(* ===================================================================== *)

Module Re.
Import PyStr.

(** One match of [r' \([\w]+-[\d]+\)'] anchored at the head of [s]; the
    answer is what follows the match.  Both [+] are greedy, and neither can
    give a character back: the character after a shorter run still belongs
    to the run's class, so it is neither [-] nor [)]. *)
Definition match_slug (s : string) : option string :=
  match s with
  | String " " (String "(" s1) =>
      let (w, s2) := span is_word s1 in
      if nonempty w then
        match s2 with
        | String "-" s3 =>
            let (d, s4) := span is_digit s3 in
            if nonempty d then
              match s4 with
              | String ")" rest => Some rest
              | _ => None
              end
            else None
        | _ => None
        end
      else None
  | _ => None
  end.

(** One match of [r'\(([A-Z]+-\d+)\)\s*$'] anchored at the head of [s]; the
    answer is group 1.  [\s*$] holds exactly when everything after the
    closing parenthesis is white space. *)
Definition match_key (s : string) : option string :=
  match s with
  | String "(" s1 =>
      let (u, s2) := span is_upper s1 in
      if nonempty u then
        match s2 with
        | String "-" s3 =>
            let (d, s4) := span is_digit s3 in
            if nonempty d then
              match s4 with
              | String ")" rest =>
                  if forallb is_space rest then Some (u ++ "-" ++ d) else None
              | _ => None
              end
            else None
        | _ => None
        end
      else None
  | _ => None
  end.

(** [re.search(r'\(([A-Z]+-\d+)\)\s*$', s)]: the leftmost position that
    matches; [None] when there is none, else [match.group(1)]. *)
Fixpoint search_key (s : string) : option string :=
  match match_key s with
  | Some k => Some k
  | None =>
      match s with
      | EmptyString => None
      | String _ s' => search_key s'
      end
  end.

Definition inspect {A} (a : A) : {b : A | a = b} := exist _ a eq_refl.

Lemma span_length p s :
  String.length (fst (span p s)) + String.length (snd (span p s)) = String.length s.
Proof.
  induction s as [|c s IH]; simpl; trivial.
  destruct (p c); simpl; trivial.
  destruct (span p s); simpl in *; lia.
Qed.

Lemma match_slug_shorter s rest :
  match_slug s = Some rest -> String.length rest < String.length s.
Proof.
  unfold match_slug.
  destruct s as [|a s]; try discriminate.
  destruct a as [[] [] [] [] [] [] [] []]; try discriminate.
  destruct s as [|b s1]; try discriminate.
  destruct b as [[] [] [] [] [] [] [] []]; try discriminate.
  pose proof (span_length is_word s1) as Hw.
  destruct (span is_word s1) as [w s2]; simpl in Hw.
  destruct (nonempty w); try discriminate.
  destruct s2 as [|c s3]; try discriminate.
  destruct c as [[] [] [] [] [] [] [] []]; try discriminate.
  pose proof (span_length is_digit s3) as Hd.
  destruct (span is_digit s3) as [d s4]; simpl in Hd.
  destruct (nonempty d); try discriminate.
  destruct s4 as [|e r]; try discriminate.
  destruct e as [[] [] [] [] [] [] [] []]; try discriminate.
  intros [= <-]. simpl in *. lia.
Qed.

(** [re.sub(r' \([\w]+-[\d]+\)', '', s)]: scan from the left; where the
    pattern matches, drop the match and go on after it; elsewhere keep the
    character and move one position on. *)
Equations? sub_slug (s : string) : string by wf (String.length s) lt :=
  sub_slug s with inspect (match_slug s) := {
    | exist _ (Some rest) _ => sub_slug rest
    | exist _ None _ with s := {
        | EmptyString => EmptyString
        | String c s' => String c (sub_slug s') } }.
Proof.
  now apply match_slug_shorter.
Qed.

End Re.

(* ===================================================================== *)
(** ** Data: GitHub payloads, JIRA resources, field dictionaries          *)
(* ===================================================================== *)

(** The exception classes the module meets. *)
Inductive exn : Type :=
| JIRAError | GithubException | CalledProcessError
| AttributeError | KeyError | TypeError | ValueError | OtherError.

Definition exn_eqb (a b : exn) : bool :=
  match a, b with
  | JIRAError, JIRAError | GithubException, GithubException
  | CalledProcessError, CalledProcessError | AttributeError, AttributeError
  | KeyError, KeyError | TypeError, TypeError | ValueError, ValueError
  | OtherError, OtherError => true
  | _, _ => false
  end.

Inductive result (A : Type) : Type :=
| Ok (a : A)
| Err (e : exn).
Arguments Ok {A} a.
Arguments Err {A} e.

(** What an expression used as the class of an [except] clause may denote. *)
Inductive pyobj : Type :=
| ExceptionClass (e : exn)
| NotAClass.

(** [gh_label['name']] *)
Record GhLabel : Type := { lbl_name : string }.

(** [event['issue']]; [gh_pull_request] is ['pull_request' in gh_issue]. *)
Record GhIssue : Type := {
  gh_number : N;
  gh_title : string;
  gh_body : option string;
  gh_user_login : string;
  gh_labels : list GhLabel;
  gh_html_url : string;
  gh_state : string;
  gh_pull_request : bool
}.

(** [event['comment']] *)
Record GhComment : Type := {
  cm_body : option string;
  cm_html_url : string;
  cm_user_login : string
}.

(** The webhook event; [ev_sender_login] is [None] when
    [event['sender']['login']] raises [KeyError]. *)
Record Event : Type := {
  ev_issue : GhIssue;
  ev_label : GhLabel;
  ev_comment : GhComment;
  ev_changes_body_from : option string;
  ev_sender_login : option string
}.

Record Component : Type := { comp_id : string; comp_name : string }.

Record JiraIssue : Type := {
  ji_id : string;
  ji_key : string;
  ji_labels : list string;
  ji_description : option string;
  ji_components : list Component;
  ji_project_key : string
}.

Record JiraComment : Type := { jc_id : string; jc_body : string }.

(** [link.raw['object']] *)
Record LinkObject : Type := {
  lo_url : string;
  lo_title : string;
  lo_resolved : bool
}.

(** [rl_globalId] is [None] when [hasattr(link, 'globalId')] is false. *)
Record RemoteLink : Type := {
  rl_id : string;
  rl_globalId : option string;
  rl_relationship : string;
  rl_object : LinkObject
}.

Record Project : Type := { pr_key : string }.
Record IssueType : Type := { it_id : string; it_name : string }.

(** [REPO.get_issue(number)] *)
Record GhApiIssue : Type := { api_number : N; api_title : string }.

(** The value stored under ['issuetype']: [{'id': n}] with one of the two
    module constants, [{'id': issue_type.id}], or a bare type name. *)
Inductive issuetype_value : Type :=
| IssueTypeConst (id : Z)
| IssueTypeId (id : string)
| IssueTypeName (name : string).

(** The [fields] dictionary; an absent key is [None].  ['components'] holds
    the names of its [{'name': n}] entries, ['customfield_12100'] the value
    of its [{'value': v}] entry. *)
Record Fields : Type := {
  f_summary : option string;
  f_project : option string;
  f_description : option string;
  f_issuetype : option issuetype_value;
  f_labels : option (list string);
  f_components : option (list string);
  f_customfield_12100 : option string
}.

Definition no_fields : Fields :=
  {| f_summary := None; f_project := None; f_description := None;
     f_issuetype := None; f_labels := None; f_components := None;
     f_customfield_12100 := None |}.

Definition set_components (f : Fields) (cs : list string) : Fields :=
  {| f_summary := f_summary f; f_project := f_project f;
     f_description := f_description f; f_issuetype := f_issuetype f;
     f_labels := f_labels f; f_components := Some cs;
     f_customfield_12100 := f_customfield_12100 f |}.

Definition status_field (v : string) : Fields :=
  {| f_summary := None; f_project := None; f_description := None;
     f_issuetype := None; f_labels := None; f_components := None;
     f_customfield_12100 := Some v |}.

Definition labels_field (ls : list string) : Fields :=
  {| f_summary := None; f_project := None; f_description := None;
     f_issuetype := None; f_labels := Some ls; f_components := None;
     f_customfield_12100 := None |}.

(** Python values compared by [!=] in [_update_components_field]. *)
Inductive pyval : Type :=
| PyStr (s : string)
| PyComponent (c : Component).

Definition component_eqb (c d : Component) : bool :=
  String.eqb (comp_id c) (comp_id d) && String.eqb (comp_name c) (comp_name d).

(** [a != b]: a string and a resource object are never equal. *)
Definition py_ne (a b : pyval) : bool :=
  match a, b with
  | PyStr s, PyStr t => negb (String.eqb s t)
  | PyComponent c, PyComponent d => negb (component_eqb c d)
  | _, _ => true
  end.

(* ===================================================================== *)
(** ** Calls to the outside, programs, worlds                             *)
(* ===================================================================== *)

Inductive Call : Type :=
| Jira_search_issues (jql : string)
| Jira_issue (key : string)
| Jira_exceptions_JIRAError
| Jira_create_issue (fields : Fields)
| Issue_update (issue : JiraIssue) (fields : Fields)
| Jira_add_comment (issue_id : string) (body : string)
| Jira_comments (issue_key : string)
| Comment_update (comment : JiraComment) (body : string)
| Jira_remote_links (issue : JiraIssue)
| Link_update (link : RemoteLink) (new_link : LinkObject)
              (globalId : string) (relationship : string)
| Jira_add_remote_link (issue : JiraIssue) (url title : string)
                       (globalId : string) (relationship : string)
| Jira_project (key : string)
| Jira_project_components (project : Project)
| Jira_issue_types
| REPO_get_issue (number : N)
| Api_gh_issue_edit (api_gh_issue : GhApiIssue) (title : string)
| Markdown2confluence (markdown_md : string)
| Os_environ_get (name : string)
| Random_randrange (start stop : Z)
| Time_sleep (seconds : Z).

(** The answer to a call.  Remote calls and the subprocess may raise; reading
    the environment, drawing a number and sleeping do not.
    [markdown2confluence] answers with the contents of [confluence.txt]. *)
Definition Ans (c : Call) : Type :=
  match c with
  | Jira_search_issues _ => result (list JiraIssue)
  | Jira_issue _ => result JiraIssue
  | Jira_exceptions_JIRAError => result pyobj
  | Jira_create_issue _ => result JiraIssue
  | Issue_update _ _ => result unit
  | Jira_add_comment _ _ => result unit
  | Jira_comments _ => result (list JiraComment)
  | Comment_update _ _ => result unit
  | Jira_remote_links _ => result (list RemoteLink)
  | Link_update _ _ _ _ => result unit
  | Jira_add_remote_link _ _ _ _ _ => result unit
  | Jira_project _ => result Project
  | Jira_project_components _ => result (list Component)
  | Jira_issue_types => result (list IssueType)
  | REPO_get_issue _ => result GhApiIssue
  | Api_gh_issue_edit _ _ => result unit
  | Markdown2confluence _ => result string
  | Os_environ_get _ => option string
  | Random_randrange _ _ => Z
  | Time_sleep _ => unit
  end.

Inductive Prog (A : Type) : Type :=
| Done (a : A)
| Raise (e : exn)
| Do (c : Call) (k : Ans c -> Prog A).
Arguments Done {A} a.
Arguments Raise {A} e.
Arguments Do {A} c k.

Fixpoint bind {A B} (p : Prog A) (f : A -> Prog B) : Prog B :=
  match p with
  | Done a => f a
  | Raise e => Raise e
  | Do c k => Do c (fun a => bind (k a) f)
  end.

Notation "x <- p ;; q" := (bind p (fun x => q))
  (at level 61, p at next level, right associativity).
Notation "p ;; q" := (bind p (fun _ => q))
  (at level 61, right associativity).

Definition perform (c : Call) : Prog (Ans c) := Do c Done.

Definition unwrap {A} (r : result A) : Prog A :=
  match r with
  | Ok a => Done a
  | Err e => Raise e
  end.

(** A call that may raise. *)
Notation "'call' c" := (Do c unwrap) (at level 10, c at level 9).

(** [try: p  except <cls>: handler].  The class expression is evaluated when
    [p] raises; the handler runs if the exception is an instance of it. *)
Fixpoint try_except {A} (p : Prog A) (cls : Prog pyobj) (handler : Prog A) : Prog A :=
  match p with
  | Done a => Done a
  | Raise e =>
      c <- cls ;;
      match c with
      | ExceptionClass e' => if exn_eqb e e' then handler else Raise e
      | NotAClass => Raise TypeError
      end
  | Do c k => Do c (fun a => try_except (k a) cls handler)
  end.

(** [for x in xs: body x] *)
Fixpoint for_each {X} (xs : list X) (body : X -> Prog unit) : Prog unit :=
  match xs with
  | [] => Done tt
  | x :: xs' => body x ;; for_each xs' body
  end.

(** [None.attr] raises [AttributeError]. *)
Definition not_None {A} (o : option A) : Prog A :=
  match o with
  | Some a => Done a
  | None => Raise AttributeError
  end.

(** A world answers every call, knowing the calls made before it. *)
Definition World : Type := list Call -> forall c : Call, Ans c.

(** Running a program in a world, after the calls [h]: the outcome and the
    calls made, in order. *)
Fixpoint run {A} (w : World) (h : list Call) (p : Prog A) : result A * list Call :=
  match p with
  | Done a => (Ok a, [])
  | Raise e => (Err e, [])
  | Do c k => let (r, t) := run w (h ++ [c])%list (k (w h c)) in (r, c :: t)
  end.

(* ===================================================================== *)
(** ** sync_issue.py                                                      *)
(* ===================================================================== *)

Import PyStr.

Definition JIRA_NEW_FEATURE_TYPE_ID : Z := 10101.
Definition JIRA_BUG_TYPE_ID : Z := 10004.

Definition len (s : string) : N := N.of_nat (String.length s).

Definition dquote : string := String "034" EmptyString.

(** [except JIRAError], with the name imported at the top of the module. *)
Definition the_JIRAError : Prog pyobj := Done (ExceptionClass JIRAError).
Definition the_GithubException : Prog pyobj := Done (ExceptionClass GithubException).
Definition the_CalledProcessError : Prog pyobj := Done (ExceptionClass CalledProcessError).
Definition the_ValueError : Prog pyobj := Done (ExceptionClass ValueError).

(** [except jira.exceptions.JIRAError], where [jira] is the client object the
    function received: an attribute lookup on that object. *)
Definition jira_dot_exceptions_JIRAError : Prog pyobj := call Jira_exceptions_JIRAError.

Definition _get_jira_label (gh_label : GhLabel) : string :=
  replace_char " " "-" (lbl_name gh_label).

Definition _check_issue_label (label : string) : option string :=
  if startswith (lower label) "status:" || startswith (lower label) "resolution:"
  then None
  else Some label.

(** What is written to [markdown.md]: the text, and a newline if it does not
    end with one. *)
Definition markdown_file (markdown : string) : string :=
  markdown ++ (if endswith_char markdown "010" then "" else nl).

Definition _markdown2wiki (markdown : option string) : Prog string :=
  match markdown with
  | None => Done nl
  | Some markdown =>
      try_except
        (result <- call (Markdown2confluence (markdown_file markdown)) ;;
         Done (if (16384 <? len result)%N
               then take 16376 result ++ nl ++ nl ++ "[...]"
               else result))
        the_CalledProcessError
        (Done markdown)
  end.

(** The format string of [_get_description] after [lstrip('\n')], filled in. *)
Definition description_head (type github_url github_user github_description : string) : string :=
  "[GitHub " ++ type ++ "|" ++ github_url ++ "] from user @" ++ github_user ++ ":" ++ nl ++
  nl ++
  "    " ++ github_description ++ nl ++
  nl ++
  "    ---" ++ nl ++
  nl ++
  "    Notes:" ++ nl ++
  nl ++
  "    * Do not edit this description text, it may be updated automatically." ++ nl ++
  "    * Please interact on GitHub where possible, changes will sync to here." ++ nl ++
  "    ".

(** The paragraph added for issues that are not pull requests. *)
Definition description_issue_only (github_url : string) : string :=
  nl ++
  "    * If closing this issue from a commit, please add" ++ nl ++
  "      {code}" ++ nl ++
  "      Closes " ++ github_url ++ nl ++
  "      {code}" ++ nl ++
  "      in the commit message so the commit is closed on GitHub automatically." ++ nl.

Definition _get_description (gh_issue : GhIssue) : Prog string :=
  let is_pr := gh_pull_request gh_issue in
  github_description <- _markdown2wiki (gh_body gh_issue) ;;
  Done (description_head (if is_pr then "Pull Request" else "Issue")
          (gh_html_url gh_issue) (gh_user_login gh_issue) github_description
        ++ (if negb is_pr then description_issue_only (gh_html_url gh_issue) else "")).

Definition _get_summary (gh_issue : GhIssue) : string :=
  let is_pr := gh_pull_request gh_issue in
  let result := (if is_pr then "PR" else "GH") ++ " #" ++ of_N (gh_number gh_issue)
                ++ ": " ++ gh_title gh_issue in
  Re.sub_slug result.

Definition _add_remote_link (issue : JiraIssue) (gh_issue : GhIssue) : Prog unit :=
  let gh_url := gh_html_url gh_issue in
  call (Jira_add_remote_link issue gh_url (gh_title gh_issue) gh_url "synced from").

Definition _update_link_resolved (gh_issue : GhIssue) (jira_issue : JiraIssue) : Prog unit :=
  let resolved := negb (String.eqb (gh_state gh_issue) "open") in
  links <- call (Jira_remote_links jira_issue) ;;
  for_each links (fun link =>
    match rl_globalId link with
    | Some globalId =>
        if String.eqb globalId (gh_html_url gh_issue) then
          let new_link := {| lo_url := lo_url (rl_object link);
                             lo_title := gh_title gh_issue;
                             lo_resolved := resolved |} in
          call (Link_update link new_link globalId (rl_relationship link))
        else Done tt
    | None => Done tt
    end).

(** The [while True] loop of [_update_github_with_jira_key]; [retries] counts
    down from 5. *)
Fixpoint edit_title_loop (api_gh_issue : GhApiIssue) (jira_issue : JiraIssue)
    (retries : nat) : Prog unit :=
  try_except
    (call (Api_gh_issue_edit api_gh_issue
             (api_title api_gh_issue ++ " (" ++ ji_key jira_issue ++ ")")))
    the_GithubException
    match retries with
    | O => Raise GithubException
    | S retries' =>
        n <- perform (Random_randrange 1 5) ;;
        perform (Time_sleep n) ;;
        edit_title_loop api_gh_issue jira_issue retries'
    end.

Definition _update_github_with_jira_key (gh_issue : GhIssue) (jira_issue : JiraIssue)
    : Prog unit :=
  api_gh_issue <- call (REPO_get_issue (gh_number gh_issue)) ;;
  edit_title_loop api_gh_issue jira_issue 5.

(** [os.environ[name]] *)
Definition os_environ (name : string) : Prog string :=
  v <- perform (Os_environ_get name) ;;
  match v with
  | Some s => Done s
  | None => Raise KeyError
  end.

(** The loop that keeps the existing components.  Its variable is called
    [component] too: inside the loop the name no longer denotes the configured
    string, and [component.name != component] compares a component's name with
    the component itself. *)
Definition keep_existing_components (components : list string)
    (existing : list Component) : list string :=
  fold_left
    (fun components component =>
       if py_ne (PyStr (comp_name component)) (PyComponent component)
       then (components ++ [comp_name component])%list
       else components)
    existing components.

(** The function updates [fields] in place; here it returns the dictionary. *)
Definition _update_components_field (fields : Fields) (existing_issue : option JiraIssue)
    : Prog Fields :=
  v <- perform (Os_environ_get "JIRA_COMPONENT") ;;
  let component := match v with Some s => s | None => "" end in
  if negb (nonempty component) then Done fields
  else
    project <- match existing_issue with
               | Some existing_issue => call (Jira_project (ji_project_key existing_issue))
               | None => key <- os_environ "JIRA_PROJECT" ;; call (Jira_project key)
               end ;;
    project_components <- call (Jira_project_components project) ;;
    if negb (existsb (String.eqb component) (List.map comp_name project_components))
    then Done fields
    else
      let components := [component] in
      Done (set_components fields
              match existing_issue with
              | Some existing_issue =>
                  keep_existing_components components (ji_components existing_issue)
              | None => components
              end).

(** The inner loop of [_get_jira_issue_type] over the tracker's issue types. *)
Fixpoint match_issue_type (gh_label : string) (issue_types : list IssueType)
    : option issuetype_value :=
  match issue_types with
  | [] => None
  | issue_type :: rest =>
      let type_name := lower (it_name issue_type) in
      if String.eqb (lower gh_label) type_name
         || String.eqb (lower gh_label) ("type: " ++ type_name)
      then Some (IssueTypeId (it_id issue_type))
      else match_issue_type gh_label rest
  end.

Fixpoint map_labels_to_type (gh_labels : list string) (issue_types : list IssueType)
    : option issuetype_value :=
  match gh_labels with
  | [] => None
  | gh_label :: rest =>
      if String.eqb gh_label "Type: Feature Request"
      then Some (IssueTypeConst JIRA_NEW_FEATURE_TYPE_ID)
      else if String.eqb gh_label "Type: Bug :bug:"
      then Some (IssueTypeConst JIRA_BUG_TYPE_ID)
      else match match_issue_type gh_label issue_types with
           | Some t => Some t
           | None => map_labels_to_type rest issue_types
           end
  end.

Definition _get_jira_issue_type (gh_issue : GhIssue) : Prog (option issuetype_value) :=
  let gh_labels := List.map lbl_name (gh_labels gh_issue) in
  issue_types <- call Jira_issue_types ;;
  Done (map_labels_to_type gh_labels issue_types).

Definition _create_jira_issue (gh_issue : GhIssue) : Prog JiraIssue :=
  issuetype <- _get_jira_issue_type gh_issue ;;
  issuetype <- match issuetype with
               | Some t => Done t
               | None =>
                   v <- perform (Os_environ_get "JIRA_ISSUE_TYPE") ;;
                   Done (IssueTypeName match v with Some s => s | None => "Task" end)
               end ;;
  project <- os_environ "JIRA_PROJECT" ;;
  description <- _get_description gh_issue ;;
  let fields :=
    {| f_summary := Some (_get_summary gh_issue);
       f_project := Some project;
       f_description := Some description;
       f_issuetype := Some issuetype;
       f_labels := Some (List.map _get_jira_label (gh_labels gh_issue));
       f_components := None;
       f_customfield_12100 := None |} in
  fields <- _update_components_field fields None ;;
  issue <- call (Jira_create_issue fields) ;;
  try_except (call (Issue_update issue (status_field "Open")))
    the_JIRAError (Done tt) ;;
  _add_remote_link issue gh_issue ;;
  _update_github_with_jira_key gh_issue issue ;;
  (if negb (String.eqb (gh_state gh_issue) "open")
   then _update_link_resolved gh_issue issue
   else Done tt) ;;
  Done issue.

(** The manual-match block of [_find_jira_issue] (the [match] and the [try]):
    the issue it returns, or [None] to go on. *)
Definition manual_match (gh_issue : GhIssue) : Prog (option JiraIssue) :=
  match Re.search_key (gh_title gh_issue) with
  | Some key =>
      try_except
        (issue <- call (Jira_issue key) ;;
         description <- match ji_description issue with
                        | Some d => Done d
                        | None => Raise TypeError
                        end ;;
         if contains (gh_html_url gh_issue) description
         then _add_remote_link issue gh_issue ;; Done (Some issue)
         else Done None)
        jira_dot_exceptions_JIRAError
        (Done None)
  | None => Done None
  end.

Definition jql_query (url : string) : string :=
  "issue in issuesWithRemoteLinksByGlobalId(" ++ dquote ++ url ++ dquote
  ++ ") order by updated desc".

Fixpoint _find_jira_issue (gh_issue : GhIssue) (make_new : bool) (retries : nat)
    : Prog (option JiraIssue) :=
  let url := gh_html_url gh_issue in
  res <- call (Jira_search_issues (jql_query url)) ;;
  match res with
  | [] =>
      found <- manual_match gh_issue ;;
      match found with
      | Some issue => Done (Some issue)
      | None =>
          if negb make_new then Done None
          else
            match retries with
            | S retries' =>
                n <- perform (Random_randrange 30 60) ;;
                perform (Time_sleep n) ;;
                _find_jira_issue gh_issue true retries'
            | O =>
                issue <- _create_jira_issue gh_issue ;;
                Done (Some issue)
            end
      end
  | first :: _ => Done (Some first)
  end.

(** The default of the [retries] parameter. *)
Definition default_retries : nat := 5.

(** The text of the comment left by [_leave_jira_issue_comment]. *)
Definition event_comment (event : Event) (verb : string) : string :=
  let gh_issue := ev_issue event in
  let is_pr := gh_pull_request gh_issue in
  let user := match ev_sender_login event with
              | Some login => login
              | None => gh_user_login gh_issue
              end in
  "The [GitHub " ++ (if is_pr then "PR" else "issue") ++ "|"
  ++ gh_html_url gh_issue ++ "] has been " ++ verb ++ " by @" ++ user.

Definition _leave_jira_issue_comment (event : Event) (verb : string)
    (should_create : bool) (jira_issue : option JiraIssue) : Prog (option JiraIssue) :=
  found <- match jira_issue with
           | None => _find_jira_issue (ev_issue event) should_create default_retries
           | Some jira_issue => Done (Some jira_issue)
           end ;;
  match found with
  | None => Done None
  | Some jira_issue =>
      call (Jira_add_comment (ji_id jira_issue) (event_comment event verb)) ;;
      Done (Some jira_issue)
  end.

Definition comment_head (gh_comment : GhComment) : string :=
  "[GitHub issue comment|" ++ cm_html_url gh_comment ++ "] by @"
  ++ cm_user_login gh_comment ++ ":" ++ nl ++ nl.

Definition _get_jira_comment_body (gh_comment : GhComment) (body : option string)
    : Prog string :=
  body <- match body with
          | None => _markdown2wiki (cm_body gh_comment)
          | Some body => Done body
          end ;;
  Done (comment_head gh_comment ++ body).

(** *** The event handlers *)

Definition handle_issue_opened (event : Event) : Prog unit :=
  let gh_issue := ev_issue event in
  issue <- _find_jira_issue gh_issue false default_retries ;;
  match issue with
  | Some _ => Done tt
  | None => _create_jira_issue (ev_issue event) ;; Done tt
  end.

Definition handle_issue_edited (event : Event) : Prog unit :=
  let gh_issue := ev_issue event in
  issue <- _find_jira_issue gh_issue true default_retries ;;
  description <- _get_description gh_issue ;;
  let fields :=
    {| f_summary := Some (_get_summary gh_issue); f_project := None;
       f_description := Some description; f_issuetype := None;
       f_labels := None; f_components := None; f_customfield_12100 := None |} in
  fields <- _update_components_field fields issue ;;
  jira_issue <- not_None issue ;;
  call (Issue_update jira_issue fields) ;;
  _update_link_resolved gh_issue jira_issue ;;
  _leave_jira_issue_comment event "edited" true (Some jira_issue) ;;
  Done tt.

Definition handle_issue_closed (event : Event) : Prog unit :=
  issue <- _leave_jira_issue_comment event "closed" false None ;;
  try_except
    (jira_issue <- not_None issue ;;
     call (Issue_update jira_issue (status_field "Closed")))
    the_JIRAError (Done tt) ;;
  match issue with
  | Some issue => _update_link_resolved (ev_issue event) issue
  | None => Done tt
  end.

Definition handle_issue_labeled (event : Event) : Prog unit :=
  let gh_issue := ev_issue event in
  jira_issue <- _find_jira_issue gh_issue (String.eqb (gh_state gh_issue) "open")
                  default_retries ;;
  match jira_issue with
  | None => Done tt
  | Some jira_issue =>
      let labels := ji_labels jira_issue in
      let new_label := _get_jira_label (ev_label event) in
      match _check_issue_label new_label with
      | None => Done tt
      | Some _ =>
          if negb (existsb (String.eqb new_label) labels)
          then call (Issue_update jira_issue (labels_field (labels ++ [new_label])%list))
          else Done tt
      end
  end.

(** [labels.remove(x)]: without the first [x]; [None] when [x] is not in
    the list, where Python raises [ValueError]. *)
Fixpoint list_remove (x : string) (labels : list string) : option (list string) :=
  match labels with
  | [] => None
  | y :: rest =>
      if String.eqb y x then Some rest
      else match list_remove x rest with
           | Some rest' => Some (y :: rest')
           | None => None
           end
  end.

Definition handle_issue_unlabeled (event : Event) : Prog unit :=
  let gh_issue := ev_issue event in
  jira_issue <- _find_jira_issue gh_issue (String.eqb (gh_state gh_issue) "open")
                  default_retries ;;
  match jira_issue with
  | None => Done tt
  | Some jira_issue =>
      let labels := ji_labels jira_issue in
      let removed_label := _get_jira_label (ev_label event) in
      match _check_issue_label removed_label with
      | None => Done tt
      | Some _ =>
          try_except
            (labels <- match list_remove removed_label labels with
                       | Some labels => Done labels
                       | None => Raise ValueError
                       end ;;
             call (Issue_update jira_issue (labels_field labels)))
            the_ValueError
            (Done tt)
      end
  end.

Definition handle_issue_deleted (event : Event) : Prog unit :=
  _leave_jira_issue_comment event "deleted" false None ;; Done tt.

(** After the [try], [issue] is not [None]: [None.update] has raised. *)
Definition handle_issue_reopened (event : Event) : Prog unit :=
  issue <- _leave_jira_issue_comment event "reopened" true None ;;
  try_except
    (jira_issue <- not_None issue ;;
     call (Issue_update jira_issue (status_field "Open")))
    the_JIRAError (Done tt) ;;
  jira_issue <- not_None issue ;;
  _update_link_resolved (ev_issue event) jira_issue.

Definition handle_comment_created (event : Event) : Prog unit :=
  let gh_comment := ev_comment event in
  jira_issue <- _find_jira_issue (ev_issue event) true default_retries ;;
  jira_issue <- not_None jira_issue ;;
  body <- _get_jira_comment_body gh_comment None ;;
  call (Jira_add_comment (ji_id jira_issue) body).

(** The [for comment in jira.comments(...)] loop of [handle_comment_edited];
    the answer is the final value of [found]. *)
Fixpoint update_old_comment (gh_comment : GhComment) (old_jira_body : string)
    (comments : list JiraComment) : Prog bool :=
  match comments with
  | [] => Done false
  | comment :: rest =>
      if String.eqb (jc_body comment) old_jira_body
      then
        body <- _get_jira_comment_body gh_comment None ;;
        call (Comment_update comment body) ;;
        Done true
      else update_old_comment gh_comment old_jira_body rest
  end.

Definition handle_comment_edited (event : Event) : Prog unit :=
  let gh_comment := ev_comment event in
  old_gh_body <- _markdown2wiki (ev_changes_body_from event) ;;
  jira_issue <- _find_jira_issue (ev_issue event) true default_retries ;;
  old_jira_body <- _get_jira_comment_body gh_comment (Some old_gh_body) ;;
  jira_issue <- not_None jira_issue ;;
  comments <- call (Jira_comments (ji_key jira_issue)) ;;
  found <- update_old_comment gh_comment old_jira_body comments ;;
  if negb found
  then
    body <- _get_jira_comment_body gh_comment None ;;
    call (Jira_add_comment (ji_id jira_issue) body)
  else Done tt.

Definition handle_comment_deleted (event : Event) : Prog unit :=
  let gh_comment := ev_comment event in
  jira_issue <- _find_jira_issue (ev_issue event) true default_retries ;;
  jira_issue <- not_None jira_issue ;;
  call (Jira_add_comment (ji_id jira_issue)
          ("@" ++ cm_user_login gh_comment ++ " deleted [GitHub issue comment|"
           ++ cm_html_url gh_comment ++ "]")).

(* ===================================================================== *)
(** ** Observing runs                                                     *)
(* ===================================================================== *)

(** Calls that change the target tracker. *)
Definition mutates (c : Call) : bool :=
  match c with
  | Jira_create_issue _ | Issue_update _ _ | Jira_add_comment _ _
  | Comment_update _ _ | Link_update _ _ _ _ | Jira_add_remote_link _ _ _ _ _ => true
  | _ => false
  end.

Definition creates_issue (c : Call) : bool :=
  match c with Jira_create_issue _ => true | _ => false end.

Definition sleeps (c : Call) : bool :=
  match c with Time_sleep _ => true | _ => false end.

Definition searches (c : Call) : bool :=
  match c with Jira_search_issues _ => true | _ => false end.

(** [issue.update(fields={'labels': ...})] *)
Definition updates_labels (c : Call) : bool :=
  match c with
  | Issue_update _ fields => match f_labels fields with Some _ => true | None => false end
  | _ => false
  end.

Definition count (p : Call -> bool) (t : list Call) : nat :=
  List.length (List.filter p t).

(** No run of the program makes a call that satisfies [bad]. *)
Inductive Never (bad : Call -> bool) {A} : Prog A -> Prop :=
| Never_Done a : Never bad (Done a)
| Never_Raise e : Never bad (Raise e)
| Never_Do c k : bad c = false -> (forall a, Never bad (k a)) -> Never bad (Do c k).

(** After making the calls [t1], the program [p] goes on exactly as [q]
    does from there: same outcome, same further calls. *)
Definition continues_as {A} (w : World) (h t1 : list Call) (p q : Prog A) : Prop :=
  run w h p = (let (r, t2) := run w (h ++ t1)%list q in (r, (t1 ++ t2)%list)).

(** The outcome and the calls of a run. *)
Definition returned {A} (r : result A * list Call) : result A := fst r.
Definition trace {A} (r : result A * list Call) : list Call := snd r.

(* ===================================================================== *)
(** ** Notions used to state the properties                               *)
(* ===================================================================== *)

(** The text before the title in a summary. *)
Definition summary_prefix (gh_issue : GhIssue) : string :=
  (if gh_pull_request gh_issue then "PR" else "GH") ++ " #"
  ++ of_N (gh_number gh_issue) ++ ": ".

(** A space and a parenthesised key-like token: what
    [r' \([\w]+-[\d]+\)'] matches. *)
Inductive Slug : string -> Prop :=
| Slug_intro (word digits : string) :
    nonempty word = true -> forallb is_word word = true ->
    nonempty digits = true -> forallb is_digit digits = true ->
    Slug (" (" ++ word ++ "-" ++ digits ++ ")").

(** [Stripped s out]: [out] is [s] read from the left, with every slug met
    on the way left out and every other character kept. *)
Inductive Stripped : string -> string -> Prop :=
| Stripped_end : Stripped "" ""
| Stripped_drop slug rest out :
    Slug slug -> Stripped rest out -> Stripped (slug ++ rest) out
| Stripped_keep c s out :
    (forall slug rest, Slug slug -> String c s <> slug ++ rest) ->
    Stripped s out -> Stripped (String c s) (String c out).

(** The title as the specification describes it: "any trailing parenthesized
    target-key-looking suffix stripped", the rest of the title untouched. *)
Fixpoint strip_trailing_slug (title : string) : string :=
  match Re.match_slug title with
  | Some EmptyString => EmptyString
  | _ =>
      match title with
      | EmptyString => EmptyString
      | String c title' => String c (strip_trailing_slug title')
      end
  end.

Definition summary_as_specified (gh_issue : GhIssue) : string :=
  summary_prefix gh_issue ++ strip_trailing_slug (gh_title gh_issue).

(** An answer, not an exception. *)
Definition answers {A} (r : result A) : Prop := exists a, r = Ok a.

(** The answers with which [_create_jira_issue] goes through: none of the
    calls it makes raises, and JIRA_PROJECT is set. *)
Definition creation_accepted (c : Call) : Ans c -> Prop :=
  match c as c0 return Ans c0 -> Prop with
  | Jira_issue_types => answers
  | Markdown2confluence _ => answers
  | Jira_project _ => answers
  | Jira_project_components _ => answers
  | Jira_create_issue _ => answers
  | Issue_update _ _ => answers
  | Jira_add_remote_link _ _ _ _ _ => answers
  | REPO_get_issue _ => answers
  | Api_gh_issue_edit _ _ => answers
  | Jira_remote_links _ => answers
  | Link_update _ _ _ _ => answers
  | Os_environ_get name => fun v => name = "JIRA_PROJECT" -> v <> None
  | _ => fun _ => True
  end.

(** [Succeeds ok bad P p]: as long as every answer satisfies [ok], the
    program [p] raises nothing, makes no call in [bad], and returns a value
    in [P]. *)
Fixpoint Succeeds {A} (ok : forall c, Ans c -> Prop) (bad : Call -> bool)
    (P : A -> Prop) (p : Prog A) : Prop :=
  match p with
  | Done a => P a
  | Raise _ => False
  | Do c k => bad c = false /\ forall a, ok c a -> Succeeds ok bad P (k a)
  end.

(** A label name that starts with "status:" or "resolution:" in any letter
    case. *)
Definition reserved (name : string) : Prop :=
  exists prefix rest,
    name = prefix ++ rest /\
    (lower prefix = "status:" \/ lower prefix = "resolution:").

Definition no_paren (c : ascii) : bool := negb (Ascii.eqb c "(").

(* ===================================================================== *)
(** ** Scenarios: concrete payloads and worlds                            *)
(* ===================================================================== *)

Module Scenario.

(** A tracker whose answers do not depend on what happened before. *)
Record Tracker : Type := {
  search_result : list JiraIssue;
  fetch : string -> result JiraIssue;
  exceptions_JIRAError : result pyobj;
  environ : string -> option string;
  project_components : list Component;
  comments : list JiraComment;
  remote_links : list RemoteLink;
  created : JiraIssue
}.

Definition world (t : Tracker) : World := fun _ c =>
  match c return Ans c with
  | Jira_search_issues _ => Ok (search_result t)
  | Jira_issue key => fetch t key
  | Jira_exceptions_JIRAError => exceptions_JIRAError t
  | Jira_create_issue _ => Ok (created t)
  | Issue_update _ _ => Ok tt
  | Jira_add_comment _ _ => Ok tt
  | Jira_comments _ => Ok (comments t)
  | Comment_update _ _ => Ok tt
  | Jira_remote_links _ => Ok (remote_links t)
  | Link_update _ _ _ _ => Ok tt
  | Jira_add_remote_link _ _ _ _ _ => Ok tt
  | Jira_project key => Ok {| pr_key := key |}
  | Jira_project_components _ => Ok (project_components t)
  | Jira_issue_types => Ok []
  | REPO_get_issue number => Ok {| api_number := number; api_title := "Crash on boot" |}
  | Api_gh_issue_edit _ _ => Ok tt
  | Markdown2confluence markdown_md => Ok markdown_md
  | Os_environ_get name => environ t name
  | Random_randrange start _ => start
  | Time_sleep _ => tt
  end.

Definition url42 : string := "https://github.com/acme/app/issues/42".

(** Source issue #42, open, no labels. *)
Definition gh42 : GhIssue :=
  {| gh_number := 42; gh_title := "Crash on boot"; gh_body := Some "It crashes.";
     gh_user_login := "alice"; gh_labels := []; gh_html_url := url42;
     gh_state := "open"; gh_pull_request := false |}.

(** The same issue once its title carries a target key. *)
Definition gh42_keyed : GhIssue :=
  {| gh_number := 42; gh_title := "Crash on boot (PROJ-101)";
     gh_body := Some "It crashes."; gh_user_login := "alice"; gh_labels := [];
     gh_html_url := url42; gh_state := "open"; gh_pull_request := false |}.

Definition comment7 : GhComment :=
  {| cm_body := Some "new text";
     cm_html_url := "https://github.com/acme/app/issues/42#issuecomment-7";
     cm_user_login := "bob" |}.

Definition event_of (gh_issue : GhIssue) (label : string) : Event :=
  {| ev_issue := gh_issue; ev_label := {| lbl_name := label |};
     ev_comment := comment7; ev_changes_body_from := Some "old text";
     ev_sender_login := Some "alice" |}.

Definition core : Component := {| comp_id := "10000"; comp_name := "Core" |}.

Definition proj101 : JiraIssue :=
  {| ji_id := "20101"; ji_key := "PROJ-101"; ji_labels := ["bug"];
     ji_description := Some ("Copied by hand from " ++ url42);
     ji_components := [core]; ji_project_key := "PROJ" |}.

(** What [jira.create_issue] answers with. *)
Definition new101 : JiraIssue :=
  {| ji_id := "20101"; ji_key := "PROJ-101"; ji_labels := [];
     ji_description := None; ji_components := []; ji_project_key := "PROJ" |}.

Definition only_project (name : string) : option string :=
  if String.eqb name "JIRA_PROJECT" then Some "PROJ" else None.

Definition project_and_component (name : string) : option string :=
  if String.eqb name "JIRA_PROJECT" then Some "PROJ"
  else if String.eqb name "JIRA_COMPONENT" then Some "Core"
  else None.

(** A title with a key-like token in the middle and none at the end. *)
Definition gh7 : GhIssue :=
  {| gh_number := 7; gh_title := "Fix (ABC-12) crash"; gh_body := None;
     gh_user_login := "alice"; gh_labels := [];
     gh_html_url := "https://github.com/acme/app/issues/7";
     gh_state := "open"; gh_pull_request := false |}.

(** A title with two key-like tokens, one in the middle, whose word has a
    letter beyond U+007F (e with acute accent, U+00E9), and one at the end. *)
Definition gh8 : GhIssue :=
  {| gh_number := 8;
     gh_title := "Fix (caf" ++ String "233" "-12) crash (PROJ-9)";
     gh_body := None; gh_user_login := "alice"; gh_labels := [];
     gh_html_url := "https://github.com/acme/app/issues/8";
     gh_state := "open"; gh_pull_request := false |}.

(** The target comment made from comment 7 when its text was "old text". *)
Definition synced_comment : JiraComment :=
  {| jc_id := "30001";
     jc_body := comment_head comment7 ++ "old text" ++ nl |}.

Definition other_comment : JiraComment :=
  {| jc_id := "30000"; jc_body := "Triaged." |}.

(** A tracker that knows nothing about the issue.  Its client object is a
    plain JIRA client: it has no attribute [exceptions]. *)
Definition fresh : Tracker :=
  {| search_result := []; fetch := fun _ => Err JIRAError;
     exceptions_JIRAError := Err AttributeError;
     environ := only_project; project_components := [];
     comments := []; remote_links := []; created := new101 |}.

(** A tracker in which PROJ-101 exists and quotes the GitHub URL, but has
    no remote link yet. *)
Definition hand_synced : Tracker :=
  {| search_result := []; fetch := fun _ => Ok proj101;
     exceptions_JIRAError := Err AttributeError;
     environ := only_project; project_components := [];
     comments := []; remote_links := []; created := proj101 |}.

(** PROJ-101 is linked to issue #42, already has the component "Core", and
    carries two comments; JIRA_COMPONENT is "Core". *)
Definition synced : Tracker :=
  {| search_result := [proj101]; fetch := fun _ => Ok proj101;
     exceptions_JIRAError := Err AttributeError;
     environ := project_and_component; project_components := [core];
     comments := [other_comment; synced_comment]; remote_links := [];
     created := new101 |}.

(** The tracker of the test suite: the client is a mock object, whose
    attribute [exceptions.JIRAError] exists and is not an exception class. *)
Definition mocked : Tracker :=
  {| search_result := []; fetch := fun _ => Err JIRAError;
     exceptions_JIRAError := Ok NotAClass;
     environ := only_project; project_components := [];
     comments := []; remote_links := []; created := new101 |}.

End Scenario.

(* ===================================================================== *)
(** ** sync_issues_manually                                               *)
(* ===================================================================== *)

Module Manual.

(** [re.split(r'\W+', s)]: [token] is the piece being read, [in_separator]
    tells that the last character read belonged to a separator.  A separator
    at either end of [s] leaves an empty piece there. *)
Fixpoint split_from (token : string) (in_separator : bool) (s : string) : list string :=
  match s with
  | EmptyString => [token]
  | String c s' =>
      if is_word c then split_from (token ++ String c EmptyString) false s'
      else if in_separator then split_from EmptyString true s'
      else token :: split_from EmptyString true s'
  end.

Definition re_split_nonword (s : string) : list string :=
  split_from EmptyString false s.

(** [s.isnumeric()] *)
Definition isnumeric (s : string) : bool := nonempty s && forallb is_numeric s.

(** [int(s)] for a string of numeric characters: the number it writes in
    decimal, and [None], where Python raises [ValueError], when one of its
    characters is not a decimal digit.  (An interpreter may also be set to
    refuse strings of more than a given number of digits; that setting is not
    part of the model.) *)
Definition int (s : string) : option N :=
  if forallb is_digit s
  then match NilZero.uint_of_string s with
       | Some d => Some (N.of_uint d)
       | None => None
       end
  else None.

(** [event['issue'] = ...] *)
Definition set_issue (event : Event) (gh_issue : GhIssue) : Event :=
  {| ev_issue := gh_issue; ev_label := ev_label event; ev_comment := ev_comment event;
     ev_changes_body_from := ev_changes_body_from event;
     ev_sender_login := ev_sender_login event |}.

(** The [for issue_number in issues] loop.  [raw_data] stands for the
    attribute of that name of the object [REPO.get_issue] answers with. *)
Fixpoint mirror_issues (raw_data : GhApiIssue -> GhIssue) (event : Event)
    (issues : list string) : Prog unit :=
  match issues with
  | [] => Done tt
  | issue_number :: rest =>
      if negb (isnumeric issue_number) then mirror_issues raw_data event rest
      else
        number <- match int issue_number with
                  | Some number => Done number
                  | None => Raise ValueError
                  end ;;
        gh_issue <- call (REPO_get_issue number) ;;
        let event := set_issue event (raw_data gh_issue) in
        handle_issue_opened event ;;
        mirror_issues raw_data event rest
  end.

(** [issue_numbers] is [event['inputs']['issue-numbers']]. *)
Definition sync_issues_manually (raw_data : GhApiIssue -> GhIssue) (event : Event)
    (issue_numbers : string) : Prog unit :=
  let issues := re_split_nonword issue_numbers in
  mirror_issues raw_data event issues.

End Manual.

(* ===================================================================== *)
(** ** More notions used to state the properties                          *)
(* ===================================================================== *)

(** Every normal outcome of the program satisfies [P]. *)
Fixpoint Returns {A} (P : A -> Prop) (p : Prog A) : Prop :=
  match p with
  | Done a => P a
  | Raise _ => True
  | Do c k => forall a, Returns P (k a)
  end.

(** [issue.update] with an ['issuetype'] entry. *)
Definition updates_issuetype (c : Call) : bool :=
  match c with
  | Issue_update _ fields =>
      match f_issuetype fields with Some _ => true | None => false end
  | _ => false
  end.

Definition edits_title (c : Call) : bool :=
  match c with Api_gh_issue_edit _ _ => true | _ => false end.

Definition fetches_source (c : Call) : bool :=
  match c with REPO_get_issue _ => true | _ => false end.

Definition calls_jira (c : Call) : bool :=
  match c with
  | Os_environ_get _ | Random_randrange _ _ | Time_sleep _
  | Markdown2confluence _ | REPO_get_issue _ | Api_gh_issue_edit _ _ => false
  | _ => true
  end.

(** A [link.update] that is not the one [_update_link_resolved] means to
    make for [gh_issue]: another link, another title or flag, or a changed
    global id or relationship. *)
Definition wrong_link_update (gh_issue : GhIssue) (c : Call) : bool :=
  match c with
  | Link_update link new_link globalId relationship =>
      negb (match rl_globalId link with
            | Some g => String.eqb g (gh_html_url gh_issue)
            | None => false
            end
            && String.eqb globalId (gh_html_url gh_issue)
            && String.eqb relationship (rl_relationship link)
            && String.eqb (lo_title new_link) (gh_title gh_issue)
            && String.eqb (lo_url new_link) (lo_url (rl_object link))
            && Bool.eqb (lo_resolved new_link)
                 (negb (String.eqb (gh_state gh_issue) "open")))
  | _ => false
  end.

(** Worlds for the further scenarios. *)
Module Cases.

(** GitHub refuses every title edit. *)
Definition edits_refused : World := fun h c =>
  match c as c0 return Ans c0 with
  | Api_gh_issue_edit _ _ => Err GithubException
  | c0 => Scenario.world Scenario.fresh h c0
  end.

(** The converter fails. *)
Definition converter_fails : World := fun h c =>
  match c as c0 return Ans c0 with
  | Markdown2confluence _ => Err CalledProcessError
  | c0 => Scenario.world Scenario.fresh h c0
  end.

(** The status field cannot be set. *)
Definition status_field_refused : World := fun h c =>
  match c as c0 return Ans c0 with
  | Issue_update _ _ => Err JIRAError
  | c0 => Scenario.world Scenario.fresh h c0
  end.

(** JIRA_PROJECT is not set. *)
Definition no_project : World := fun h c =>
  match c as c0 return Ans c0 with
  | Os_environ_get _ => None
  | c0 => Scenario.world Scenario.fresh h c0
  end.

Definition raw_data (api_gh_issue : GhApiIssue) : GhIssue :=
  {| gh_number := api_number api_gh_issue; gh_title := api_title api_gh_issue;
     gh_body := None; gh_user_login := "alice"; gh_labels := [];
     gh_html_url := Scenario.url42; gh_state := "open"; gh_pull_request := false |}.

Definition label (name : string) : GhLabel := {| lbl_name := name |}.

Definition labelled (names : list string) : GhIssue :=
  {| gh_number := 42; gh_title := "Crash on boot"; gh_body := None;
     gh_user_login := "alice"; gh_labels := List.map label names;
     gh_html_url := Scenario.url42; gh_state := "open"; gh_pull_request := false |}.

Definition bug_type : IssueType := {| it_id := "10004"; it_name := "Bug" |}.
Definition story_type : IssueType := {| it_id := "10001"; it_name := "Story" |}.
(** A type whose name starts with a capital E with acute accent (U+00C9). *)
Definition epica_type : IssueType :=
  {| it_id := "10000"; it_name := String "201" "pica" |}.

(** The tracker knows the issue types Story, Bug and the one above. *)
Definition typed : World := fun h c =>
  match c as c0 return Ans c0 with
  | Jira_issue_types => Ok [story_type; bug_type; epica_type]
  | c0 => Scenario.world Scenario.fresh h c0
  end.

Definition link42 : RemoteLink :=
  {| rl_id := "1"; rl_globalId := Some Scenario.url42; rl_relationship := "synced from";
     rl_object := {| lo_url := Scenario.url42; lo_title := "old title";
                     lo_resolved := false |} |}.

Definition other_link : RemoteLink :=
  {| rl_id := "2"; rl_globalId := Some "https://example.org/doc"; rl_relationship := "mentioned in";
     rl_object := {| lo_url := "https://example.org/doc"; lo_title := "Design";
                     lo_resolved := false |} |}.

(** PROJ-101 carries the link to issue #42 and a link to something else. *)
Definition linked : Scenario.Tracker :=
  {| Scenario.search_result := [Scenario.proj101];
     Scenario.fetch := fun _ => Ok Scenario.proj101;
     Scenario.exceptions_JIRAError := Err AttributeError;
     Scenario.environ := Scenario.only_project;
     Scenario.project_components := [];
     Scenario.comments := [];
     Scenario.remote_links := [other_link; link42];
     Scenario.created := Scenario.new101 |}.

(** A target issue that carries the label "bug" twice. *)
Definition proj102 : JiraIssue :=
  {| ji_id := "20102"; ji_key := "PROJ-102";
     ji_labels := ["triage"; "bug"; "core"; "bug"];
     ji_description := None; ji_components := []; ji_project_key := "PROJ" |}.

(** PROJ-102 is linked to issue #42. *)
Definition twice_labelled : Scenario.Tracker :=
  {| Scenario.search_result := [proj102];
     Scenario.fetch := fun _ => Ok proj102;
     Scenario.exceptions_JIRAError := Err AttributeError;
     Scenario.environ := Scenario.only_project;
     Scenario.project_components := [];
     Scenario.comments := [];
     Scenario.remote_links := [];
     Scenario.created := Scenario.new101 |}.

(** Issue #42 once it is closed. *)
Definition closed42 : GhIssue :=
  {| gh_number := 42; gh_title := "Crash on boot"; gh_body := Some "It crashes.";
     gh_user_login := "alice"; gh_labels := []; gh_html_url := Scenario.url42;
     gh_state := "closed"; gh_pull_request := false |}.

(** A conversion result of 16400 characters: 16376 times "a", then 24 times
    "b". *)
Definition kept_wiki : string := N.iter 16376 (String "a") "".
Definition long_wiki : string := N.iter 16376 (String "a") (N.iter 24 (String "b") "").

(** The converter answers with [long_wiki]. *)
Definition long_converter : World := fun h c =>
  match c as c0 return Ans c0 with
  | Markdown2confluence _ => Ok long_wiki
  | c0 => Scenario.world Scenario.fresh h c0
  end.

(** PROJ-101 is linked to issue #42, and its status field cannot be set. *)
Definition synced_status_refused : World := fun h c =>
  match c as c0 return Ans c0 with
  | Issue_update _ _ => Err JIRAError
  | c0 => Scenario.world Scenario.synced h c0
  end.

End Cases.

(** [gh_label] names [issue_type]: case-insensitively, bare or after
    "type: ". *)
Definition label_matches_type (gh_label : string) (issue_type : IssueType) : Prop :=
  lower gh_label = lower (it_name issue_type) \/
  lower gh_label = "type: " ++ lower (it_name issue_type).

(** The issue after GitHub has accepted a title edit. *)
Definition with_title (gh_issue : GhIssue) (title : string) : GhIssue :=
  {| gh_number := gh_number gh_issue; gh_title := title; gh_body := gh_body gh_issue;
     gh_user_login := gh_user_login gh_issue; gh_labels := gh_labels gh_issue;
     gh_html_url := gh_html_url gh_issue; gh_state := gh_state gh_issue;
     gh_pull_request := gh_pull_request gh_issue |}.

Definition adds_comment (c : Call) : bool :=
  match c with Jira_add_comment _ _ => true | _ => false end.

(** Calls that create or change an issue, a comment or a link, other than
    adding a comment and registering a remote link. *)
Definition changes_fields (c : Call) : bool :=
  match c with
  | Jira_create_issue _ | Issue_update _ _ | Comment_update _ _ | Link_update _ _ _ _ => true
  | _ => false
  end.


Definition not_numeric (c : ascii) : bool := negb (is_numeric c).

(** The only two shapes of dictionary the Edited handler may hand to
    [issue.update]: the status field of a freshly created issue, or summary
    and description (and possibly components) and nothing else. *)
Definition edited_fields_ok (gh_issue : GhIssue) (fields : Fields) : bool :=
  match f_customfield_12100 fields with
  | Some status =>
      String.eqb status "Open"
      && match f_summary fields, f_description fields, f_components fields with
         | None, None, None => true
         | _, _, _ => false
         end
  | None =>
      match f_summary fields, f_description fields with
      | Some summary, Some _ => String.eqb summary (_get_summary gh_issue)
      | _, _ => false
      end
  end
  && match f_labels fields, f_issuetype fields, f_project fields with
     | None, None, None => true
     | _, _, _ => false
     end.

Definition bad_edited_update (gh_issue : GhIssue) (c : Call) : bool :=
  match c with
  | Issue_update _ fields => negb (edited_fields_ok gh_issue fields)
  | _ => false
  end.

(** Auxiliary notions used to state the further properties. *)

Definition amended_title (api_gh_issue : GhApiIssue) (jira_issue : JiraIssue) : string :=
  api_title api_gh_issue ++ " (" ++ ji_key jira_issue ++ ")".

Definition same_but_components (fields f : Fields) : Prop :=
  f_summary f = f_summary fields /\ f_project f = f_project fields /\
  f_description f = f_description fields /\ f_issuetype f = f_issuetype fields /\
  f_labels f = f_labels fields /\ f_customfield_12100 f = f_customfield_12100 fields.

Definition not_space (c : ascii) : bool := negb (Ascii.eqb c " ").

Definition no_hyphen (c : ascii) : bool := negb (Ascii.eqb c "-").

(** What [_create_jira_issue] does with the issue the tracker has created. *)
Definition after_create (gh_issue : GhIssue) (issue : JiraIssue) : Prog JiraIssue :=
  try_except (call (Issue_update issue (status_field "Open")))
    the_JIRAError (Done tt) ;;
  _add_remote_link issue gh_issue ;;
  _update_github_with_jira_key gh_issue issue ;;
  (if negb (String.eqb (gh_state gh_issue) "open")
   then _update_link_resolved gh_issue issue
   else Done tt) ;;
  Done issue.

(** Calls that add or rewrite a comment. *)
Definition comment_action (c : Call) : bool :=
  match c with
  | Jira_add_comment _ _ | Comment_update _ _ => true
  | _ => false
  end.

(* ===================================================================== *)
(** * Properties                                                          *)
(* ===================================================================== *)

(** ** Running composed programs *)

Lemma run_bind {A B} (w : World) (p : Prog A) (f : A -> Prog B) : forall h,
  run w h (bind p f) =
  match run w h p with
  | (Ok a, t) => let (r, t') := run w (h ++ t)%list (f a) in (r, (t ++ t')%list)
  | (Err e, t) => (Err e, t)
  end.
Proof.
  induction p as [a|e|c k IH]; intros h; simpl.
  - rewrite app_nil_r. now destruct (run w h (f a)).
  - reflexivity.
  - rewrite IH. destruct (run w (h ++ [c])%list (k (w h c))) as [[a|e] t]; trivial.
    rewrite <- app_assoc. simpl. now destruct (run w (h ++ c :: t)%list (f a)).
Qed.

Lemma run_try_except {A} (w : World) (p : Prog A) cls handler : forall h,
  run w h (try_except p cls handler) =
  match run w h p with
  | (Ok a, t) => (Ok a, t)
  | (Err e, t) =>
      let (r, t') :=
        run w (h ++ t)%list
          (c <- cls ;;
           match c with
           | ExceptionClass e' => if exn_eqb e e' then handler else Raise e
           | NotAClass => Raise TypeError
           end) in
      (r, (t ++ t')%list)
  end.
Proof.
  induction p as [a|e|c k IH]; intros h.
  - reflexivity.
  - cbn [try_except run]. rewrite app_nil_r. simpl. now destruct (run w h _).
  - cbn [try_except run]. rewrite IH.
    destruct (run w (h ++ [c])%list (k (w h c))) as [[a|e] t]; trivial.
    rewrite <- app_assoc. simpl. now destruct (run w (h ++ c :: t)%list _).
Qed.

(** ** Strings *)

Lemma length_append (s1 s2 : string) :
  String.length (s1 ++ s2) = String.length s1 + String.length s2.
Proof. induction s1; simpl; congruence. Qed.

Lemma length_substring0 (n : nat) (s : string) :
  String.length (substring 0 n s) = Nat.min n (String.length s).
Proof.
  revert n; induction s as [|c s IH]; intros [|n]; simpl; trivial.
  now rewrite IH.
Qed.

Lemma len_take (n : N) (s : string) : len (take n s) = N.min n (len s).
Proof. unfold len, take. rewrite length_substring0. lia. Qed.

Lemma len_append (s1 s2 : string) : len (s1 ++ s2) = (len s1 + len s2)%N.
Proof. unfold len. rewrite length_append. lia. Qed.

Lemma substring0_prefix (n : nat) (s : string) :
  exists dropped, s = substring 0 n s ++ dropped.
Proof.
  revert n; induction s as [|c s IH]; intros [|n]; simpl.
  - now exists "".
  - now exists "".
  - now exists (String c s).
  - destruct (IH n) as [dropped Hd]. exists dropped. now rewrite <- Hd.
Qed.

(** [s[:n]] is the piece of [s] made of its first [n] characters. *)
Lemma take_prefix (n : N) (s : string) :
  (n <= len s)%N ->
  exists dropped, s = take n s ++ dropped /\ len (take n s) = n.
Proof.
  intros Hn. destruct (substring0_prefix (N.to_nat n) s) as [dropped Hd].
  exists dropped. split; [exact Hd|]. rewrite len_take. lia.
Qed.

(** ** The markup converter *)

(** C10.  Whenever the external conversion succeeds, the text returned by
    [_markdown2wiki] has at most 16384 characters: a conversion result of at
    most 16384 characters is returned as it is; a longer one is cut after
    its first 16376 characters, which are returned followed by the marker
    (two newlines and "[...]"). *)
Theorem markdown2wiki_bounded (w : World) (h : list Call) (markdown result : string) :
  w h (Markdown2confluence (markdown_file markdown)) = Ok result ->
  exists out,
    run w h (_markdown2wiki (Some markdown))
      = (Ok out, [Markdown2confluence (markdown_file markdown)]) /\
    (len out <= 16384)%N /\
    ((16384 < len result)%N ->
     exists kept dropped,
       result = kept ++ dropped /\ len kept = 16376%N /\
       out = kept ++ nl ++ nl ++ "[...]") /\
    ((len result <= 16384)%N -> out = result).
Proof.
  intros Hconv.
  unfold _markdown2wiki.
  rewrite run_try_except. cbn [bind run]. rewrite Hconv. cbn [unwrap bind run].
  eexists; split; [reflexivity|].
  destruct (N.ltb_spec 16384 (len result)) as [Hlong|Hshort].
  - split; [|split]; [| |lia].
    + rewrite !len_append, len_take.
      change (len nl) with 1%N. change (len "[...]") with 5%N. lia.
    + intros _. destruct (take_prefix 16376 result) as (dropped & Hsplit & Hlen); [lia|].
      exists (take 16376 result), dropped. auto.
  - split; [|split]; [lia|lia|reflexivity].
Qed.

Lemma markdown2wiki_bounded_witness :
  let w := Cases.long_converter in
  let convert := Markdown2confluence (markdown_file "# Title") in
  w [] convert = Ok Cases.long_wiki /\
  (16384 < len Cases.long_wiki)%N /\
  run w [] (_markdown2wiki (Some "# Title"))
    = (Ok (Cases.kept_wiki ++ nl ++ nl ++ "[...]"), [convert]) /\
  exists out,
    run w [] (_markdown2wiki (Some "# Title")) = (Ok out, [convert]) /\
    (len out <= 16384)%N /\
    exists kept dropped,
      Cases.long_wiki = kept ++ dropped /\ len kept = 16376%N /\
      out = kept ++ nl ++ nl ++ "[...]".
Proof.
  cbv zeta. split; [reflexivity|]. split; [reflexivity|].
  split; [vm_compute; reflexivity|].
  destruct (markdown2wiki_bounded Cases.long_converter [] "# Title" Cases.long_wiki eq_refl)
    as (out & Hrun & Hlen & Hlong & _).
  exists out. split; [exact Hrun|]. split; [exact Hlen|].
  apply Hlong. reflexivity.
Defined.

(** ** Programs that never make some call *)

Lemma Never_bind bad {A B} (p : Prog A) (f : A -> Prog B) :
  Never bad p -> (forall a, Never bad (f a)) -> Never bad (bind p f).
Proof.
  intros Hp Hf. induction Hp; simpl; auto using Never_Raise.
  constructor; auto.
Qed.

Lemma Never_try_except bad {A} (p : Prog A) cls handler :
  Never bad p -> Never bad cls -> Never bad handler ->
  Never bad (try_except p cls handler).
Proof.
  intros Hp Hc Hh. induction Hp; simpl.
  - constructor.
  - apply Never_bind; trivial. intros [e'|]; [destruct (exn_eqb e e')|]; trivial; constructor.
  - constructor; auto.
Qed.

Lemma Never_for_each bad {X} (xs : list X) (body : X -> Prog unit) :
  (forall x, Never bad (body x)) -> Never bad (for_each xs body).
Proof.
  intros Hb. induction xs; simpl; [constructor|]. apply Never_bind; auto.
Qed.

Lemma Never_unwrap bad {A} (r : result A) : Never bad (unwrap r).
Proof. destruct r; constructor. Qed.

Lemma count_app p (a b : list Call) : count p (a ++ b)%list = count p a + count p b.
Proof. unfold count. now rewrite filter_app, length_app. Qed.

Lemma count_cons p c (t : list Call) :
  count p (c :: t) = (if p c then 1 else 0) + count p t.
Proof. unfold count. simpl. now destruct (p c). Qed.

Lemma Never_run bad {A} (p : Prog A) :
  Never bad p -> forall w h, count bad (trace (run w h p)) = 0.
Proof.
  intros Hp w. induction Hp as [a|e|c k Hc Hk IH]; intros h; trivial.
  simpl. specialize (IH (w h c) (h ++ [c])%list).
  destruct (run w (h ++ [c])%list (k (w h c))) as [r t].
  unfold trace in *; simpl in *. now rewrite count_cons, Hc.
Qed.

(** Walks through a program, splitting at every branch on a run-time value. *)
Create HintDb prog.
#[local] Hint Unfold _add_remote_link _update_link_resolved _update_github_with_jira_key
  os_environ _update_components_field _get_jira_issue_type _get_description
  _markdown2wiki _create_jira_issue manual_match perform
  the_JIRAError the_GithubException the_CalledProcessError the_ValueError
  jira_dot_exceptions_JIRAError : prog.

Ltac never :=
  autounfold with prog;
  repeat first
    [ apply Never_unwrap
    | apply Never_Done
    | apply Never_Raise
    | apply Never_bind; [|intros]
    | apply Never_try_except
    | apply Never_for_each; intros
    | apply Never_Do; [reflexivity|intros]
    | match goal with
      | |- Never _ (match ?x with _ => _ end) => destruct x
      | |- Never _ (if ?b then _ else _) => destruct b
      end ].

Lemma manual_match_never_sleeps gh : Never sleeps (manual_match gh).
Proof. never. Qed.

Lemma manual_match_never_searches gh : Never searches (manual_match gh).
Proof. never. Qed.

Lemma manual_match_never_creates gh : Never creates_issue (manual_match gh).
Proof. never. Qed.

(** As [never], for a class of calls known by what it excludes. *)
Ltac never_auto :=
  autounfold with prog;
  repeat first
    [ apply Never_unwrap
    | apply Never_Done
    | apply Never_Raise
    | apply Never_bind; [|intros]
    | apply Never_try_except
    | apply Never_for_each; intros
    | apply Never_Do; [solve [reflexivity | auto]|intros]
    | match goal with
      | |- Never _ (match ?x with _ => _ end) => destruct x
      | |- Never _ (if ?b then _ else _) => destruct b
      end ].

Lemma edit_title_loop_never bad api j n :
  (forall a t, bad (Api_gh_issue_edit a t) = false) ->
  (forall a b, bad (Random_randrange a b) = false) ->
  (forall s, bad (Time_sleep s) = false) ->
  Never bad (edit_title_loop api j n).
Proof. intros H1 H2 H3. induction n; simpl; never_auto; trivial. Qed.

Lemma after_create_never_creates gh issue : Never creates_issue (after_create gh issue).
Proof.
  unfold after_create. never_auto; apply edit_title_loop_never; auto.
Qed.

Lemma edit_title_loop_never_labels api j n : Never updates_labels (edit_title_loop api j n).
Proof. induction n; simpl; never; trivial. Qed.

Lemma create_jira_issue_never_labels gh : Never updates_labels (_create_jira_issue gh).
Proof. never; apply edit_title_loop_never_labels. Qed.

Lemma manual_match_never_labels gh : Never updates_labels (manual_match gh).
Proof. never. Qed.

(** ** Identity resolution *)

(** One round of [_find_jira_issue], whatever [retries] is. *)
Lemma find_jira_issue_eq gh make_new retries :
  _find_jira_issue gh make_new retries =
  (res <- call (Jira_search_issues (jql_query (gh_html_url gh))) ;;
   match res with
   | [] =>
       found <- manual_match gh ;;
       match found with
       | Some issue => Done (Some issue)
       | None =>
           if negb make_new then Done None
           else
             match retries with
             | S retries' =>
                 n <- perform (Random_randrange 30 60) ;;
                 perform (Time_sleep n) ;;
                 _find_jira_issue gh true retries'
             | O => issue <- _create_jira_issue gh ;; Done (Some issue)
             end
       end
   | first :: _ => Done (Some first)
   end).
Proof. destruct retries; reflexivity. Qed.

Lemma find_jira_issue_never_labels gh make_new retries :
  Never updates_labels (_find_jira_issue gh make_new retries).
Proof.
  revert make_new; induction retries as [|n IH]; intros make_new;
    rewrite find_jira_issue_eq.
  - apply Never_Do; [reflexivity|intros [[|first rest]|e]]; cbn [unwrap bind]; try constructor.
    apply Never_bind; [apply manual_match_never_labels|].
    intros [issue|]; [constructor|].
    destruct make_new; cbn [negb]; [|constructor].
    apply Never_bind; [apply create_jira_issue_never_labels|constructor].
  - apply Never_Do; [reflexivity|intros [[|first rest]|e]]; cbn [unwrap bind]; try constructor.
    apply Never_bind; [apply manual_match_never_labels|].
    intros [issue|]; [constructor|].
    destruct make_new; cbn [negb]; [|constructor].
    apply Never_Do; [reflexivity|intros z].
    apply Never_Do; [reflexivity|intros u]. apply IH.
Qed.

#[local] Arguments _create_jira_issue : simpl never.
#[local] Arguments manual_match : simpl never.
#[local] Arguments _markdown2wiki : simpl never.
#[local] Arguments _update_link_resolved : simpl never.

Section Exhausted.
(** A world in which the remote-link search and the manual-match fallback
    find nothing, whenever they are tried. *)
Variable w : World.
Variable gh_issue : GhIssue.
Hypothesis search_finds_nothing :
  forall h jql, w h (Jira_search_issues jql) = Ok [].
Hypothesis manual_match_finds_nothing :
  forall h, returned (run w h (manual_match gh_issue)) = Ok None.

(** With [retries] rounds left, resolution sleeps [retries] times, searches
    [retries + 1] times, creates nothing meanwhile, and then hands over to
    [_create_jira_issue]. *)
Lemma find_jira_issue_exhausts (retries : nat) : forall h, exists t1,
  continues_as w h t1
    (_find_jira_issue gh_issue true retries)
    (issue <- _create_jira_issue gh_issue ;; Done (Some issue)) /\
  count sleeps t1 = retries /\
  count searches t1 = S retries /\
  count creates_issue t1 = 0.
Proof.
  unfold continues_as.
  induction retries as [|n IH]; intros h; rewrite find_jira_issue_eq.
  - cbn [bind run]. rewrite search_finds_nothing. cbn [unwrap bind].
    rewrite run_bind.
    pose proof (manual_match_finds_nothing (h ++ [Jira_search_issues (jql_query (gh_html_url gh_issue))])%list) as Hm.
    pose proof (Never_run _ _ (manual_match_never_sleeps gh_issue) w (h ++ [Jira_search_issues (jql_query (gh_html_url gh_issue))])%list) as Hsl.
    pose proof (Never_run _ _ (manual_match_never_searches gh_issue) w (h ++ [Jira_search_issues (jql_query (gh_html_url gh_issue))])%list) as Hse.
    pose proof (Never_run _ _ (manual_match_never_creates gh_issue) w (h ++ [Jira_search_issues (jql_query (gh_html_url gh_issue))])%list) as Hcr.
    destruct (run w _ (manual_match gh_issue)) as [rm tm].
    unfold returned, trace in *; simpl in Hm, Hsl, Hse, Hcr. subst rm.
    cbn [negb].
    exists (Jira_search_issues (jql_query (gh_html_url gh_issue)) :: tm).
    split; [|rewrite !count_cons; simpl; lia].
    rewrite <- !app_assoc. cbn [app].
    match goal with
    | |- context [run w ?h' ?q] => destruct (run w h' q) as [r t2]
    end; reflexivity.
  - cbn [bind run]. rewrite search_finds_nothing. cbn [unwrap bind].
    rewrite run_bind.
    set (h1 := (h ++ [Jira_search_issues (jql_query (gh_html_url gh_issue))])%list).
    pose proof (manual_match_finds_nothing h1) as Hm.
    pose proof (Never_run _ _ (manual_match_never_sleeps gh_issue) w h1) as Hsl.
    pose proof (Never_run _ _ (manual_match_never_searches gh_issue) w h1) as Hse.
    pose proof (Never_run _ _ (manual_match_never_creates gh_issue) w h1) as Hcr.
    destruct (run w h1 (manual_match gh_issue)) as [rm tm].
    unfold returned, trace in *; simpl in Hm, Hsl, Hse, Hcr. subst rm.
    cbn [negb perform bind run].
    set (c1 := Random_randrange 30 60).
    set (c2 := Time_sleep _).
    destruct (IH (((h1 ++ tm) ++ [c1]) ++ [c2])%list) as (t1 & Hrun & H1 & H2 & H3).
    rewrite Hrun.
    exists (Jira_search_issues (jql_query (gh_html_url gh_issue)) :: tm ++ c1 :: c2 :: t1)%list.
    split.
    + subst h1. rewrite <- !app_assoc. cbn [app].
      match goal with
      | |- context [run w ?h' ?q] => destruct (run w h' q) as [r t2]
      end.
      rewrite <- !app_assoc. reflexivity || (cbn [app]; reflexivity).
    + rewrite !count_cons, !count_app, !count_cons. simpl. lia.
Qed.
End Exhausted.

Lemma run_bind_Ok {A B} (w : World) h (p : Prog A) (f : A -> Prog B) b t :
  run w h (bind p f) = (Ok b, t) ->
  exists a t1 t2,
    run w h p = (Ok a, t1) /\ run w (h ++ t1)%list (f a) = (Ok b, t2) /\
    t = (t1 ++ t2)%list.
Proof.
  rewrite run_bind. destruct (run w h p) as [[a|e] t1]; [|discriminate].
  destruct (run w (h ++ t1)%list (f a)) as [r t2] eqn:Hf.
  intros [= -> <-]. now exists a, t1, t2.
Qed.

Lemma create_jira_issue_never_creates_before gh :
  Never creates_issue
    (issuetype <- _get_jira_issue_type gh ;;
     issuetype <- match issuetype with
                  | Some t => Done t
                  | None =>
                      v <- perform (Os_environ_get "JIRA_ISSUE_TYPE") ;;
                      Done (IssueTypeName match v with Some s => s | None => "Task" end)
                  end ;;
     project <- os_environ "JIRA_PROJECT" ;;
     description <- _get_description gh ;;
     _update_components_field
       {| f_summary := Some (_get_summary gh);
          f_project := Some project;
          f_description := Some description;
          f_issuetype := Some issuetype;
          f_labels := Some (List.map _get_jira_label (gh_labels gh));
          f_components := None;
          f_customfield_12100 := None |} None).
Proof. never. Qed.

(** When [_create_jira_issue] returns an issue, that issue is the answer to
    the one [jira.create_issue] call it made. *)
Lemma create_jira_issue_creates (w : World) h gh issue t :
  run w h (_create_jira_issue gh) = (Ok issue, t) ->
  exists t0 fields t',
    t = (t0 ++ Jira_create_issue fields :: t')%list /\
    w (h ++ t0)%list (Jira_create_issue fields) = Ok issue /\
    count creates_issue t0 = 0 /\
    count creates_issue t' = 0.
Proof.
  intros Hrun.
  pose proof (Never_run _ _ (create_jira_issue_never_creates_before gh) w h) as Hpre.
  unfold _create_jira_issue in Hrun.
  apply run_bind_Ok in Hrun as (it & ta & t2 & Ha & Hrun & ->).
  apply run_bind_Ok in Hrun as (it' & tb & t3 & Hb & Hrun & ->).
  apply run_bind_Ok in Hrun as (project & tc & t4 & Hc & Hrun & ->).
  apply run_bind_Ok in Hrun as (description & td & t5 & Hd & Hrun & ->).
  apply run_bind_Ok in Hrun as (fields & te & t6 & He & Hrun & ->).
  rewrite run_bind, Ha in Hpre; cbv beta iota in Hpre.
  rewrite run_bind, Hb in Hpre; cbv beta iota in Hpre.
  rewrite run_bind, Hc in Hpre; cbv beta iota in Hpre.
  rewrite run_bind, Hd in Hpre; cbv beta iota in Hpre.
  rewrite He in Hpre. unfold trace in Hpre. cbn [snd] in Hpre.
  cbn [bind run] in Hrun.
  match type of Hrun with
  | context [w ?h' (Jira_create_issue fields)] =>
      destruct (w h' (Jira_create_issue fields)) as [created|e] eqn:Hw
  end; cbn [unwrap bind run] in Hrun.
  2:{ discriminate. }
  change (run w ?h' _) with (run w h' (after_create gh created)) in Hrun.
  match type of Hrun with
  | (let (_, _) := run w ?h' _ in _) = _ =>
      pose proof (Never_run _ _ (after_create_never_creates gh created) w h') as Hpost;
      destruct (run w h' (after_create gh created)) as [r t7] eqn:Hrest
  end.
  unfold trace in Hpost. cbn [snd] in Hpost.
  injection Hrun as -> <-.
  unfold after_create in Hrest.
  apply run_bind_Ok in Hrest as (u1 & t8 & t9 & _ & Hrest & ->).
  apply run_bind_Ok in Hrest as (u2 & t10 & t11 & _ & Hrest & ->).
  apply run_bind_Ok in Hrest as (u3 & t12 & t13 & _ & Hrest & ->).
  apply run_bind_Ok in Hrest as (u4 & t14 & t15 & _ & Hrest & ->).
  cbn [run] in Hrest. injection Hrest as -> <-.
  exists (ta ++ tb ++ tc ++ td ++ te)%list, fields.
  eexists. split; [|split; [|split]].
  - rewrite <- !app_assoc. reflexivity.
  - rewrite <- Hw. f_equal. now rewrite <- !app_assoc.
  - exact Hpre.
  - exact Hpost.
Qed.

(** ** Programs that go through *)

Lemma Succeeds_weaken {A} ok bad (P Q : A -> Prop) (p : Prog A) :
  (forall a, P a -> Q a) -> Succeeds ok bad P p -> Succeeds ok bad Q p.
Proof.
  intros HPQ. induction p as [a|e|c k IH]; cbn [Succeeds]; auto.
  intros [Hc Hk]. split; auto.
Qed.

Lemma Succeeds_bind {A B} ok bad (Q : A -> Prop) (P : B -> Prop)
    (p : Prog A) (f : A -> Prog B) :
  Succeeds ok bad Q p -> (forall a, Q a -> Succeeds ok bad P (f a)) ->
  Succeeds ok bad P (bind p f).
Proof.
  intros Hp Hf. induction p as [a|e|c k IH]; cbn [Succeeds bind] in *; auto.
  destruct Hp as [Hc Hk]. split; auto.
Qed.

(** A guarded block that raises nothing never reaches its handler. *)
Lemma Succeeds_try_except {A} ok bad (P : A -> Prop) (p : Prog A) cls handler :
  Succeeds ok bad P p -> Succeeds ok bad P (try_except p cls handler).
Proof.
  induction p as [a|e|c k IH]; cbn [Succeeds try_except]; auto; [contradiction|].
  intros [Hc Hk]. split; auto.
Qed.

Lemma Succeeds_for_each {X} ok bad (xs : list X) (body : X -> Prog unit) :
  (forall x, Succeeds ok bad (fun _ => True) (body x)) ->
  Succeeds ok bad (fun _ => True) (for_each xs body).
Proof.
  intros Hbody. induction xs as [|x xs IH]; cbn [for_each]; [exact I|].
  apply Succeeds_bind with (Q := fun _ => True); auto.
Qed.

(** In a world all of whose answers satisfy [ok], such a program returns. *)
Lemma Succeeds_run {A} ok bad (P : A -> Prop) (p : Prog A) (w : World) :
  (forall h c, ok c (w h c)) -> Succeeds ok bad P p ->
  forall h, exists a t, run w h p = (Ok a, t) /\ P a /\ count bad t = 0.
Proof.
  intros Hw. induction p as [a|e|c k IH]; cbn [Succeeds]; intros Hp h.
  - exists a, []. auto.
  - contradiction.
  - destruct Hp as [Hc Hk].
    destruct (IH (w h c) (Hk _ (Hw h c)) (h ++ [c])%list) as (a & t & Hrun & Ha & Ht).
    exists a, (c :: t). cbn [run]. rewrite Hrun.
    split; [reflexivity|]. split; [exact Ha|]. now rewrite count_cons, Hc.
Qed.

Lemma os_environ_project_succeeds bad :
  bad (Os_environ_get "JIRA_PROJECT") = false ->
  Succeeds creation_accepted bad (fun _ => True) (os_environ "JIRA_PROJECT").
Proof.
  intros Hbad. unfold os_environ, perform. cbn [bind Succeeds]. split; [exact Hbad|].
  intros [s|] Hset; cbn [Succeeds]; [exact I|]. now apply Hset.
Qed.

Ltac succeeds :=
  repeat first
    [ apply os_environ_project_succeeds; reflexivity
    | apply Succeeds_try_except
    | apply Succeeds_for_each; intros
    | apply Succeeds_bind with (Q := fun _ => True); [|intros ? _]
    | match goal with
      | |- Succeeds _ _ _ (Done _) => exact I
      | |- Succeeds _ _ _ (Do _ _) =>
          let a := fresh "a" in
          let Ha := fresh "Ha" in
          cbn [Succeeds]; split; [reflexivity|intros a Ha];
          cbn [creation_accepted] in Ha;
          try (match type of Ha with answers _ => destruct Ha as [? ->] end);
          cbn [unwrap]
      | |- Succeeds _ _ _ (match ?x with _ => _ end) => destruct x
      | |- Succeeds _ _ _ (if ?b then _ else _) => destruct b
      end ].

Lemma edit_title_loop_succeeds bad api j n :
  (forall a t, bad (Api_gh_issue_edit a t) = false) ->
  Succeeds creation_accepted bad (fun _ => True) (edit_title_loop api j n).
Proof.
  intros Hbad. destruct n; cbn [edit_title_loop];
    apply Succeeds_try_except; cbn [Succeeds]; (split; [apply Hbad|]);
    intros a [u ->]; exact I.
Qed.

(** With JIRA_PROJECT set and a tracker, a converter and a GitHub that raise
    nothing, [_create_jira_issue] returns, without sleeping or searching. *)
Lemma create_jira_issue_succeeds gh :
  Succeeds creation_accepted (fun c => sleeps c || searches c) (fun _ => True)
    (_create_jira_issue gh).
Proof.
  unfold _create_jira_issue, _get_jira_issue_type, _get_description, _markdown2wiki,
    _update_components_field, _add_remote_link, _update_github_with_jira_key,
    _update_link_resolved, perform.
  succeeds; try exact I; apply edit_title_loop_succeeds; reflexivity.
Qed.

Lemma count_orb_0 (p q : Call -> bool) (t : list Call) :
  count (fun c => p c || q c) t = 0 -> count p t = 0 /\ count q t = 0.
Proof.
  induction t as [|c t IH]; [auto|].
  rewrite !count_cons. destruct (p c), (q c); cbn; intros H; try discriminate; auto.
Qed.

(** C3.  With [make_new] set, in a world where the remote-link search and the
    manual-match fallback find nothing on every attempt, and where the calls
    of the creation are answered without an exception (JIRA_PROJECT being
    set), [_find_jira_issue] makes exactly 5 sleep-and-retry rounds (6
    searches, 5 sleeps), creates nothing during them, then creates one issue
    with [jira.create_issue] and returns it; it sleeps and searches no more
    after the rounds. *)
Theorem find_jira_issue_creates_after_five_retries (w : World) (gh_issue : GhIssue) :
  (forall h jql, w h (Jira_search_issues jql) = Ok []) ->
  (forall h, returned (run w h (manual_match gh_issue)) = Ok None) ->
  (forall h c, creation_accepted c (w h c)) ->
  forall h, exists t1 t0 fields t2 issue,
    run w h (_find_jira_issue gh_issue true default_retries)
      = (Ok (Some issue), (t1 ++ t0 ++ Jira_create_issue fields :: t2)%list) /\
    w (h ++ t1 ++ t0)%list (Jira_create_issue fields) = Ok issue /\
    continues_as w h t1
      (_find_jira_issue gh_issue true default_retries)
      (issue <- _create_jira_issue gh_issue ;; Done (Some issue)) /\
    count sleeps t1 = 5 /\
    count searches t1 = 6 /\
    count creates_issue (t1 ++ t0)%list = 0 /\
    count creates_issue t2 = 0 /\
    count sleeps (t0 ++ Jira_create_issue fields :: t2)%list = 0 /\
    count searches (t0 ++ Jira_create_issue fields :: t2)%list = 0.
Proof.
  intros Hsearch Hmanual Haccepted h.
  destruct (find_jira_issue_exhausts w gh_issue Hsearch Hmanual default_retries h)
    as (t1 & Hrun & Hsl & Hse & Hcr).
  destruct (Succeeds_run _ _ _ _ w Haccepted (create_jira_issue_succeeds gh_issue)
              (h ++ t1)%list) as (issue & t & Hcreate & _ & Hquiet).
  apply count_orb_0 in Hquiet as [Hsl' Hse'].
  destruct (create_jira_issue_creates _ _ _ _ _ Hcreate)
    as (t0 & fields & t2 & -> & Hw & H0 & H2).
  exists t1, t0, fields, t2, issue.
  split; [|split; [|split; [exact Hrun|]]].
  - unfold continues_as in Hrun. rewrite Hrun, run_bind, Hcreate.
    cbn [run]. now rewrite app_nil_r.
  - rewrite <- Hw. f_equal. now rewrite app_assoc.
  - rewrite count_app. repeat split; trivial. lia.
Qed.

Lemma find_jira_issue_creates_after_five_retries_witness :
  let w := Scenario.world Scenario.fresh in
  (forall h jql, w h (Jira_search_issues jql) = Ok []) /\
  (forall h, returned (run w h (manual_match Scenario.gh42)) = Ok None) /\
  (forall h c, creation_accepted c (w h c)) /\
  returned (run w [] (_find_jira_issue Scenario.gh42 true default_retries))
    = Ok (Some Scenario.new101) /\
  exists t1 t0 fields t2 issue,
    run w [] (_find_jira_issue Scenario.gh42 true default_retries)
      = (Ok (Some issue), (t1 ++ t0 ++ Jira_create_issue fields :: t2)%list) /\
    w ([] ++ t1 ++ t0)%list (Jira_create_issue fields) = Ok issue /\
    continues_as w [] t1
      (_find_jira_issue Scenario.gh42 true default_retries)
      (issue <- _create_jira_issue Scenario.gh42 ;; Done (Some issue)) /\
    count sleeps t1 = 5 /\
    count searches t1 = 6 /\
    count creates_issue (t1 ++ t0)%list = 0 /\
    count creates_issue t2 = 0 /\
    count sleeps (t0 ++ Jira_create_issue fields :: t2)%list = 0 /\
    count searches (t0 ++ Jira_create_issue fields :: t2)%list = 0.
Proof.
  assert (Haccepted : forall h c,
            creation_accepted c (Scenario.world Scenario.fresh h c)).
  { intros h c. destruct c; cbn; trivial; try (eexists; reflexivity).
    intros ->. discriminate. }
  split; [|split; [|split; [|split]]].
  - intros h jql. reflexivity.
  - intros h. reflexivity.
  - exact Haccepted.
  - reflexivity.
  - apply (find_jira_issue_creates_after_five_retries
             (Scenario.world Scenario.fresh) Scenario.gh42).
    + intros h jql. reflexivity.
    + intros h. reflexivity.
    + exact Haccepted.
Defined.

(** Case analysis of a run recorded in [H]: every answer of the world and
    every branch of the program is split. *)
Ltac run_cases H w :=
  repeat (cbn [run bind unwrap try_except fst snd negb perform not_None
               returned trace exn_eqb] in H;
          try discriminate;
          first
            [ match type of H with
              | context [w ?h ?c] => destruct (w h c) eqn:?
              end
            | match type of H with
              | context [match ?x with _ => _ end] =>
                  tryif (match x with context [run _ _ _] => idtac end) then fail
                  else destruct x eqn:?
              end ]).

(** The only way for the manual-match block to return an issue. *)
Lemma manual_match_found (w : World) h gh issue t :
  run w h (manual_match gh) = (Ok (Some issue), t) ->
  exists key description,
    Re.search_key (gh_title gh) = Some key /\
    w h (Jira_issue key) = Ok issue /\
    ji_description issue = Some description /\
    contains (gh_html_url gh) description = true /\
    t = [Jira_issue key;
         Jira_add_remote_link issue (gh_html_url gh) (gh_title gh)
           (gh_html_url gh) "synced from"].
Proof.
  intros H.
  unfold manual_match, _add_remote_link, jira_dot_exceptions_JIRAError,
    the_JIRAError in H.
  run_cases H w.
  injection H as <- <-. eauto 10.
Qed.

(** With [make_new] unset, resolution returns an issue in two ways only:
    the remote-link search lists it first, or the manual-match block finds
    it and registers the remote link. *)
Lemma find_jira_issue_found (w : World) h gh retries issue t :
  run w h (_find_jira_issue gh false retries) = (Ok (Some issue), t) ->
  let search := Jira_search_issues (jql_query (gh_html_url gh)) in
  (exists rest, w h search = Ok (issue :: rest) /\ t = [search]) \/
  (w h search = Ok [] /\
   exists key,
     Re.search_key (gh_title gh) = Some key /\
     t = [search; Jira_issue key;
          Jira_add_remote_link issue (gh_html_url gh) (gh_title gh)
            (gh_html_url gh) "synced from"]).
Proof.
  intros H search. rewrite find_jira_issue_eq in H. cbn [bind run] in H.
  fold search in H.
  destruct (w h search) as [[|first rest]|e] eqn:Hs; cbn [unwrap bind run] in H.
  - right. split; trivial.
    rewrite run_bind in H.
    destruct (run w (h ++ [search])%list (manual_match gh)) as [[[i|]|e] tm] eqn:Hm;
      cbn [negb run] in H; try discriminate.
    injection H as -> <-.
    apply manual_match_found in Hm as (key & d & Hk & _ & _ & _ & ->).
    exists key. split; trivial.
  - left. injection H as -> <-. now exists rest.
  - discriminate.
Qed.

(** ** Opened *)

(** C1 (as amended).  When identity resolution with creation disabled finds
    the target issue, the Opened handler returns without creating anything.
    If the remote-link search found the issue, the search is the only call
    made, so nothing in the tracker changes; if the manual-match fallback
    found it, the calls are the search, the fetch of the issue named in the
    title, and the registration of the remote link on that issue - the one
    change made. *)
Theorem opened_creates_nothing_when_found (w : World) (h : list Call)
    (event : Event) (issue : JiraIssue) :
  returned (run w h (_find_jira_issue (ev_issue event) false default_retries))
    = Ok (Some issue) ->
  let gh_issue := ev_issue event in
  let search := Jira_search_issues (jql_query (gh_html_url gh_issue)) in
  let t := trace (run w h (handle_issue_opened event)) in
  returned (run w h (handle_issue_opened event)) = Ok tt /\
  count creates_issue t = 0 /\
  ((exists rest, w h search = Ok (issue :: rest) /\ t = [search] /\ count mutates t = 0) \/
   (w h search = Ok [] /\
    exists key,
      Re.search_key (gh_title gh_issue) = Some key /\
      t = [search; Jira_issue key;
           Jira_add_remote_link issue (gh_html_url gh_issue) (gh_title gh_issue)
             (gh_html_url gh_issue) "synced from"] /\
      count mutates t = 1)).
Proof.
  intros Hfound. cbv zeta.
  unfold handle_issue_opened. rewrite run_bind.
  destruct (run w h (_find_jira_issue (ev_issue event) false default_retries))
    as [r t] eqn:Hrun.
  unfold returned in Hfound. cbn [fst] in Hfound. subst r.
  cbn [run returned trace fst snd]. rewrite app_nil_r.
  apply find_jira_issue_found in Hrun as [(rest & Hs & ->)|(Hs & key & Hk & ->)].
  - split; [reflexivity|]. split; [reflexivity|]. left. now exists rest.
  - split; [reflexivity|]. split; [reflexivity|]. right. split; trivial.
    exists key. repeat split; trivial.
Qed.

Lemma opened_creates_nothing_when_found_witness :
  let w := Scenario.world Scenario.hand_synced in
  let event := Scenario.event_of Scenario.gh42_keyed "bug" in
  let issue := Scenario.proj101 in
  returned (run w [] (_find_jira_issue (ev_issue event) false default_retries))
    = Ok (Some issue) /\
  let gh_issue := ev_issue event in
  let search := Jira_search_issues (jql_query (gh_html_url gh_issue)) in
  let t := trace (run w [] (handle_issue_opened event)) in
  returned (run w [] (handle_issue_opened event)) = Ok tt /\
  count creates_issue t = 0 /\
  ((exists rest, w [] search = Ok (issue :: rest) /\ t = [search] /\ count mutates t = 0) \/
   (w [] search = Ok [] /\
    exists key,
      Re.search_key (gh_title gh_issue) = Some key /\
      t = [search; Jira_issue key;
           Jira_add_remote_link issue (gh_html_url gh_issue) (gh_title gh_issue)
             (gh_html_url gh_issue) "synced from"] /\
      count mutates t = 1)).
Proof.
  split; [reflexivity|].
  apply (opened_creates_nothing_when_found
           (Scenario.world Scenario.hand_synced) []
           (Scenario.event_of Scenario.gh42_keyed "bug") Scenario.proj101).
  reflexivity.
Defined.

(** C1 (as stated) fails: the title of issue #42 ends in "(PROJ-101)", the
    tracker holds PROJ-101 with the GitHub URL in its description and no
    remote link.  Resolution with creation disabled finds PROJ-101, and the
    Opened handler has changed the tracker: it added a remote link. *)
Lemma opened_mutates_when_found_by_title :
  let w := Scenario.world Scenario.hand_synced in
  let event := Scenario.event_of Scenario.gh42_keyed "bug" in
  returned (run w [] (_find_jira_issue (ev_issue event) false default_retries))
    = Ok (Some Scenario.proj101) /\
  run w [] (handle_issue_opened event) =
    (Ok tt,
     [Jira_search_issues (jql_query Scenario.url42);
      Jira_issue "PROJ-101";
      Jira_add_remote_link Scenario.proj101 Scenario.url42
        "Crash on boot (PROJ-101)" Scenario.url42 "synced from"]) /\
  count mutates (trace (run w [] (handle_issue_opened event))) = 1 /\
  ~ (forall c, In c (trace (run w [] (handle_issue_opened event))) -> mutates c = false).
Proof.
  cbv zeta. split; [reflexivity|]. split; [reflexivity|]. split; [reflexivity|].
  intros Hnone.
  specialize (Hnone (Jira_add_remote_link Scenario.proj101 Scenario.url42
                       "Crash on boot (PROJ-101)" Scenario.url42 "synced from")).
  discriminate Hnone. vm_compute. auto.
Qed.

(** ** Closed and Reopened *)

(** What the Closed handler does once resolution has returned [None]:
    [issue.update] is called on [None]. *)
Lemma closed_without_target_raises (w : World) (h : list Call) (event : Event) :
  returned (run w h (_find_jira_issue (ev_issue event) false default_retries)) = Ok None ->
  run w h (handle_issue_closed event) =
    (Err AttributeError,
     trace (run w h (_find_jira_issue (ev_issue event) false default_retries))).
Proof.
  intros Hnone. unfold handle_issue_closed, _leave_jira_issue_comment.
  rewrite !run_bind.
  destruct (run w h (_find_jira_issue (ev_issue event) false default_retries)) as [r t].
  unfold returned in Hnone. cbn [fst] in Hnone. subst r.
  cbn [run trace snd]. rewrite run_bind, run_try_except. cbn. now rewrite !app_nil_r.
Qed.

(** C2.  Issue #42 is closed and the tracker holds no issue for it:
    resolution with creation disabled returns [None], and the Closed handler
    ends with [AttributeError] (raised by [issue.update] on [None], which
    [except JIRAError] does not catch) before it reaches its
    [if issue is not None] test. *)
Theorem closed_without_target_is_an_error :
  let w := Scenario.world Scenario.fresh in
  let event := Scenario.event_of Scenario.gh42 "bug" in
  returned (run w [] (_find_jira_issue (ev_issue event) false default_retries)) = Ok None /\
  run w [] (handle_issue_closed event) =
    (Err AttributeError, [Jira_search_issues (jql_query Scenario.url42)]).
Proof. split; reflexivity. Qed.

Lemma run_bind_assoc {A B C} (w : World) (p : Prog A) (f : A -> Prog B)
    (g : B -> Prog C) : forall h,
  run w h (bind (bind p f) g) = run w h (bind p (fun a => bind (f a) g)).
Proof.
  induction p as [a|e|c k IH]; intros h; trivial.
  cbn [bind run]. now rewrite IH.
Qed.

Lemma run_bind_ext {A B} (w : World) (p : Prog A) (f g : A -> Prog B) :
  (forall a h, run w h (f a) = run w h (g a)) ->
  forall h, run w h (bind p f) = run w h (bind p g).
Proof.
  intros Hfg h. rewrite !run_bind.
  destruct (run w h p) as [[a|e] t]; trivial. now rewrite Hfg.
Qed.





(** ** Summary *)

Example summary_of_issue_42 : _get_summary Scenario.gh42 = "GH #42: Crash on boot".
Proof. reflexivity. Qed.

(** The key appended to the GitHub title does not reach the summary. *)
Example summary_of_keyed_issue_42 :
  _get_summary Scenario.gh42_keyed = "GH #42: Crash on boot".
Proof. reflexivity. Qed.

Example sub_slug_everywhere :
  Re.sub_slug "GH #1: (A-1) fix (ABC-12) crash (x_y-3)" = "GH #1: fix crash".
Proof. reflexivity. Qed.

Example sub_slug_needs_digits : Re.sub_slug "a (ABC-x) b (ABC-) c" = "a (ABC-x) b (ABC-) c".
Proof. reflexivity. Qed.

Example search_key_trailing :
  Re.search_key ("Crash (x) on boot (PROJ-101) " ++ nl) = Some "PROJ-101".
Proof. reflexivity. Qed.

Example search_key_not_trailing : Re.search_key "Crash (PROJ-101) on boot" = None.
Proof. reflexivity. Qed.

Example search_key_upper_case_only : Re.search_key "Crash on boot (proj-101)" = None.
Proof. reflexivity. Qed.

Lemma append_assoc (a b c : string) : (a ++ b) ++ c = a ++ (b ++ c).
Proof. induction a; simpl; congruence. Qed.

Lemma forallb_append p (a b : string) :
  forallb p (a ++ b) = forallb p a && forallb p b.
Proof. induction a; simpl; trivial. now rewrite IHa, andb_assoc. Qed.

(** [span] cuts where the class ends. *)
Lemma span_spec p s a b :
  span p s = (a, b) ->
  s = a ++ b /\ forallb p a = true /\
  match b with EmptyString => True | String c _ => p c = false end.
Proof.
  revert a b; induction s as [|c s IH]; simpl; intros a b.
  - intros [= <- <-]. auto.
  - destruct (p c) eqn:Hc.
    + destruct (span p s) as [a' b'] eqn:Hs. intros [= <- <-].
      destruct (IH a' b' eq_refl) as (-> & Ha & Hb). simpl. rewrite Hc. auto.
    + intros [= <- <-]. simpl. rewrite Hc. auto.
Qed.

Lemma span_append p a b :
  forallb p a = true ->
  match b with EmptyString => True | String c _ => p c = false end ->
  span p (a ++ b) = (a, b).
Proof.
  intros Ha Hb. induction a as [|c a IH]; simpl in *.
  - destruct b as [|c b]; simpl; trivial. now rewrite Hb.
  - apply andb_true_iff in Ha as [-> Ha]. now rewrite IH.
Qed.

(** The matcher finds exactly the slugs: soundness. *)
Lemma match_slug_sound s rest :
  Re.match_slug s = Some rest -> exists slug, Slug slug /\ s = slug ++ rest.
Proof.
  unfold Re.match_slug.
  destruct s as [|a s]; try discriminate.
  destruct (Ascii.eqb_spec a " ") as [->|Ha].
  2:{ destruct a as [[] [] [] [] [] [] [] []]; try discriminate. now contradiction Ha. }
  destruct s as [|b s1]; try discriminate.
  destruct (Ascii.eqb_spec b "(") as [->|Hb].
  2:{ destruct b as [[] [] [] [] [] [] [] []]; try discriminate. now contradiction Hb. }
  destruct (span is_word s1) as [w s2] eqn:Hw.
  apply span_spec in Hw as (-> & Hw & _).
  destruct (nonempty w) eqn:Hnw; try discriminate.
  destruct s2 as [|c s3]; try discriminate.
  destruct (Ascii.eqb_spec c "-") as [->|Hc].
  2:{ destruct c as [[] [] [] [] [] [] [] []]; try discriminate. now contradiction Hc. }
  destruct (span is_digit s3) as [d s4] eqn:Hd.
  apply span_spec in Hd as (-> & Hd & _).
  destruct (nonempty d) eqn:Hnd; try discriminate.
  destruct s4 as [|e r]; try discriminate.
  destruct (Ascii.eqb_spec e ")") as [->|He].
  2:{ destruct e as [[] [] [] [] [] [] [] []]; try discriminate. now contradiction He. }
  intros [= <-].
  exists (" (" ++ w ++ "-" ++ d ++ ")"). split; [now constructor|].
  simpl. repeat (rewrite append_assoc; simpl). reflexivity.
Qed.

(** The matcher finds exactly the slugs: completeness. *)
Lemma match_slug_complete slug rest :
  Slug slug -> Re.match_slug (slug ++ rest) = Some rest.
Proof.
  intros [w d Hnw Hw Hnd Hd].
  unfold Re.match_slug. simpl. repeat (rewrite append_assoc; simpl).
  rewrite (span_append is_word w) by (trivial; reflexivity).
  rewrite Hnw.
  rewrite (span_append is_digit d) by (trivial; reflexivity).
  now rewrite Hnd.
Qed.

Lemma sub_slug_Stripped (s : string) : Stripped s (Re.sub_slug s).
Proof.
  funelim (Re.sub_slug s).
  - destruct (match_slug_sound _ _ e) as (slug & Hslug & Hs).
    rewrite Hs. now constructor.
  - constructor.
  - constructor; trivial.
    intros slug rest Hslug Heq.
    pose proof (match_slug_complete slug rest Hslug) as Hm.
    rewrite <- Heq in Hm. congruence.
Qed.

Lemma match_slug_no_paren s :
  forallb no_paren s = true -> Re.match_slug s = None.
Proof.
  intros Hs. destruct (Re.match_slug s) as [rest|] eqn:Hm; trivial.
  apply match_slug_sound in Hm as (slug & [w d _ _ _ _] & ->).
  simpl in Hs. discriminate.
Qed.

Lemma sub_slug_no_paren s : forallb no_paren s = true -> Re.sub_slug s = s.
Proof.
  funelim (Re.sub_slug s); intros Hs.
  - pose proof (match_slug_no_paren _ Hs) as Hnone. congruence.
  - reflexivity.
  - simpl in Hs. apply andb_true_iff in Hs as [_ Hs]. f_equal. auto.
Qed.

Lemma string_of_uint_no_paren d :
  forallb no_paren (NilEmpty.string_of_uint d) = true.
Proof. induction d; simpl; trivial. Qed.

Lemma of_N_no_paren n : forallb no_paren (of_N n) = true.
Proof.
  unfold of_N, NilZero.string_of_uint.
  destruct (N.to_uint n); trivial; apply (string_of_uint_no_paren (_ _)).
Qed.

Lemma summary_prefix_no_paren gh : forallb no_paren (summary_prefix gh) = true.
Proof.
  unfold summary_prefix. rewrite !forallb_append, of_N_no_paren.
  now destruct (gh_pull_request gh).
Qed.

Lemma get_summary_eq gh :
  _get_summary gh = Re.sub_slug (summary_prefix gh ++ gh_title gh).
Proof.
  unfold _get_summary, summary_prefix. now rewrite !append_assoc.
Qed.

(** C6 (as amended).  The summary is "{PR|GH} #{number}: {title}" read from
    the left with every space-and-parenthesised key-like token "(word-digits)"
    left out, wherever it stands - in the middle of the title as well as at
    its end - and every other character kept; a title without an opening
    parenthesis is reproduced unchanged.  A word is a run of word characters
    (letters, digits and the underscore, as [\w] has them), the digits are a
    run of decimal digits. *)
Theorem get_summary_strips_every_slug (gh_issue : GhIssue) :
  Stripped (summary_prefix gh_issue ++ gh_title gh_issue) (_get_summary gh_issue) /\
  (forallb no_paren (gh_title gh_issue) = true ->
   _get_summary gh_issue = summary_prefix gh_issue ++ gh_title gh_issue).
Proof.
  rewrite get_summary_eq. split; [apply sub_slug_Stripped|].
  intros Htitle. apply sub_slug_no_paren.
  now rewrite forallb_append, summary_prefix_no_paren.
Qed.

Lemma get_summary_strips_every_slug_witness :
  (forallb no_paren (gh_title Scenario.gh42) = true /\
   _get_summary Scenario.gh42 = summary_prefix Scenario.gh42 ++ gh_title Scenario.gh42) /\
  (gh_title Scenario.gh8 = "Fix (caf" ++ String "233" "-12) crash (PROJ-9)" /\
   _get_summary Scenario.gh8 = "GH #8: Fix crash" /\
   Stripped (summary_prefix Scenario.gh8 ++ gh_title Scenario.gh8) "GH #8: Fix crash").
Proof.
  split; [split; [reflexivity|]|split; [reflexivity|split; [reflexivity|]]].
  - apply (get_summary_strips_every_slug Scenario.gh42). reflexivity.
  - assert (Hsum : _get_summary Scenario.gh8 = "GH #8: Fix crash") by reflexivity.
    rewrite <- Hsum. apply (get_summary_strips_every_slug Scenario.gh8).
Defined.

(** C6 (as stated) fails: in "Fix (ABC-12) crash" the key-like token is not
    a trailing suffix, so the summary should reproduce the title; the code
    leaves the token out. *)
Lemma get_summary_strips_inner_slug :
  summary_as_specified Scenario.gh7 = "GH #7: Fix (ABC-12) crash" /\
  _get_summary Scenario.gh7 = "GH #7: Fix crash" /\
  _get_summary Scenario.gh7 <> summary_as_specified Scenario.gh7.
Proof.
  split; [reflexivity|]. split; [reflexivity|].
  intros H. discriminate H.
Qed.

(** ** Components *)

(** Inside the loop [component.name != component] is always true: every
    existing component is kept, whatever its name. *)
Lemma keep_existing_components_eq (components : list string) (existing : list Component) :
  keep_existing_components components existing
  = (components ++ List.map comp_name existing)%list.
Proof.
  unfold keep_existing_components.
  revert components; induction existing as [|c cs IH]; intros components; simpl.
  - now rewrite app_nil_r.
  - rewrite IH, <- app_assoc. reflexivity.
Qed.

(** C4.  JIRA_COMPONENT is "Core", the project has the component "Core" and
    the existing issue PROJ-101 already carries it: the computed components
    field lists "Core" twice. *)
Theorem update_components_field_duplicates :
  let w := Scenario.world Scenario.synced in
  w [] (Os_environ_get "JIRA_COMPONENT") = Some "Core" /\
  List.map comp_name (ji_components Scenario.proj101) = ["Core"] /\
  run w [] (_update_components_field no_fields (Some Scenario.proj101)) =
    (Ok (set_components no_fields ["Core"; "Core"]),
     [Os_environ_get "JIRA_COMPONENT"; Jira_project "PROJ";
      Jira_project_components {| pr_key := "PROJ" |}]) /\
  ~ NoDup ["Core"; "Core"].
Proof.
  cbv zeta. repeat split; try reflexivity.
  intros H. inversion H as [|x l Hin _]. apply Hin. now left.
Qed.

(** ** The manual-match fallback *)

(** What the [except] clause does when its class expression does denote
    [JIRAError]: the failed fetch is swallowed. *)
Lemma manual_match_swallows_if_class_resolves (w : World) h gh key :
  Re.search_key (gh_title gh) = Some key ->
  w h (Jira_issue key) = Err JIRAError ->
  w (h ++ [Jira_issue key])%list Jira_exceptions_JIRAError = Ok (ExceptionClass JIRAError) ->
  run w h (manual_match gh) = (Ok None, [Jira_issue key; Jira_exceptions_JIRAError]).
Proof.
  intros Hkey Hfetch Hcls. unfold manual_match. rewrite Hkey.
  cbn [bind try_except run]. rewrite Hfetch.
  cbn [unwrap bind try_except run jira_dot_exceptions_JIRAError]. rewrite Hcls.
  reflexivity.
Qed.

(** C8.  The title of issue #42 ends in "(PROJ-101)" and fetching PROJ-101
    raises [JIRAError].  The [except] clause names [jira.exceptions.JIRAError],
    and [jira] is the client object passed to the function.  With a plain
    client, which has no attribute [exceptions], resolution ends with
    [AttributeError]; with the mock client of the tests it ends with
    [TypeError].  Either way the error of the fetch is not swallowed and
    resolution does not reach its not-found branch. *)
Theorem manual_match_error_escapes :
  let search := Jira_search_issues (jql_query Scenario.url42) in
  Scenario.world Scenario.fresh [search] (Jira_issue "PROJ-101") = Err JIRAError /\
  run (Scenario.world Scenario.fresh) []
      (_find_jira_issue Scenario.gh42_keyed false default_retries) =
    (Err AttributeError, [search; Jira_issue "PROJ-101"; Jira_exceptions_JIRAError]) /\
  run (Scenario.world Scenario.mocked) []
      (_find_jira_issue Scenario.gh42_keyed false default_retries) =
    (Err TypeError, [search; Jira_issue "PROJ-101"; Jira_exceptions_JIRAError]).
Proof. cbv zeta. repeat split; reflexivity. Qed.

(** ** Comments *)

(** The loop over the target comments followed by the [if not found] test
    amounts to: compute the new body, then update the first comment whose
    body is the old fingerprint, or add a comment when there is none. *)
Lemma update_old_comment_run (w : World) gh_comment old_jira_body issue_id comments :
  forall h,
  run w h
    (found <- update_old_comment gh_comment old_jira_body comments ;;
     if negb found
     then body <- _get_jira_comment_body gh_comment None ;;
          call (Jira_add_comment issue_id body)
     else Done tt)
  =
  run w h
    (body <- _get_jira_comment_body gh_comment None ;;
     match List.find (fun c => String.eqb (jc_body c) old_jira_body) comments with
     | Some comment => call (Comment_update comment body)
     | None => call (Jira_add_comment issue_id body)
     end).
Proof.
  induction comments as [|comment rest IH]; intros h.
  - reflexivity.
  - cbn [update_old_comment List.find].
    destruct (String.eqb (jc_body comment) old_jira_body); [|apply IH].
    rewrite run_bind_assoc. apply run_bind_ext. intros body h'.
    cbn [bind run]. destruct (w h' _) as [[]|e]; reflexivity.
Qed.

(** The manual-match block fetches one issue, may register one remote link
    and may look up the exception class; it makes no other call. *)
Lemma manual_match_calls bad gh :
  (forall key, bad (Jira_issue key) = false) ->
  (forall i u t g r, bad (Jira_add_remote_link i u t g r) = false) ->
  bad Jira_exceptions_JIRAError = false ->
  Never bad (manual_match gh).
Proof. intros H1 H2 H3. never_auto. Qed.

Lemma create_jira_issue_never_comments gh : Never comment_action (_create_jira_issue gh).
Proof. never; apply edit_title_loop_never; auto. Qed.

Lemma find_jira_issue_never_comments gh make_new retries :
  Never comment_action (_find_jira_issue gh make_new retries).
Proof.
  revert make_new; induction retries as [|n IH]; intros make_new;
    rewrite find_jira_issue_eq;
    (apply Never_Do; [reflexivity|intros [[|first rest]|e]]; cbn [unwrap bind];
     try constructor);
    (apply Never_bind; [apply manual_match_calls; auto|]);
    (intros [issue|]; [constructor|]);
    (destruct make_new; cbn [negb]; [|constructor]).
  - apply Never_bind; [apply create_jira_issue_never_comments|constructor].
  - apply Never_Do; [reflexivity|intros z].
    apply Never_Do; [reflexivity|intros u]. apply IH.
Qed.

Lemma get_jira_comment_body_never_comments gh_comment body :
  Never comment_action (_get_jira_comment_body gh_comment body).
Proof. unfold _get_jira_comment_body. never. Qed.

Lemma markdown2wiki_never_comments markdown : Never comment_action (_markdown2wiki markdown).
Proof. never. Qed.

Lemma count_of_run bad {A} (p : Prog A) (w : World) h r t :
  Never bad p -> run w h p = (r, t) -> count bad t = 0.
Proof. intros Hp Hrun. pose proof (Never_run _ _ Hp w h) as H. now rewrite Hrun in H. Qed.

(** Once the old body is converted, the target issue resolved and its
    comments listed, what is left of the handler is: compute the body for the
    comment as it is now, then update the first target comment whose body is
    the old fingerprint, or add a comment when there is none. *)
Lemma comment_edited_continues (w : World) (h : list Call) (event : Event)
    (old_gh_body : string) (t0 : list Call) (jira_issue : JiraIssue)
    (t1 : list Call) (comments : list JiraComment) :
  run w h (_markdown2wiki (ev_changes_body_from event)) = (Ok old_gh_body, t0) ->
  run w (h ++ t0)%list (_find_jira_issue (ev_issue event) true default_retries)
    = (Ok (Some jira_issue), t1) ->
  w (h ++ t0 ++ t1)%list (Jira_comments (ji_key jira_issue)) = Ok comments ->
  let gh_comment := ev_comment event in
  let old_fingerprint := comment_head gh_comment ++ old_gh_body in
  continues_as w h (t0 ++ t1 ++ [Jira_comments (ji_key jira_issue)])%list
    (handle_comment_edited event)
    (new_fingerprint <- _get_jira_comment_body gh_comment None ;;
     match List.find (fun c => String.eqb (jc_body c) old_fingerprint) comments with
     | Some comment => call (Comment_update comment new_fingerprint)
     | None => call (Jira_add_comment (ji_id jira_issue) new_fingerprint)
     end).
Proof.
  intros Hold Hfind Hcomments gh_comment old_fingerprint.
  unfold continues_as, handle_comment_edited.
  rewrite run_bind, Hold. rewrite run_bind, Hfind.
  change (_get_jira_comment_body (ev_comment event) (Some old_gh_body))
    with (Done (A:=string) old_fingerprint).
  cbn [not_None bind run].
  rewrite <- !app_assoc, Hcomments. cbn [unwrap bind].
  fold gh_comment.
  rewrite update_old_comment_run.
  match goal with
  | |- context [run w ?h' ?q] => destruct (run w h' q) as [r t2]
  end.
  now rewrite <- !app_assoc.
Qed.

(** C7.  On a comment-edited event, let the old body be converted to
    [old_gh_body], the target issue be resolved, its comments be listed, and
    the body of the comment as it is now be converted to [new_gh_body].  The
    fingerprint of a body is the line "[GitHub issue comment|url] by
    @author:", an empty line, and the converted body.  No comment is added or
    rewritten during those steps, and the handler ends with one more call:
    if some listed comment's body equals the fingerprint of the old body, the
    first such comment is updated with the fingerprint of the new body (and
    no comment is added); otherwise a comment with the fingerprint of the new
    body is added.  The outcome of that call is the outcome of the handler. *)
Theorem comment_edited_updates_or_appends (w : World) (h : list Call) (event : Event)
    (old_gh_body : string) (t0 : list Call) (jira_issue : JiraIssue)
    (t1 : list Call) (comments : list JiraComment)
    (new_gh_body : string) (t2 : list Call) :
  let gh_comment := ev_comment event in
  let listed := (t0 ++ t1 ++ [Jira_comments (ji_key jira_issue)])%list in
  run w h (_markdown2wiki (ev_changes_body_from event)) = (Ok old_gh_body, t0) ->
  run w (h ++ t0)%list (_find_jira_issue (ev_issue event) true default_retries)
    = (Ok (Some jira_issue), t1) ->
  w (h ++ t0 ++ t1)%list (Jira_comments (ji_key jira_issue)) = Ok comments ->
  run w (h ++ listed)%list (_markdown2wiki (cm_body gh_comment)) = (Ok new_gh_body, t2) ->
  let fingerprint body :=
    "[GitHub issue comment|" ++ cm_html_url gh_comment ++ "] by @"
    ++ cm_user_login gh_comment ++ ":" ++ nl ++ nl ++ body in
  let matches (c : JiraComment) := String.eqb (jc_body c) (fingerprint old_gh_body) in
  count comment_action (listed ++ t2)%list = 0 /\
  (forall comment, List.find matches comments = Some comment ->
     let update := Comment_update comment (fingerprint new_gh_body) in
     run w h (handle_comment_edited event)
       = (w (h ++ listed ++ t2)%list update, (listed ++ t2 ++ [update])%list)) /\
  (List.find matches comments = None ->
     let add := Jira_add_comment (ji_id jira_issue) (fingerprint new_gh_body) in
     run w h (handle_comment_edited event)
       = (w (h ++ listed ++ t2)%list add, (listed ++ t2 ++ [add])%list)).
Proof.
  intros gh_comment listed Hold Hfind Hcomments Hnew fingerprint matches.
  pose proof (comment_edited_continues w h event old_gh_body t0 jira_issue t1 comments
                Hold Hfind Hcomments) as Hrun.
  cbv zeta in Hrun. unfold continues_as in Hrun. fold gh_comment listed in Hrun.
  assert (Hhead : forall body, comment_head gh_comment ++ body = fingerprint body).
  { intros body. unfold comment_head, fingerprint.
    now repeat (rewrite append_assoc; cbn [append]). }
  rewrite Hhead in Hrun. fold matches in Hrun.
  unfold _get_jira_comment_body in Hrun.
  rewrite run_bind_assoc, run_bind, Hnew in Hrun. cbn [bind] in Hrun.
  rewrite Hhead in Hrun.
  split; [|split].
  - unfold listed. rewrite !count_app, count_cons. cbn [comment_action].
    rewrite (count_of_run _ _ _ _ _ _ (markdown2wiki_never_comments _) Hold).
    rewrite (count_of_run _ _ _ _ _ _ (find_jira_issue_never_comments _ _ _) Hfind).
    rewrite (count_of_run _ _ _ _ _ _ (markdown2wiki_never_comments _) Hnew).
    change (count comment_action []) with 0. lia.
  - intros comment Hsome update. rewrite Hrun, Hsome. cbn [run].
    rewrite <- !app_assoc.
    unfold update. destruct (w _ (Comment_update _ _)) as [[]|e]; reflexivity.
  - intros Hnone add. rewrite Hrun, Hnone. cbn [run].
    rewrite <- !app_assoc.
    unfold add. destruct (w _ (Jira_add_comment _ _)) as [[]|e]; reflexivity.
Qed.

Lemma comment_edited_updates_or_appends_witness :
  let w := Scenario.world Scenario.synced in
  let event := Scenario.event_of Scenario.gh42 "bug" in
  let drifted :=
    {| ev_issue := Scenario.gh42; ev_label := {| lbl_name := "bug" |};
       ev_comment := Scenario.comment7; ev_changes_body_from := Some "text that drifted";
       ev_sender_login := Some "alice" |} in
  let search := Jira_search_issues (jql_query Scenario.url42) in
  let new_fingerprint :=
    "[GitHub issue comment|https://github.com/acme/app/issues/42#issuecomment-7] by @bob:"
    ++ nl ++ nl ++ "new text" ++ nl in
  run w [] (handle_comment_edited event)
    = (Ok tt,
       [Markdown2confluence ("old text" ++ nl); search; Jira_comments "PROJ-101";
        Markdown2confluence ("new text" ++ nl);
        Comment_update Scenario.synced_comment new_fingerprint]) /\
  run w [] (handle_comment_edited drifted)
    = (Ok tt,
       [Markdown2confluence ("text that drifted" ++ nl); search; Jira_comments "PROJ-101";
        Markdown2confluence ("new text" ++ nl);
        Jira_add_comment "20101" new_fingerprint]).
Proof.
  cbv zeta. split.
  - apply (proj1 (proj2 (comment_edited_updates_or_appends
             (Scenario.world Scenario.synced) [] (Scenario.event_of Scenario.gh42 "bug")
             ("old text" ++ nl) [Markdown2confluence ("old text" ++ nl)]
             Scenario.proj101 [Jira_search_issues (jql_query Scenario.url42)]
             [Scenario.other_comment; Scenario.synced_comment]
             ("new text" ++ nl) [Markdown2confluence ("new text" ++ nl)]
             eq_refl eq_refl eq_refl eq_refl)) Scenario.synced_comment).
    reflexivity.
  - apply (proj2 (proj2 (comment_edited_updates_or_appends
             (Scenario.world Scenario.synced) []
             {| ev_issue := Scenario.gh42; ev_label := {| lbl_name := "bug" |};
                ev_comment := Scenario.comment7;
                ev_changes_body_from := Some "text that drifted";
                ev_sender_login := Some "alice" |}
             ("text that drifted" ++ nl) [Markdown2confluence ("text that drifted" ++ nl)]
             Scenario.proj101 [Jira_search_issues (jql_query Scenario.url42)]
             [Scenario.other_comment; Scenario.synced_comment]
             ("new text" ++ nl) [Markdown2confluence ("new text" ++ nl)]
             eq_refl eq_refl eq_refl eq_refl))).
    reflexivity.
Defined.

(** ** Labels *)

Lemma map_append f (a b : string) : PyStr.map f (a ++ b) = PyStr.map f a ++ PyStr.map f b.
Proof. induction a; simpl; congruence. Qed.

Lemma lower_char_replace (c : ascii) :
  lower_char (if Ascii.eqb c " " then "-"%char else c)
  = (if Ascii.eqb (lower_char c) " " then "-"%char else lower_char c).
Proof. destruct c as [[] [] [] [] [] [] [] []]; reflexivity. Qed.

Lemma lower_replace (s : string) :
  lower (replace_char " " "-" s) = replace_char " " "-" (lower s).
Proof.
  unfold lower, replace_char.
  induction s as [|c s IH]; simpl; trivial.
  now rewrite IH, lower_char_replace.
Qed.

Lemma prefix_append (a b : string) : String.prefix a (a ++ b) = true.
Proof.
  induction a as [|c a IH]; simpl.
  - now destruct b.
  - destruct (ascii_dec c c); [exact IH|contradiction].
Qed.

(** A reserved label does not pass [_check_issue_label], also after
    [_get_jira_label] has put hyphens for its spaces. *)
Lemma check_issue_label_reserved (gh_label : GhLabel) :
  reserved (lbl_name gh_label) ->
  _check_issue_label (_get_jira_label gh_label) = None.
Proof.
  intros (prefix & rest & Hname & Hprefix).
  unfold _check_issue_label, _get_jira_label, startswith.
  rewrite Hname, lower_replace. unfold lower, replace_char.
  rewrite !map_append. fold (lower prefix).
  destruct Hprefix as [-> | ->]; cbn [PyStr.map Ascii.eqb Bool.eqb];
    rewrite prefix_append; [reflexivity|now rewrite orb_true_r].
Qed.

(** For a label whose name starts with "status:" or "resolution:" in any
    letter case, the Labeled and the Unlabeled handler do nothing beyond
    resolving the target issue: no call follows resolution, and no run
    contains an [issue.update] of the labels. *)
Lemma reserved_label_stops_after_resolution (event : Event) :
  reserved (lbl_name (ev_label event)) ->
  let gh_issue := ev_issue event in
  let resolve :=
    _find_jira_issue gh_issue (String.eqb (gh_state gh_issue) "open") default_retries in
  forall (w : World) (h : list Call),
    run w h (handle_issue_labeled event) = run w h (resolve ;; Done tt) /\
    run w h (handle_issue_unlabeled event) = run w h (resolve ;; Done tt) /\
    count updates_labels (trace (run w h (handle_issue_labeled event))) = 0 /\
    count updates_labels (trace (run w h (handle_issue_unlabeled event))) = 0.
Proof.
  intros Hreserved gh_issue resolve w h.
  pose proof (check_issue_label_reserved _ Hreserved) as Hcheck.
  assert (Hl : run w h (handle_issue_labeled event) = run w h (resolve ;; Done tt)).
  { unfold handle_issue_labeled. apply run_bind_ext.
    intros [jira_issue|] h'; [rewrite Hcheck|]; reflexivity. }
  assert (Hu : run w h (handle_issue_unlabeled event) = run w h (resolve ;; Done tt)).
  { unfold handle_issue_unlabeled. apply run_bind_ext.
    intros [jira_issue|] h'; [rewrite Hcheck|]; reflexivity. }
  rewrite Hl, Hu. repeat split.
  all: apply Never_run, Never_bind;
    [apply find_jira_issue_never_labels|intros; constructor].
Qed.

(** C9.  Issue #42 is open, has no target issue yet, and receives the label
    "Status: In Progress", which GitHub lists among the labels of the issue
    in the event.  The label is reserved and does not pass
    [_check_issue_label]; but the Labeled handler resolves the target issue
    first, resolution creates it, and [jira.create_issue] is given the
    reserved label: the label is pushed to the tracker. *)
Theorem reserved_label_is_pushed_on_creation :
  let w := Scenario.world Scenario.fresh in
  let event :=
    Scenario.event_of (Cases.labelled ["Status: In Progress"]) "Status: In Progress" in
  let t := trace (run w [] (handle_issue_labeled event)) in
  reserved (lbl_name (ev_label event)) /\
  _check_issue_label (_get_jira_label (ev_label event)) = None /\
  returned (run w [] (handle_issue_labeled event)) = Ok tt /\
  count creates_issue t = 1 /\
  exists fields,
    In (Jira_create_issue fields) t /\
    f_labels fields = Some ["Status:-In-Progress"].
Proof.
  cbv zeta. split; [|split; [|split; [|split]]].
  - exists "Status:", " In Progress". split; [reflexivity|left; reflexivity].
  - reflexivity.
  - reflexivity.
  - reflexivity.
  - eexists. split.
    + do 20 right. left. reflexivity.
    + reflexivity.
Qed.

(* ===================================================================== *)
(** * Further properties                                                  *)
(* ===================================================================== *)

(** ** Outcomes and calls of composed programs *)

Lemma Returns_bind {A B} (Q : A -> Prop) (P : B -> Prop) (p : Prog A) (f : A -> Prog B) :
  Returns Q p -> (forall a, Q a -> Returns P (f a)) -> Returns P (bind p f).
Proof. intros Hp Hf. induction p; simpl in *; auto. Qed.

Lemma Returns_any {A} (p : Prog A) : Returns (fun _ => True) p.
Proof. induction p; simpl; auto. Qed.

Lemma Returns_weaken {A} (P Q : A -> Prop) (p : Prog A) :
  (forall a, P a -> Q a) -> Returns P p -> Returns Q p.
Proof. intros HPQ. induction p; simpl; auto. Qed.

Lemma Returns_try_except {A} (P : A -> Prop) (p : Prog A) cls handler :
  Returns P p -> Returns P handler -> Returns P (try_except p cls handler).
Proof.
  intros Hp Hh. induction p as [a|e|c k IH]; simpl in *; auto.
  apply Returns_bind with (Q := fun _ => True); [apply Returns_any|].
  intros [e'|] _; [destruct (exn_eqb e e')|]; simpl; trivial.
Qed.

Lemma Returns_run {A} (P : A -> Prop) (p : Prog A) :
  Returns P p -> forall w h a t, run w h p = (Ok a, t) -> P a.
Proof.
  induction p as [a|e|c k IH]; simpl; intros Hp w h a' t Hrun.
  - now injection Hrun as <- _.
  - discriminate.
  - destruct (run w (h ++ [c])%list (k (w h c))) as [r t'] eqn:Hk.
    injection Hrun as -> _. eauto.
Qed.

Lemma Never_Do_inv bad {A} (p : Prog A) :
  Never bad p ->
  match p with
  | Do c k => bad c = false /\ forall a, Never bad (k a)
  | _ => True
  end.
Proof. intros H. destruct H; auto. Qed.

Lemma Never_bind_returns bad {A B} (Q : A -> Prop) (p : Prog A) (f : A -> Prog B) :
  Never bad p -> Returns Q p -> (forall a, Q a -> Never bad (f a)) ->
  Never bad (bind p f).
Proof.
  intros Hp Hq Hf. induction p as [a|e|c k IH]; simpl in *.
  - auto.
  - constructor.
  - apply Never_Do_inv in Hp as [Hc Hk]. constructor; auto.
Qed.

Lemma Never_weaken (bad bad' : Call -> bool) {A} (p : Prog A) :
  (forall c, bad' c = true -> bad c = true) -> Never bad p -> Never bad' p.
Proof.
  intros Hb Hp. induction Hp; constructor; auto.
  destruct (bad' c) eqn:Hc; trivial. apply Hb in Hc. congruence.
Qed.

Lemma Never_run_all bad {A} (p : Prog A) :
  Never bad p -> forall w h c, In c (trace (run w h p)) -> bad c = false.
Proof.
  intros Hp w. induction Hp as [a|e|c k Hc Hk IH]; intros h c' Hin.
  - contradiction.
  - contradiction.
  - simpl in Hin. specialize (IH (w h c) (h ++ [c])%list c').
    destruct (run w (h ++ [c])%list (k (w h c))) as [r t].
    unfold trace in *; simpl in *. destruct Hin as [<-|Hin]; auto.
Qed.

(** ** Resolution without creation *)

Lemma find_jira_issue_readonly_never bad gh retries :
  bad (Jira_search_issues (jql_query (gh_html_url gh))) = false ->
  (forall key, bad (Jira_issue key) = false) ->
  (forall i u t g r, bad (Jira_add_remote_link i u t g r) = false) ->
  bad Jira_exceptions_JIRAError = false ->
  Never bad (_find_jira_issue gh false retries).
Proof.
  intros H0 H1 H2 H3. rewrite find_jira_issue_eq.
  apply Never_Do; trivial. intros [[|first rest]|e]; cbn [unwrap bind]; try constructor.
  apply Never_bind; [now apply manual_match_calls|].
  intros [issue|]; constructor.
Qed.

(** X1.  With [make_new] unset, [_find_jira_issue] makes exactly one search
    and, whatever the tracker answers and whatever [retries] is, never
    sleeps, never creates an issue, never touches GitHub and never updates
    an issue or a comment: the only change it can make is the remote link
    of the manual-match fallback. *)
Theorem find_jira_issue_without_create_is_quiet (w : World) (h : list Call)
    (gh_issue : GhIssue) (retries : nat) :
  let t := trace (run w h (_find_jira_issue gh_issue false retries)) in
  count searches t = 1 /\
  count sleeps t = 0 /\
  count creates_issue t = 0 /\
  count edits_title t = 0 /\
  count fetches_source t = 0 /\
  (forall c, In c t -> mutates c = true ->
     exists issue, c = Jira_add_remote_link issue (gh_html_url gh_issue)
                         (gh_title gh_issue) (gh_html_url gh_issue) "synced from").
Proof.
  cbv zeta. repeat split.
  - rewrite find_jira_issue_eq. cbn [bind run].
    set (search := Jira_search_issues (jql_query (gh_html_url gh_issue))).
    destruct (w h search) as [[|first rest]|e]; cbn [unwrap bind run]; trivial.
    rewrite run_bind.
    pose proof (Never_run _ _ (manual_match_never_searches gh_issue) w (h ++ [search])%list) as Hm.
    destruct (run w (h ++ [search])%list (manual_match gh_issue)) as [[[i|]|e] tm];
      unfold trace in *; cbn [snd negb run] in *;
      rewrite ?count_cons, ?count_app, Hm; reflexivity.
  - apply Never_run, find_jira_issue_readonly_never; auto.
  - apply Never_run, find_jira_issue_readonly_never; auto.
  - apply Never_run, find_jira_issue_readonly_never; auto.
  - apply Never_run, find_jira_issue_readonly_never; auto.
  - intros c Hin Hmut.
    set (other := fun c : Call =>
           match c with
           | Jira_add_remote_link _ u t g r =>
               negb (String.eqb u (gh_html_url gh_issue) && String.eqb t (gh_title gh_issue)
                     && String.eqb g (gh_html_url gh_issue) && String.eqb r "synced from")
           | _ => mutates c
           end).
    assert (Hnever : Never other (_find_jira_issue gh_issue false retries)).
    { rewrite find_jira_issue_eq.
      apply Never_Do; trivial. intros [[|first rest]|e]; cbn [unwrap bind]; try constructor.
      apply Never_bind; [|intros [issue|]; constructor].
      unfold manual_match, _add_remote_link, jira_dot_exceptions_JIRAError.
      destruct (Re.search_key (gh_title gh_issue)); [|constructor].
      apply Never_try_except; [|never_auto|constructor].
      apply Never_Do; trivial. intros [issue|e]; cbn [unwrap bind]; [|constructor].
      destruct (ji_description issue); cbn [bind]; [|constructor].
      destruct (contains _ _); [|constructor].
      cbn [bind]. apply Never_Do; [|intros [[]|e]; cbn; constructor].
      cbn. now rewrite !String.eqb_refl. }
    pose proof (Never_run_all _ _ Hnever w h c Hin) as Hc.
    destruct c; try discriminate. cbn in Hc.
    apply negb_false_iff in Hc. rewrite !andb_true_iff in Hc.
    destruct Hc as [[[Hu Ht] Hg] Hr].
    apply String.eqb_eq in Hu, Ht, Hg, Hr. subst. eauto.
Qed.

Lemma find_jira_issue_without_create_is_quiet_witness :
  let w := Scenario.world Scenario.hand_synced in
  let gh_issue := Scenario.gh42_keyed in
  let c := Jira_add_remote_link Scenario.proj101 Scenario.url42
             "Crash on boot (PROJ-101)" Scenario.url42 "synced from" in
  In c (trace (run w [] (_find_jira_issue gh_issue false default_retries))) /\
  mutates c = true /\
  exists issue, c = Jira_add_remote_link issue (gh_html_url gh_issue)
                      (gh_title gh_issue) (gh_html_url gh_issue) "synced from".
Proof.
  cbv zeta. split; [do 2 right; left; reflexivity|]. split; [reflexivity|].
  pose proof (find_jira_issue_without_create_is_quiet
                (Scenario.world Scenario.hand_synced) [] Scenario.gh42_keyed
                default_retries) as H.
  cbv zeta in H. destruct H as (_ & _ & _ & _ & _ & H).
  apply H; [do 2 right; left; reflexivity|reflexivity].
Defined.

(** ** Amending the GitHub title *)

(** One round of the retry loop. *)
Lemma edit_title_loop_run (w : World) api j n h :
  let edit := Api_gh_issue_edit api (amended_title api j) in
  run w h (edit_title_loop api j n) =
  match w h edit with
  | Ok u => (Ok u, [edit])
  | Err e =>
      if exn_eqb e GithubException then
        match n with
        | O => (Err GithubException, [edit])
        | S n' =>
            let c1 := Random_randrange 1 5 in
            let c2 := Time_sleep (w (h ++ [edit])%list c1) in
            let (r, t) := run w (h ++ [edit; c1; c2])%list (edit_title_loop api j n') in
            (r, edit :: c1 :: c2 :: t)
        end
      else (Err e, [edit])
  end.
Proof.
  cbv zeta. unfold amended_title.
  destruct n as [|n']; cbn [edit_title_loop]; rewrite run_try_except; cbn [run bind];
    destruct (w h _) as [u|e]; cbn [unwrap run the_GithubException bind app];
    trivial; destruct (exn_eqb e GithubException); cbn [run perform bind app]; trivial.
  rewrite <- !app_assoc. cbn [app].
  now destruct (run w _ (edit_title_loop api j n')).
Qed.

Lemma edit_title_loop_bounded (w : World) api j n : forall h,
  let t := trace (run w h (edit_title_loop api j n)) in
  count edits_title t <= S n /\
  count sleeps t <= n /\
  S (count sleeps t) = count edits_title t /\
  count calls_jira t = 0 /\
  (forall c, In c t -> edits_title c = true ->
             c = Api_gh_issue_edit api (amended_title api j)).
Proof.
  induction n as [|n IH]; intros h; cbv zeta; rewrite edit_title_loop_run; cbv zeta.
  - destruct (w h _) as [u|e]; [|destruct (exn_eqb e GithubException)];
      unfold trace; cbn [snd]; rewrite ?count_cons; cbn;
      (repeat split; try lia; intros c [<-|[]] _; reflexivity).
  - destruct (w h _) as [u|e]; [|destruct (exn_eqb e GithubException)];
      unfold trace; cbn [snd]; rewrite ?count_cons; cbn;
      try (repeat split; try lia; intros c [<-|[]] _; reflexivity).
    match goal with
    | |- context [run w ?h' (edit_title_loop api j n)] =>
        specialize (IH h'); cbv zeta in IH; unfold trace in IH;
        destruct (run w h' (edit_title_loop api j n)) as [r t]
    end.
    cbn [snd] in *. rewrite !count_cons. cbn.
    destruct IH as (H1 & H2 & H3 & H4 & H5).
    repeat split; try lia.
    intros c [<-|[<-|[<-|Hin]]] Hc; try discriminate; auto.
Qed.

(** X2.  [_update_github_with_jira_key] tries the title edit at most 6 times
    and sleeps at most 5 times, once between two tries; every try asks for
    the fetched title followed by the key in parentheses; the JIRA client is
    not called. *)
Theorem update_github_title_retries_bounded (w : World) (h : list Call)
    (gh_issue : GhIssue) (jira_issue : JiraIssue) :
  let t := trace (run w h (_update_github_with_jira_key gh_issue jira_issue)) in
  count edits_title t <= 6 /\
  count sleeps t <= 5 /\
  count sleeps t <= count edits_title t /\
  count calls_jira t = 0 /\
  (forall c, In c t -> edits_title c = true ->
     exists api_gh_issue,
       c = Api_gh_issue_edit api_gh_issue
             (api_title api_gh_issue ++ " (" ++ ji_key jira_issue ++ ")")).
Proof.
  cbv zeta. unfold _update_github_with_jira_key. cbn [bind run].
  destruct (w h _) as [api|e]; cbn [unwrap bind run].
  - pose proof (edit_title_loop_bounded w api jira_issue 5
                  (h ++ [REPO_get_issue (gh_number gh_issue)])%list) as Hloop.
    cbv zeta in Hloop. unfold trace in *.
    destruct (run w _ (edit_title_loop api jira_issue 5)) as [r t].
    cbn [snd] in *. rewrite !count_cons. cbn.
    destruct Hloop as (H1 & H2 & H3 & H4 & H5).
    repeat split; try lia.
    intros c [<-|Hin] Hc; [discriminate|]. exists api. now apply H5.
  - unfold trace. cbn. repeat split; try lia.
    intros c [<-|[]] Hc. discriminate.
Qed.

Lemma update_github_title_retries_bounded_witness :
  let w := Scenario.world Scenario.fresh in
  let c := Api_gh_issue_edit {| api_number := 42; api_title := "Crash on boot" |}
             "Crash on boot (PROJ-101)" in
  In c (trace (run w [] (_update_github_with_jira_key Scenario.gh42 Scenario.new101))) /\
  exists api_gh_issue,
    c = Api_gh_issue_edit api_gh_issue
          (api_title api_gh_issue ++ " (" ++ ji_key Scenario.new101 ++ ")").
Proof.
  cbv zeta. split; [right; left; reflexivity|].
  pose proof (update_github_title_retries_bounded (Scenario.world Scenario.fresh) []
                Scenario.gh42 Scenario.new101) as H.
  cbv zeta in H. destruct H as (_ & _ & _ & _ & H).
  apply H; [right; left; reflexivity|reflexivity].
Defined.

Lemma edit_title_loop_exhausts (w : World) api j :
  (forall h title, w h (Api_gh_issue_edit api title) = Err GithubException) ->
  forall n h,
    returned (run w h (edit_title_loop api j n)) = Err GithubException /\
    count edits_title (trace (run w h (edit_title_loop api j n))) = S n /\
    count sleeps (trace (run w h (edit_title_loop api j n))) = n.
Proof.
  intros Hrefused. induction n as [|n IH]; intros h;
    rewrite edit_title_loop_run; cbv zeta; rewrite Hrefused; cbn [exn_eqb].
  - repeat split.
  - match goal with
    | |- context [run w ?h' (edit_title_loop api j n)] =>
        specialize (IH h'); destruct (run w h' (edit_title_loop api j n)) as [r t]
    end.
    unfold returned, trace in *. cbn [fst snd] in *.
    rewrite !count_cons. cbn. destruct IH as (-> & -> & ->). repeat split.
Qed.

(** X3.  If GitHub answers every title edit with [GithubException], the
    exception reaches the caller after the first try and 5 retries:
    6 edits and 5 sleeps in all. *)
Theorem update_github_title_gives_up (w : World) (h : list Call)
    (gh_issue : GhIssue) (jira_issue : JiraIssue) (api_gh_issue : GhApiIssue) :
  w h (REPO_get_issue (gh_number gh_issue)) = Ok api_gh_issue ->
  (forall h' title, w h' (Api_gh_issue_edit api_gh_issue title) = Err GithubException) ->
  let r := run w h (_update_github_with_jira_key gh_issue jira_issue) in
  returned r = Err GithubException /\
  count edits_title (trace r) = 6 /\
  count sleeps (trace r) = 5.
Proof.
  intros Hget Hrefused. cbv zeta.
  unfold _update_github_with_jira_key. cbn [bind run]. rewrite Hget. cbn [unwrap bind].
  pose proof (edit_title_loop_exhausts w api_gh_issue jira_issue Hrefused 5
                (h ++ [REPO_get_issue (gh_number gh_issue)])%list) as Hloop.
  destruct (run w _ (edit_title_loop api_gh_issue jira_issue 5)) as [r t].
  unfold returned, trace in *. cbn [fst snd] in *.
  rewrite !count_cons. cbn. destruct Hloop as (-> & -> & ->). repeat split.
Qed.

Lemma update_github_title_gives_up_witness :
  let w := Cases.edits_refused in
  let api_gh_issue := {| api_number := 42; api_title := "Crash on boot" |} in
  w [] (REPO_get_issue (gh_number Scenario.gh42)) = Ok api_gh_issue /\
  (forall h' title, w h' (Api_gh_issue_edit api_gh_issue title) = Err GithubException) /\
  let r := run w [] (_update_github_with_jira_key Scenario.gh42 Scenario.new101) in
  returned r = Err GithubException /\
  count edits_title (trace r) = 6 /\
  count sleeps (trace r) = 5.
Proof.
  split; [reflexivity|]. split; [intros; reflexivity|].
  apply (update_github_title_gives_up Cases.edits_refused [] Scenario.gh42 Scenario.new101
           {| api_number := 42; api_title := "Crash on boot" |}).
  - reflexivity.
  - intros; reflexivity.
Defined.

(** ** The components field *)

Lemma update_components_field_returns fields existing :
  Returns (same_but_components fields) (_update_components_field fields existing).
Proof.
  unfold _update_components_field, os_environ, perform, same_but_components.
  cbn [bind Returns]. intros v.
  destruct (negb _); cbn [Returns]; [tauto|].
  apply Returns_bind with (Q := fun _ => True); [apply Returns_any|intros project _].
  cbn [bind Returns]. intros [pcs|e]; cbn [unwrap bind Returns]; trivial.
  destruct (negb _); cbn [Returns set_components f_summary f_project f_description
                          f_issuetype f_labels f_customfield_12100]; tauto.
Qed.

Lemma update_components_field_never_mutates fields existing :
  Never mutates (_update_components_field fields existing).
Proof. never. Qed.

(** X4.  [_update_components_field] only reads from the tracker, and the
    dictionary it leaves differs from the one it was given in the
    ['components'] entry at most. *)
Theorem update_components_field_touches_only_components (w : World) (h : list Call)
    (fields : Fields) (existing_issue : option JiraIssue) (f : Fields) (t : list Call) :
  run w h (_update_components_field fields existing_issue) = (Ok f, t) ->
  same_but_components fields f /\ count mutates t = 0.
Proof.
  intros Hrun. split.
  - exact (Returns_run _ _ (update_components_field_returns fields existing_issue)
             w h f t Hrun).
  - pose proof (Never_run _ _ (update_components_field_never_mutates fields existing_issue)
                  w h) as Hn.
    now rewrite Hrun in Hn.
Qed.

Lemma update_components_field_touches_only_components_witness :
  let w := Scenario.world Scenario.synced in
  let f := set_components (labels_field ["bug"]) ["Core"; "Core"] in
  let t := [Os_environ_get "JIRA_COMPONENT"; Jira_project "PROJ";
            Jira_project_components {| pr_key := "PROJ" |}] in
  run w [] (_update_components_field (labels_field ["bug"]) (Some Scenario.proj101)) = (Ok f, t) /\
  same_but_components (labels_field ["bug"]) f /\ count mutates t = 0.
Proof.
  split; [reflexivity|].
  apply (update_components_field_touches_only_components
           (Scenario.world Scenario.synced) [] (labels_field ["bug"])
           (Some Scenario.proj101)).
  reflexivity.
Defined.

(** X5.  When JIRA_COMPONENT is unset or empty, [_update_components_field]
    returns the dictionary as it is and does not call the tracker; reading
    the variable is all it does. *)
Theorem update_components_field_unconfigured (w : World) (h : list Call)
    (fields : Fields) (existing_issue : option JiraIssue) :
  w h (Os_environ_get "JIRA_COMPONENT") = None \/
  w h (Os_environ_get "JIRA_COMPONENT") = Some "" ->
  run w h (_update_components_field fields existing_issue)
    = (Ok fields, [Os_environ_get "JIRA_COMPONENT"]).
Proof.
  intros Hv. unfold _update_components_field, perform. cbn [bind run].
  destruct Hv as [-> | ->]; reflexivity.
Qed.

Lemma update_components_field_unconfigured_witness :
  let w := Scenario.world Scenario.fresh in
  (w [] (Os_environ_get "JIRA_COMPONENT") = None \/
   w [] (Os_environ_get "JIRA_COMPONENT") = Some "") /\
  run w [] (_update_components_field (status_field "Open") (Some Scenario.proj101))
    = (Ok (status_field "Open"), [Os_environ_get "JIRA_COMPONENT"]).
Proof.
  split; [left; reflexivity|].
  apply (update_components_field_unconfigured (Scenario.world Scenario.fresh) []).
  left; reflexivity.
Defined.

Lemma existsb_eqb_In (x : string) (l : list string) :
  existsb (String.eqb x) l = true <-> In x l.
Proof.
  rewrite existsb_exists. split.
  - intros (y & Hin & Heq). apply String.eqb_eq in Heq. now subst.
  - intros Hin. exists x. split; trivial. apply String.eqb_refl.
Qed.

(** X6.  For an existing issue, the project whose components are consulted
    is the issue's own project (not JIRA_PROJECT).  If that project has the
    configured component, the new ['components'] entry is the configured
    component followed by all components of the issue, in their order; if it
    has not, the dictionary is returned as it is. *)
Theorem update_components_field_existing (w : World) (h : list Call) (fields : Fields)
    (existing_issue : JiraIssue) (component : string) (project : Project)
    (project_components : list Component) :
  let c1 := Os_environ_get "JIRA_COMPONENT" in
  let c2 := Jira_project (ji_project_key existing_issue) in
  let c3 := Jira_project_components project in
  w h c1 = Some component ->
  component <> "" ->
  w (h ++ [c1])%list c2 = Ok project ->
  w (h ++ [c1; c2])%list c3 = Ok project_components ->
  run w h (_update_components_field fields (Some existing_issue)) =
    (Ok (if existsb (String.eqb component) (List.map comp_name project_components)
         then set_components fields
                (component :: List.map comp_name (ji_components existing_issue))
         else fields),
     [c1; c2; c3]).
Proof.
  cbv zeta. intros Hc Hne Hp Hpc.
  unfold _update_components_field, perform. cbn [bind run]. rewrite Hc.
  destruct component as [|a s]; [contradiction|]. cbn [nonempty negb bind run].
  rewrite Hp. cbn [unwrap bind run]. rewrite <- !app_assoc. cbn [app]. rewrite Hpc.
  cbn [unwrap bind].
  destruct (existsb _ _); cbn [negb run]; trivial.
  now rewrite keep_existing_components_eq.
Qed.

Lemma update_components_field_existing_witness :
  let w := Scenario.world Scenario.synced in
  let c1 := Os_environ_get "JIRA_COMPONENT" in
  let c2 := Jira_project (ji_project_key Scenario.proj101) in
  let c3 := Jira_project_components {| pr_key := "PROJ" |} in
  w [] c1 = Some "Core" /\
  "Core" <> "" /\
  w ([] ++ [c1])%list c2 = Ok {| pr_key := "PROJ" |} /\
  w ([] ++ [c1; c2])%list c3 = Ok [Scenario.core] /\
  run w [] (_update_components_field no_fields (Some Scenario.proj101)) =
    (Ok (if existsb (String.eqb "Core") (List.map comp_name [Scenario.core])
         then set_components no_fields
                ("Core" :: List.map comp_name (ji_components Scenario.proj101))
         else no_fields),
     [c1; c2; c3]).
Proof.
  cbv zeta. split; [reflexivity|]. split; [discriminate|].
  split; [reflexivity|]. split; [reflexivity|].
  apply (update_components_field_existing (Scenario.world Scenario.synced) [] no_fields
           Scenario.proj101 "Core" {| pr_key := "PROJ" |} [Scenario.core]);
    try reflexivity.
  discriminate.
Defined.

(** ** Labels *)

Lemma length_map f (s : string) : String.length (PyStr.map f s) = String.length s.
Proof. induction s; simpl; congruence. Qed.

(** X7.  [_get_jira_label] yields a label of the same length without any
    space, and applying it to its own result changes nothing. *)
Theorem get_jira_label_has_no_space (gh_label : GhLabel) :
  forallb not_space (_get_jira_label gh_label) = true /\
  String.length (_get_jira_label gh_label) = String.length (lbl_name gh_label) /\
  _get_jira_label {| lbl_name := _get_jira_label gh_label |} = _get_jira_label gh_label.
Proof.
  unfold _get_jira_label, replace_char. cbn [lbl_name].
  split; [|split].
  - induction (lbl_name gh_label) as [|c s IH]; simpl; trivial.
    rewrite IH, andb_true_r. unfold not_space.
    destruct (Ascii.eqb_spec c " ") as [->|Hc]; trivial.
    now apply negb_true_iff, Ascii.eqb_neq.
  - apply length_map.
  - induction (lbl_name gh_label) as [|c s IH]; simpl; trivial.
    rewrite IH. f_equal.
    destruct (Ascii.eqb_spec c " ") as [->|Hc]; trivial.
    now destruct (Ascii.eqb_spec c " ").
Qed.

Lemma prefix_inv (a b : string) :
  String.prefix a b = true -> exists rest, b = a ++ rest.
Proof.
  revert b; induction a as [|c a IH]; intros b; simpl.
  - intros _. now exists b.
  - destruct b as [|d b]; simpl; [discriminate|].
    destruct (ascii_dec c d) as [->|]; [|discriminate].
    intros H. apply IH in H as [rest ->]. now exists rest.
Qed.

Lemma map_append_inv f (s a b : string) :
  PyStr.map f s = a ++ b ->
  exists s1 s2, s = s1 ++ s2 /\ PyStr.map f s1 = a /\ PyStr.map f s2 = b.
Proof.
  revert s; induction a as [|c a IH]; intros s H.
  - exists EmptyString, s. auto.
  - destruct s as [|d s]; [discriminate|]. simpl in H. injection H as Hc H.
    apply IH in H as (s1 & s2 & -> & <- & <-).
    exists (String d s1), s2. simpl. now rewrite Hc.
Qed.

Lemma startswith_lower_inv (label p : string) :
  startswith (lower label) p = true ->
  exists prefix rest, label = prefix ++ rest /\ lower prefix = p.
Proof.
  unfold startswith. intros H. apply prefix_inv in H as [r Hr].
  apply map_append_inv in Hr as (s1 & s2 & -> & H1 & _). eauto.
Qed.

Lemma startswith_lower_append (prefix rest : string) :
  startswith (lower (prefix ++ rest)) (lower prefix) = true.
Proof. unfold startswith, lower. rewrite map_append. apply prefix_append. Qed.

Lemma check_issue_label_None (label : string) :
  _check_issue_label label = None <-> reserved label.
Proof.
  unfold _check_issue_label, reserved. split.
  - destruct (startswith (lower label) "status:") eqn:H1.
    + intros _. apply startswith_lower_inv in H1 as (p & r & -> & Hp). eauto.
    + destruct (startswith (lower label) "resolution:") eqn:H2; [|discriminate].
      intros _. apply startswith_lower_inv in H2 as (p & r & -> & Hp). eauto.
  - intros (p & r & -> & [Hp|Hp]).
    + pose proof (startswith_lower_append p r) as H. rewrite Hp in H. now rewrite H.
    + pose proof (startswith_lower_append p r) as H. rewrite Hp in H.
      rewrite H. now rewrite orb_true_r.
Qed.

Lemma check_issue_label_Some (label : string) :
  _check_issue_label label = Some label <-> ~ reserved label.
Proof.
  rewrite <- check_issue_label_None. unfold _check_issue_label.
  destruct (_ || _); split; congruence.
Qed.

(** X8.  [_check_issue_label] answers [None] exactly for the labels that
    start with "status:" or "resolution:" in any letter case, and hands every
    other label back unchanged. *)
Theorem check_issue_label_rejects_exactly_reserved (label : string) :
  (_check_issue_label label = None <-> reserved label) /\
  (_check_issue_label label = Some label <-> ~ reserved label).
Proof.
  split; [apply check_issue_label_None|apply check_issue_label_Some].
Qed.

Lemma check_issue_label_rejects_exactly_reserved_witness :
  _check_issue_label "Status: Open" = None /\ ~ reserved "bug".
Proof.
  split.
  - apply (check_issue_label_rejects_exactly_reserved "Status: Open").
    exists "Status:", " Open". split; [reflexivity|left; reflexivity].
  - apply (check_issue_label_rejects_exactly_reserved "bug"). reflexivity.
Defined.

Lemma replace_without_hyphen (s : string) :
  forallb no_hyphen (replace_char " " "-" s) = true -> replace_char " " "-" s = s.
Proof.
  unfold replace_char. induction s as [|c s IH]; simpl; trivial.
  intros H. apply andb_true_iff in H as [Hc Hs]. rewrite (IH Hs). f_equal.
  destruct (Ascii.eqb_spec c " ") as [->|]; [discriminate|reflexivity].
Qed.

(** Mapping spaces to hyphens neither makes a label reserved nor frees it. *)
Lemma reserved_get_jira_label (gh_label : GhLabel) :
  reserved (_get_jira_label gh_label) <-> reserved (lbl_name gh_label).
Proof.
  split.
  - intros (p & r & Hname & Hp).
    unfold _get_jira_label, replace_char in Hname.
    apply map_append_inv in Hname as (s1 & s2 & -> & H1 & _).
    fold (replace_char " " "-" s1) in H1.
    exists s1, s2. split; trivial.
    assert (Hlow : replace_char " " "-" (lower s1) = lower p)
      by (now rewrite <- lower_replace, H1).
    assert (Hsame : replace_char " " "-" (lower s1) = lower s1).
    { apply replace_without_hyphen. rewrite Hlow. now destruct Hp as [-> | ->]. }
    rewrite Hsame in Hlow. now rewrite Hlow.
  - intros H. apply check_issue_label_None. now apply check_issue_label_reserved.
Qed.

Lemma check_get_jira_label (gh_label : GhLabel) :
  ~ reserved (lbl_name gh_label) ->
  _check_issue_label (_get_jira_label gh_label) = Some (_get_jira_label gh_label).
Proof.
  intros H. apply check_issue_label_Some.
  now rewrite reserved_get_jira_label.
Qed.

Lemma list_remove_absent (x : string) (labels : list string) :
  ~ In x labels -> list_remove x labels = None.
Proof.
  induction labels as [|y rest IH]; simpl; trivial.
  intros H. destruct (String.eqb_spec y x) as [->|Hne]; [tauto|].
  rewrite IH; tauto.
Qed.

Lemma list_remove_first (x : string) (before after : list string) :
  ~ In x before -> list_remove x (before ++ x :: after)%list = Some (before ++ after)%list.
Proof.
  induction before as [|y rest IH]; simpl; intros H.
  - now rewrite String.eqb_refl.
  - destruct (String.eqb_spec y x) as [->|Hne]; [tauto|].
    rewrite IH; tauto.
Qed.

(** X9.  For a label that is not reserved, once identity resolution has
    returned a target issue: if the mapped label is already among the
    issue's labels the Labeled handler makes no further call; otherwise it
    makes one [issue.update] whose labels are the issue's labels, in their
    order, followed by the mapped label. *)
Theorem labeled_adds_missing_label_once (w : World) (h : list Call) (event : Event)
    (jira_issue : JiraIssue) (t1 : list Call) :
  let gh_issue := ev_issue event in
  let new_label := _get_jira_label (ev_label event) in
  run w h (_find_jira_issue gh_issue (String.eqb (gh_state gh_issue) "open")
             default_retries) = (Ok (Some jira_issue), t1) ->
  ~ reserved (lbl_name (ev_label event)) ->
  (In new_label (ji_labels jira_issue) ->
   run w h (handle_issue_labeled event) = (Ok tt, t1)) /\
  (~ In new_label (ji_labels jira_issue) ->
   continues_as w h t1 (handle_issue_labeled event)
     (call (Issue_update jira_issue
              (labels_field (ji_labels jira_issue ++ [new_label])%list)))).
Proof.
  cbv zeta. intros Hres Hfree.
  unfold continues_as, handle_issue_labeled. rewrite run_bind, Hres.
  rewrite (check_get_jira_label _ Hfree).
  split; intros Hin.
  - apply existsb_eqb_In in Hin. rewrite Hin. cbn [negb run]. now rewrite app_nil_r.
  - destruct (existsb _ _) eqn:Hex; [apply existsb_eqb_In in Hex; tauto|].
    reflexivity.
Qed.

Lemma labeled_adds_missing_label_once_witness :
  let w := Scenario.world Scenario.synced in
  let event := Scenario.event_of Scenario.gh42 "good first issue" in
  let jira_issue := Scenario.proj101 in
  let t1 := [Jira_search_issues (jql_query Scenario.url42)] in
  let gh_issue := ev_issue event in
  let new_label := _get_jira_label (ev_label event) in
  run w [] (_find_jira_issue gh_issue (String.eqb (gh_state gh_issue) "open")
              default_retries) = (Ok (Some jira_issue), t1) /\
  ~ reserved (lbl_name (ev_label event)) /\
  ~ In new_label (ji_labels jira_issue) /\
  continues_as w [] t1 (handle_issue_labeled event)
    (call (Issue_update jira_issue
             (labels_field (ji_labels jira_issue ++ [new_label])%list))).
Proof.
  cbv zeta.
  assert (Hfree : ~ reserved "good first issue").
  { intros H. apply check_issue_label_None in H. discriminate H. }
  assert (Hnew : ~ In "good-first-issue" ["bug"]).
  { intros [H|[]]. discriminate H. }
  split; [reflexivity|]. split; [exact Hfree|]. split; [exact Hnew|].
  apply (labeled_adds_missing_label_once (Scenario.world Scenario.synced) []
           (Scenario.event_of Scenario.gh42 "good first issue") Scenario.proj101
           [Jira_search_issues (jql_query Scenario.url42)]);
    [reflexivity|exact Hfree|exact Hnew].
Defined.

(** X10.  For a label that is not reserved, once identity resolution has
    returned a target issue: if the mapped label is not among the issue's
    labels the Unlabeled handler makes no further call and ends normally;
    otherwise it makes one [issue.update] whose labels are the issue's labels
    without the first occurrence of the mapped label, and ends normally when
    the update returns or raises [ValueError] (the [except ValueError] meant
    for [labels.remove] covers the update too); any other exception of the
    update is the handler's. *)
Theorem unlabeled_removes_first_occurrence (w : World) (h : list Call) (event : Event)
    (jira_issue : JiraIssue) (t1 : list Call) :
  let gh_issue := ev_issue event in
  let removed_label := _get_jira_label (ev_label event) in
  run w h (_find_jira_issue gh_issue (String.eqb (gh_state gh_issue) "open")
             default_retries) = (Ok (Some jira_issue), t1) ->
  ~ reserved (lbl_name (ev_label event)) ->
  (~ In removed_label (ji_labels jira_issue) ->
   run w h (handle_issue_unlabeled event) = (Ok tt, t1)) /\
  (forall before after,
     ji_labels jira_issue = (before ++ removed_label :: after)%list ->
     ~ In removed_label before ->
     let update := Issue_update jira_issue (labels_field (before ++ after)%list) in
     run w h (handle_issue_unlabeled event) =
       (match w (h ++ t1)%list update with
        | Ok _ => Ok tt
        | Err e => if exn_eqb e ValueError then Ok tt else Err e
        end,
        (t1 ++ [update])%list)).
Proof.
  cbv zeta. intros Hres Hfree.
  unfold handle_issue_unlabeled. rewrite run_bind, Hres.
  rewrite (check_get_jira_label _ Hfree).
  split.
  - intros Hin. rewrite (list_remove_absent _ _ Hin).
    rewrite run_try_except. cbn [bind run the_ValueError exn_eqb app].
    now rewrite app_nil_r.
  - intros before after Hlabels Hfirst.
    rewrite Hlabels, (list_remove_first _ _ _ Hfirst).
    rewrite run_try_except. cbn [bind run].
    destruct (w (h ++ t1)%list _) as [[]|e]; cbn [unwrap run the_ValueError bind app];
      [reflexivity|].
    destruct (exn_eqb e ValueError); reflexivity.
Qed.

Lemma unlabeled_removes_first_occurrence_witness :
  let w := Scenario.world Cases.twice_labelled in
  let event := Scenario.event_of Scenario.gh42 "bug" in
  let search := Jira_search_issues (jql_query Scenario.url42) in
  ji_labels Cases.proj102 = ["triage"; "bug"; "core"; "bug"] /\
  ~ reserved (lbl_name (ev_label event)) /\
  run w [] (handle_issue_unlabeled event) =
    (Ok tt,
     [search; Issue_update Cases.proj102 (labels_field ["triage"; "core"; "bug"])]).
Proof.
  cbv zeta.
  assert (Hfree : ~ reserved "bug").
  { intros H. apply check_issue_label_None in H. discriminate H. }
  split; [reflexivity|]. split; [exact Hfree|].
  apply (proj2 (unlabeled_removes_first_occurrence (Scenario.world Cases.twice_labelled) []
                  (Scenario.event_of Scenario.gh42 "bug") Cases.proj102
                  [Jira_search_issues (jql_query Scenario.url42)] eq_refl Hfree)
           ["triage"] ["core"; "bug"] eq_refl).
  intros [H|[]]. discriminate H.
Defined.

(** ** Issue types *)

Lemma match_issue_type_Some gh_label issue_types t :
  match_issue_type gh_label issue_types = Some t ->
  exists issue_type,
    In issue_type issue_types /\ label_matches_type gh_label issue_type /\
    t = IssueTypeId (it_id issue_type).
Proof.
  induction issue_types as [|it rest IH]; simpl; [discriminate|].
  destruct (_ || _) eqn:Hm.
  - intros [= <-]. exists it. split; [now left|]. split; trivial.
    apply orb_true_iff in Hm as [Hm|Hm]; apply String.eqb_eq in Hm; [now left|now right].
  - intros H. apply IH in H as (it' & Hin & Hmatch & ->). exists it'. auto.
Qed.

Lemma match_issue_type_None gh_label issue_types :
  match_issue_type gh_label issue_types = None ->
  forall issue_type, In issue_type issue_types -> ~ label_matches_type gh_label issue_type.
Proof.
  induction issue_types as [|it rest IH]; simpl; [tauto|].
  destruct (_ || _) eqn:Hm; [discriminate|].
  apply orb_false_iff in Hm as [H1 H2]. apply String.eqb_neq in H1, H2.
  intros Hnone it' [<-|Hin]; [|now apply IH].
  intros [H|H]; contradiction.
Qed.

Lemma map_labels_to_type_spec gh_labels issue_types :
  match map_labels_to_type gh_labels issue_types with
  | None =>
      forall gh_label, In gh_label gh_labels ->
        gh_label <> "Type: Feature Request" /\ gh_label <> "Type: Bug :bug:" /\
        forall issue_type, In issue_type issue_types ->
          ~ label_matches_type gh_label issue_type
  | Some (IssueTypeConst id) =>
      (id = JIRA_NEW_FEATURE_TYPE_ID /\ In "Type: Feature Request" gh_labels) \/
      (id = JIRA_BUG_TYPE_ID /\ In "Type: Bug :bug:" gh_labels)
  | Some (IssueTypeId id) =>
      exists gh_label issue_type,
        In gh_label gh_labels /\ In issue_type issue_types /\
        label_matches_type gh_label issue_type /\ it_id issue_type = id
  | Some (IssueTypeName _) => False
  end.
Proof.
  induction gh_labels as [|l rest IH]; simpl; [tauto|].
  destruct (String.eqb_spec l "Type: Feature Request") as [->|H1]; [left; auto|].
  destruct (String.eqb_spec l "Type: Bug :bug:") as [->|H2]; [right; auto|].
  destruct (match_issue_type l issue_types) as [t|] eqn:Hm.
  - apply match_issue_type_Some in Hm as (it & Hin & Hmatch & ->).
    exists l, it. auto.
  - pose proof (match_issue_type_None _ _ Hm) as Hnone.
    destruct (map_labels_to_type rest issue_types) as [[id|id|name]|].
    + destruct IH as [[-> Hin]|[-> Hin]]; [left|right]; auto.
    + destruct IH as (l' & it & Hl & Hit & Hmatch & Hid). exists l', it. auto.
    + exact IH.
    + intros l' [<-|Hin]; auto.
Qed.

(** X11.  When [_get_jira_issue_type] returns, it has made one call, the
    listing of the tracker's issue types, and its answer is justified by the
    labels: the id of the New Feature or Bug type only if the label "Type:
    Feature Request" or "Type: Bug :bug:" is present; the id of a listed type
    only if some label names that type (in any letter case, bare or after
    "type: "); and [None] only if no label is one of the two special labels
    or names a listed type. *)
Theorem get_jira_issue_type_sound (w : World) (h : list Call) (gh_issue : GhIssue)
    (r : option issuetype_value) (t : list Call) :
  run w h (_get_jira_issue_type gh_issue) = (Ok r, t) ->
  let gh_labels := List.map lbl_name (gh_labels gh_issue) in
  exists issue_types,
    w h Jira_issue_types = Ok issue_types /\ t = [Jira_issue_types] /\
    match r with
    | None =>
        forall gh_label, In gh_label gh_labels ->
          gh_label <> "Type: Feature Request" /\ gh_label <> "Type: Bug :bug:" /\
          forall issue_type, In issue_type issue_types ->
            ~ label_matches_type gh_label issue_type
    | Some (IssueTypeConst id) =>
        (id = 10101%Z /\ In "Type: Feature Request" gh_labels) \/
        (id = 10004%Z /\ In "Type: Bug :bug:" gh_labels)
    | Some (IssueTypeId id) =>
        exists gh_label issue_type,
          In gh_label gh_labels /\ In issue_type issue_types /\
          label_matches_type gh_label issue_type /\ it_id issue_type = id
    | Some (IssueTypeName _) => False
    end.
Proof.
  unfold _get_jira_issue_type. cbn [bind run]. intros Hrun. cbv zeta.
  destruct (w h Jira_issue_types) as [issue_types|e]; cbn [unwrap bind run] in Hrun;
    [|discriminate].
  injection Hrun as <- <-. exists issue_types. repeat split.
  apply map_labels_to_type_spec.
Qed.

Lemma get_jira_issue_type_sound_witness :
  let w := Cases.typed in
  let gh_issue := Cases.labelled ["help wanted"; "TYPE: bug"; "Story"] in
  let accented := Cases.labelled ["help wanted"; "type: " ++ String "233" "pica"] in
  let t := [Jira_issue_types] in
  (run w [] (_get_jira_issue_type gh_issue) = (Ok (Some (IssueTypeId "10004")), t) /\
   let gh_labels := List.map lbl_name (gh_labels gh_issue) in
   exists issue_types,
     w [] Jira_issue_types = Ok issue_types /\ t = [Jira_issue_types] /\
     exists gh_label issue_type,
       In gh_label gh_labels /\ In issue_type issue_types /\
       label_matches_type gh_label issue_type /\ it_id issue_type = "10004") /\
  (run w [] (_get_jira_issue_type accented) = (Ok (Some (IssueTypeId "10000")), t) /\
   let gh_labels := List.map lbl_name (gh_labels accented) in
   exists issue_types,
     w [] Jira_issue_types = Ok issue_types /\ t = [Jira_issue_types] /\
     exists gh_label issue_type,
       In gh_label gh_labels /\ In issue_type issue_types /\
       label_matches_type gh_label issue_type /\ it_id issue_type = "10000").
Proof.
  cbv zeta. split; (split; [reflexivity|]).
  - exact (get_jira_issue_type_sound Cases.typed []
             (Cases.labelled ["help wanted"; "TYPE: bug"; "Story"])
             (Some (IssueTypeId "10004")) [Jira_issue_types] eq_refl).
  - exact (get_jira_issue_type_sound Cases.typed []
             (Cases.labelled ["help wanted"; "type: " ++ String "233" "pica"])
             (Some (IssueTypeId "10000")) [Jira_issue_types] eq_refl).
Defined.

(** ** The converter's fallback, and descriptions *)

(** X12.  If the converter fails with [CalledProcessError], [_markdown2wiki]
    returns the markdown text exactly as it was given, whatever its length
    (no newline added, no cut at 16384); any other exception of the converter
    reaches the caller; and for [None] the answer is a single newline,
    without running the converter. *)
Theorem markdown2wiki_fallback (w : World) (h : list Call) (markdown : string) :
  let convert := Markdown2confluence (markdown_file markdown) in
  (w h convert = Err CalledProcessError ->
   run w h (_markdown2wiki (Some markdown)) = (Ok markdown, [convert])) /\
  (forall e, e <> CalledProcessError -> w h convert = Err e ->
   run w h (_markdown2wiki (Some markdown)) = (Err e, [convert])) /\
  run w h (_markdown2wiki None) = (Ok nl, []).
Proof.
  cbv zeta. unfold _markdown2wiki. repeat split.
  - intros Hc. rewrite run_try_except. cbn [bind run]. rewrite Hc. reflexivity.
  - intros e He Hc. rewrite run_try_except. cbn [bind run]. rewrite Hc.
    cbn. destruct e; try reflexivity. contradiction.
Qed.

Lemma markdown2wiki_fallback_witness :
  let w := Cases.converter_fails in
  let convert := Markdown2confluence (markdown_file "*text*") in
  w [] convert = Err CalledProcessError /\
  run w [] (_markdown2wiki (Some "*text*")) = (Ok "*text*", [convert]).
Proof.
  cbv zeta. split; [reflexivity|].
  apply (markdown2wiki_fallback Cases.converter_fails [] "*text*"). reflexivity.
Defined.

Lemma contains_append (sub a b : string) : contains sub (a ++ sub ++ b) = true.
Proof.
  induction a as [|c a IH].
  - destruct sub as [|c s]; simpl.
    + now destruct b.
    + destruct (ascii_dec c c); [|contradiction].
      now rewrite prefix_append.
  - cbn [append contains]. rewrite IH. apply orb_true_r.
Qed.

Lemma get_description_returns gh :
  Returns (fun d => exists body tail,
             d = "[GitHub " ++ (if gh_pull_request gh then "Pull Request" else "Issue")
                 ++ "|" ++ gh_html_url gh ++ "] from user @" ++ gh_user_login gh ++ ":"
                 ++ nl ++ nl ++ "    " ++ body ++ tail)
    (_get_description gh).
Proof.
  unfold _get_description.
  apply Returns_bind with (Q := fun _ => True); [apply Returns_any|].
  intros body _. cbn [Returns]. exists body. unfold description_head.
  eexists. repeat (rewrite append_assoc; cbn [append]). reflexivity.
Qed.


Ltac flatten_appends := repeat first [rewrite !append_assoc | progress (cbn [append])].

Lemma contains_in (sub a b s : string) : s = a ++ sub ++ b -> contains sub s = true.
Proof. intros ->. apply contains_append. Qed.

(** X13.  Every description [_get_description] returns contains the URL of
    the GitHub issue (which is what the manual-match fallback looks for in a
    description), the author's handle after "@", and the text that
    [_markdown2wiki] made of the issue body. *)
Theorem get_description_contains_url (w : World) (h : list Call) (gh_issue : GhIssue)
    (description : string) (t : list Call) :
  run w h (_get_description gh_issue) = (Ok description, t) ->
  contains (gh_html_url gh_issue) description = true /\
  contains ("@" ++ gh_user_login gh_issue) description = true /\
  exists body, run w h (_markdown2wiki (gh_body gh_issue)) = (Ok body, t) /\
               contains body description = true.
Proof.
  intros Hrun. unfold _get_description in Hrun.
  apply run_bind_Ok in Hrun as (body & t1 & t2 & Hbody & Hdone & ->).
  cbn [run] in Hdone. injection Hdone as <- <-. rewrite app_nil_r.
  unfold description_head.
  set (type := if gh_pull_request gh_issue then "Pull Request" else "Issue").
  set (tail := if negb (gh_pull_request gh_issue) then _ else _).
  split; [|split].
  - apply contains_in with (a := "[GitHub " ++ type ++ "|")
      (b := "] from user @" ++ gh_user_login gh_issue ++ ":" ++ nl ++ nl ++ "    "
            ++ body ++ nl ++ nl ++ "    ---" ++ nl ++ nl ++ "    Notes:" ++ nl ++ nl
            ++ "    * Do not edit this description text, it may be updated automatically."
            ++ nl
            ++ "    * Please interact on GitHub where possible, changes will sync to here."
            ++ nl ++ "    " ++ tail).
    flatten_appends. reflexivity.
  - apply contains_in with
      (a := "[GitHub " ++ type ++ "|" ++ gh_html_url gh_issue ++ "] from user ")
      (b := ":" ++ nl ++ nl ++ "    "
            ++ body ++ nl ++ nl ++ "    ---" ++ nl ++ nl ++ "    Notes:" ++ nl ++ nl
            ++ "    * Do not edit this description text, it may be updated automatically."
            ++ nl
            ++ "    * Please interact on GitHub where possible, changes will sync to here."
            ++ nl ++ "    " ++ tail).
    flatten_appends. reflexivity.
  - exists body. split; trivial.
    apply contains_in with
      (a := "[GitHub " ++ type ++ "|" ++ gh_html_url gh_issue ++ "] from user @"
            ++ gh_user_login gh_issue ++ ":" ++ nl ++ nl ++ "    ")
      (b := nl ++ nl ++ "    ---" ++ nl ++ nl ++ "    Notes:" ++ nl ++ nl
            ++ "    * Do not edit this description text, it may be updated automatically."
            ++ nl
            ++ "    * Please interact on GitHub where possible, changes will sync to here."
            ++ nl ++ "    " ++ tail).
    flatten_appends. reflexivity.
Qed.

Lemma get_description_contains_url_witness :
  let w := Scenario.world Scenario.fresh in
  exists description t,
    run w [] (_get_description Scenario.gh42) = (Ok description, t) /\
    contains (gh_html_url Scenario.gh42) description = true /\
    contains ("@" ++ gh_user_login Scenario.gh42) description = true /\
    exists body, run w [] (_markdown2wiki (gh_body Scenario.gh42)) = (Ok body, t) /\
                 contains body description = true.
Proof.
  cbv zeta. eexists. eexists. split; [reflexivity|].
  apply (get_description_contains_url (Scenario.world Scenario.fresh) [] Scenario.gh42).
  reflexivity.
Defined.

(** ** Titles, keys and summaries *)

Lemma append_nil_r (s : string) : s ++ "" = s.
Proof. induction s; simpl; congruence. Qed.

Lemma forallb_impl (p q : ascii -> bool) (s : string) :
  (forall c, p c = true -> q c = true) -> forallb p s = true -> forallb q s = true.
Proof.
  intros Hpq. induction s as [|c s IH]; simpl; trivial.
  intros H. apply andb_true_iff in H as [Hc Hs]. now rewrite (Hpq c Hc), IH.
Qed.

Lemma is_word_not_space c : is_word c = true -> not_space c = true.
Proof.
  destruct c as [[] [] [] [] [] [] [] []]; vm_compute; intros H;
    solve [reflexivity | discriminate H].
Qed.

Lemma is_digit_not_space c : is_digit c = true -> not_space c = true.
Proof.
  destruct c as [[] [] [] [] [] [] [] []]; vm_compute; intros H;
    solve [reflexivity | discriminate H].
Qed.

(** A slug is a space followed by characters none of which is a space. *)
Lemma Slug_shape slug :
  Slug slug -> exists tail, slug = String " " tail /\ forallb not_space tail = true.
Proof.
  intros [w d _ Hw _ Hd]. eexists. split; [reflexivity|].
  repeat first [rewrite forallb_append | progress (cbn [append forallb])].
  rewrite (forallb_impl _ _ _ is_word_not_space Hw),
    (forallb_impl _ _ _ is_digit_not_space Hd). reflexivity.
Qed.

Lemma append_split (a b m r : string) :
  a ++ b = m ++ r ->
  (exists x, a = m ++ x) \/ (exists c y, m = a ++ String c y /\ b = String c y ++ r).
Proof.
  revert m; induction a as [|c a IH]; intros m H.
  - destruct m as [|d m]; [left; now exists EmptyString|].
    right. exists d, m. simpl in *. auto.
  - destruct m as [|d m]; [left; now exists (String c a)|].
    simpl in H. injection H as <- H.
    apply IH in H as [[x ->]|(e & y & -> & ->)].
    + left. now exists x.
    + right. exists e, y. auto.
Qed.

Lemma Stripped_append_slug a out slug :
  Stripped a out -> Slug slug -> Stripped (a ++ slug) out.
Proof.
  intros Ha Hslug. induction Ha as [|m rest out Hm Hrest IH|c s out Hno Hs IH].
  - simpl. rewrite <- (append_nil_r slug). constructor; [trivial|constructor].
  - rewrite append_assoc. now constructor.
  - cbn [append]. constructor; trivial.
    intros m r Hm Heq.
    change (String c (s ++ slug)) with (String c s ++ slug) in Heq.
    apply append_split in Heq as [[x Hx]|(e & y & Hmy & Hsl)].
    + exact (Hno m x Hm Hx).
    + destruct (Slug_shape _ Hslug) as (tail & -> & _).
      simpl in Hsl. injection Hsl as <- _.
      destruct (Slug_shape _ Hm) as (tail' & -> & Htail').
      simpl in Hmy. injection Hmy as _ ->.
      rewrite forallb_append in Htail'. simpl in Htail'.
      now rewrite andb_false_r in Htail'.
Qed.

Lemma Stripped_functional s out1 out2 :
  Stripped s out1 -> Stripped s out2 -> out1 = out2.
Proof.
  intros H1. revert out2.
  induction H1 as [|m rest out Hm Hrest IH|c s out Hno Hs IH]; intros out2 H2.
  - inversion H2 as [|m' rest' out' Hm' Hrest' Heq|]; trivial.
    destruct (Slug_shape _ Hm') as (tail & -> & _). discriminate.
  - remember (m ++ rest) as s eqn:Hs.
    destruct H2 as [|m' rest' out' Hm' Hrest'|c s' out' Hno' Hs'].
    + destruct (Slug_shape _ Hm) as (tail & -> & _). discriminate.
    + pose proof (match_slug_complete m rest Hm) as E1.
      pose proof (match_slug_complete m' rest' Hm') as E2.
      rewrite <- Hs, E2 in E1. injection E1 as ->. auto.
    + exfalso. exact (Hno' m rest Hm Hs).
  - remember (String c s) as s0 eqn:Hs0.
    destruct H2 as [|m' rest' out' Hm' Hrest'|c' s' out' Hno' Hs'].
    + discriminate.
    + exfalso. exact (Hno m' rest' Hm' eq_refl).
    + injection Hs0 as -> ->. f_equal. auto.
Qed.

Lemma sub_slug_append_slug a slug :
  Slug slug -> Re.sub_slug (a ++ slug) = Re.sub_slug a.
Proof.
  intros Hslug.
  apply Stripped_functional with (s := a ++ slug); [apply sub_slug_Stripped|].
  apply Stripped_append_slug; trivial. apply sub_slug_Stripped.
Qed.

(** X14.  Appending a key in parentheses to the title, as
    [_update_github_with_jira_key] does, leaves the summary as it was: for a
    key made of word characters, a hyphen and digits, the summary of the
    amended title equals the summary of the title. *)
Theorem get_summary_ignores_appended_key (gh_issue : GhIssue) (word digits : string) :
  nonempty word = true -> forallb is_word word = true ->
  nonempty digits = true -> forallb is_digit digits = true ->
  let key := word ++ "-" ++ digits in
  _get_summary (with_title gh_issue (gh_title gh_issue ++ " (" ++ key ++ ")"))
  = _get_summary gh_issue.
Proof.
  intros Hnw Hw Hnd Hd. cbv zeta. rewrite !get_summary_eq.
  replace (summary_prefix (with_title gh_issue
                             (gh_title gh_issue ++ " (" ++ (word ++ "-" ++ digits) ++ ")"))
           ++ gh_title (with_title gh_issue
                          (gh_title gh_issue ++ " (" ++ (word ++ "-" ++ digits) ++ ")")))
    with ((summary_prefix gh_issue ++ gh_title gh_issue)
          ++ (" (" ++ word ++ "-" ++ digits ++ ")")).
  - apply sub_slug_append_slug. now constructor.
  - unfold summary_prefix. cbn [with_title gh_title gh_pull_request gh_number].
    flatten_appends. reflexivity.
Qed.

Lemma get_summary_ignores_appended_key_witness :
  nonempty "PROJ" = true /\ forallb is_word "PROJ" = true /\
  nonempty "101" = true /\ forallb is_digit "101" = true /\
  _get_summary (with_title Scenario.gh7
                  (gh_title Scenario.gh7 ++ " (" ++ ("PROJ" ++ "-" ++ "101") ++ ")"))
  = _get_summary Scenario.gh7.
Proof.
  repeat (split; [reflexivity|]).
  apply (get_summary_ignores_appended_key Scenario.gh7 "PROJ" "101"); reflexivity.
Defined.

Lemma is_upper_no_paren c : is_upper c = true -> no_paren c = true.
Proof.
  destruct c as [[] [] [] [] [] [] [] []]; vm_compute; intros H;
    solve [reflexivity | discriminate H].
Qed.

Lemma is_digit_no_paren c : is_digit c = true -> no_paren c = true.
Proof.
  destruct c as [[] [] [] [] [] [] [] []]; vm_compute; intros H;
    solve [reflexivity | discriminate H].
Qed.

Lemma is_space_no_paren c : is_space c = true -> no_paren c = true.
Proof.
  destruct c as [[] [] [] [] [] [] [] []]; vm_compute; intros H;
    solve [reflexivity | discriminate H].
Qed.

(** What [match_key] accepts. *)
Lemma match_key_sound s key :
  Re.match_key s = Some key ->
  exists letters digits spaces,
    s = "(" ++ letters ++ "-" ++ digits ++ ")" ++ spaces /\
    key = letters ++ "-" ++ digits /\
    nonempty letters = true /\ forallb is_upper letters = true /\
    nonempty digits = true /\ forallb is_digit digits = true /\
    forallb is_space spaces = true.
Proof.
  unfold Re.match_key.
  destruct s as [|a s1]; try discriminate.
  destruct (Ascii.eqb_spec a "(") as [->|Ha].
  2:{ destruct a as [[] [] [] [] [] [] [] []]; try discriminate. now contradiction Ha. }
  destruct (span is_upper s1) as [u s2] eqn:Hu.
  apply span_spec in Hu as (-> & Hu & _).
  destruct (nonempty u) eqn:Hnu; try discriminate.
  destruct s2 as [|c s3]; try discriminate.
  destruct (Ascii.eqb_spec c "-") as [->|Hc].
  2:{ destruct c as [[] [] [] [] [] [] [] []]; try discriminate. now contradiction Hc. }
  destruct (span is_digit s3) as [d s4] eqn:Hd.
  apply span_spec in Hd as (-> & Hd & _).
  destruct (nonempty d) eqn:Hnd; try discriminate.
  destruct s4 as [|e r]; try discriminate.
  destruct (Ascii.eqb_spec e ")") as [->|He].
  2:{ destruct e as [[] [] [] [] [] [] [] []]; try discriminate. now contradiction He. }
  destruct (forallb is_space r) eqn:Hr; try discriminate.
  intros [= <-]. exists u, d, r. repeat split; trivial.
Qed.

Lemma match_key_complete letters digits spaces :
  nonempty letters = true -> forallb is_upper letters = true ->
  nonempty digits = true -> forallb is_digit digits = true ->
  forallb is_space spaces = true ->
  Re.match_key ("(" ++ letters ++ "-" ++ digits ++ ")" ++ spaces)
  = Some (letters ++ "-" ++ digits).
Proof.
  intros Hnu Hu Hnd Hd Hs. unfold Re.match_key. cbn [append].
  rewrite (span_append is_upper letters) by (trivial; reflexivity).
  rewrite Hnu.
  rewrite (span_append is_digit digits) by (trivial; reflexivity).
  now rewrite Hnd, Hs.
Qed.

(** A match of the key pattern has its only opening parenthesis in front. *)
Lemma match_key_one_paren s key :
  Re.match_key s = Some key ->
  exists tail, s = String "(" tail /\ forallb no_paren tail = true.
Proof.
  intros H. apply match_key_sound in H as (u & d & ws & -> & _ & _ & Hu & _ & Hd & Hws).
  eexists. split; [reflexivity|].
  repeat first [rewrite forallb_append | progress (cbn [append forallb])].
  rewrite (forallb_impl _ _ _ is_upper_no_paren Hu),
    (forallb_impl _ _ _ is_digit_no_paren Hd),
    (forallb_impl _ _ _ is_space_no_paren Hws). reflexivity.
Qed.

(** X15.  After the title has been amended with a key of upper-case letters,
    a hyphen and digits, the key the manual-match fallback reads from the
    title is that key, whatever the title was before. *)
Theorem search_key_finds_appended_key (title letters digits : string) :
  nonempty letters = true -> forallb is_upper letters = true ->
  nonempty digits = true -> forallb is_digit digits = true ->
  let key := letters ++ "-" ++ digits in
  Re.search_key (title ++ " (" ++ key ++ ")") = Some key.
Proof.
  intros Hnu Hu Hnd Hd. cbv zeta.
  assert (Hend : Re.match_key ("(" ++ (letters ++ "-" ++ digits) ++ ")")
                 = Some (letters ++ "-" ++ digits)).
  { pose proof (match_key_complete letters digits "" Hnu Hu Hnd Hd eq_refl) as H.
    rewrite <- H. f_equal. flatten_appends. reflexivity. }
  assert (Hsp : forall x, Re.match_key (String " " x) = None) by reflexivity.
  cbn [append] in Hend.
  induction title as [|c title IH].
  - cbn [append Re.search_key]. now rewrite Hsp, Hend.
  - cbn [append Re.search_key].
    destruct (Re.match_key (String c _)) as [k|] eqn:Hk; [|exact IH].
    apply match_key_one_paren in Hk as (tail & Heq & Htail).
    injection Heq as _ <-.
    rewrite forallb_append in Htail. cbn [append forallb] in Htail.
    cbn in Htail. now rewrite andb_false_r in Htail.
Qed.

Lemma search_key_finds_appended_key_witness :
  nonempty "PROJ" = true /\ forallb is_upper "PROJ" = true /\
  nonempty "101" = true /\ forallb is_digit "101" = true /\
  Re.search_key ("Crash (again) on boot" ++ " (" ++ ("PROJ" ++ "-" ++ "101") ++ ")")
  = Some ("PROJ" ++ "-" ++ "101").
Proof.
  repeat (split; [reflexivity|]).
  apply (search_key_finds_appended_key "Crash (again) on boot" "PROJ" "101"); reflexivity.
Defined.

(** X16.  A key read from a title by the manual-match fallback stands in
    parentheses at the end of the title, followed by white space at most,
    and consists of upper-case letters, a hyphen and digits; a title without
    an opening parenthesis yields no key. *)
Theorem search_key_sound (title : string) :
  (forall key, Re.search_key title = Some key ->
     exists before letters digits spaces,
       title = before ++ "(" ++ letters ++ "-" ++ digits ++ ")" ++ spaces /\
       key = letters ++ "-" ++ digits /\
       nonempty letters = true /\ forallb is_upper letters = true /\
       nonempty digits = true /\ forallb is_digit digits = true /\
       forallb is_space spaces = true) /\
  (forallb no_paren title = true -> Re.search_key title = None).
Proof.
  split.
  - induction title as [|c title IH]; intros key; cbn [Re.search_key].
    + destruct (Re.match_key "") eqn:Hm; [|discriminate]. discriminate Hm.
    + destruct (Re.match_key (String c title)) as [k|] eqn:Hm.
      * intros [= <-].
        apply match_key_sound in Hm as (u & d & ws & Heq & H).
        exists "", u, d, ws. split; trivial.
      * intros H. apply IH in H as (b & u & d & ws & -> & H).
        exists (String c b), u, d, ws. split; trivial.
  - induction title as [|c title IH]; intros Hno; cbn [Re.search_key].
    + reflexivity.
    + cbn [forallb] in Hno. apply andb_true_iff in Hno as [Hc Hno].
      destruct (Re.match_key (String c title)) as [k|] eqn:Hm; [|auto].
      apply match_key_one_paren in Hm as (tail & Heq & _).
      injection Heq as -> _. discriminate Hc.
Qed.

Lemma search_key_sound_witness :
  let title := "Crash (old) on boot (PROJ-101)" ++ String "160" " " in
  (forallb no_paren "Crash on boot" = true /\
   Re.search_key "Crash on boot" = None) /\
  (Re.search_key title = Some "PROJ-101" /\
   exists before letters digits spaces,
     title = before ++ "(" ++ letters ++ "-" ++ digits ++ ")" ++ spaces /\
     "PROJ-101" = letters ++ "-" ++ digits /\
     nonempty letters = true /\ forallb is_upper letters = true /\
     nonempty digits = true /\ forallb is_digit digits = true /\
     forallb is_space spaces = true).
Proof.
  cbv zeta. split; (split; [reflexivity|]).
  - apply (search_key_sound "Crash on boot"). reflexivity.
  - apply (proj1 (search_key_sound
                    ("Crash (old) on boot (PROJ-101)" ++ String "160" " "))).
    reflexivity.
Defined.

(** ** What the handlers never do *)

Lemma count_le_1_of_never_after bad (c : Call) (t : list Call) :
  count bad t = 0 -> count bad (c :: t) <= 1.
Proof. intros H. rewrite count_cons, H. destruct (bad c); lia. Qed.

Lemma leave_comment_readonly_never bad event verb :
  bad (Jira_search_issues (jql_query (gh_html_url (ev_issue event)))) = false ->
  (forall key, bad (Jira_issue key) = false) ->
  (forall i u t g r, bad (Jira_add_remote_link i u t g r) = false) ->
  bad Jira_exceptions_JIRAError = false ->
  (forall i b, bad (Jira_add_comment i b) = false) ->
  Never bad (_leave_jira_issue_comment event verb false None).
Proof.
  intros H0 H1 H2 H3 H4. unfold _leave_jira_issue_comment.
  apply Never_bind; [now apply find_jira_issue_readonly_never|].
  intros [j|]; [|constructor].
  apply Never_Do; [apply H4|]. intros r. cbn. destruct r; constructor.
Qed.

Lemma update_link_resolved_never bad gh j :
  bad (Jira_remote_links j) = false ->
  (forall l n g r, bad (Link_update l n g r) = false) ->
  Never bad (_update_link_resolved gh j).
Proof. intros H1 H2. never_auto. Qed.

(** X17.  In every world, the Deleted handler never sleeps, never touches
    GitHub and never creates or updates an issue, a comment or a link, and it
    adds at most one comment; the Closed handler never sleeps, never touches
    GitHub and never creates an issue. *)
Theorem deleted_and_closed_never_create (w : World) (h : list Call) (event : Event) :
  let deleted := trace (run w h (handle_issue_deleted event)) in
  let closed := trace (run w h (handle_issue_closed event)) in
  count sleeps deleted = 0 /\ count edits_title deleted = 0 /\
  count fetches_source deleted = 0 /\ count changes_fields deleted = 0 /\
  count adds_comment deleted <= 1 /\
  count sleeps closed = 0 /\ count edits_title closed = 0 /\
  count fetches_source closed = 0 /\ count creates_issue closed = 0.
Proof.
  cbv zeta.
  assert (Hd : forall bad,
             bad (Jira_search_issues (jql_query (gh_html_url (ev_issue event)))) = false ->
             (forall key, bad (Jira_issue key) = false) ->
             (forall i u t g r, bad (Jira_add_remote_link i u t g r) = false) ->
             bad Jira_exceptions_JIRAError = false ->
             (forall i b, bad (Jira_add_comment i b) = false) ->
             count bad (trace (run w h (handle_issue_deleted event))) = 0).
  { intros bad H0 H1 H2 H3 H4. apply Never_run. unfold handle_issue_deleted.
    apply Never_bind; [now apply leave_comment_readonly_never|constructor]. }
  assert (Hc : forall bad,
             bad (Jira_search_issues (jql_query (gh_html_url (ev_issue event)))) = false ->
             (forall key, bad (Jira_issue key) = false) ->
             (forall i u t g r, bad (Jira_add_remote_link i u t g r) = false) ->
             bad Jira_exceptions_JIRAError = false ->
             (forall i b, bad (Jira_add_comment i b) = false) ->
             (forall i f, bad (Issue_update i f) = false) ->
             (forall i, bad (Jira_remote_links i) = false) ->
             (forall l n g r, bad (Link_update l n g r) = false) ->
             count bad (trace (run w h (handle_issue_closed event))) = 0).
  { intros bad H0 H1 H2 H3 H4 H5 H6 H7. apply Never_run. unfold handle_issue_closed.
    apply Never_bind; [now apply leave_comment_readonly_never|intros issue].
    apply Never_bind.
    - apply Never_try_except; [|constructor|constructor].
      destruct issue as [j|]; cbn [not_None bind]; [|constructor].
      apply Never_Do; [apply H5|]. intros r; destruct r; constructor.
    - intros _. destruct issue as [j|]; [|constructor].
      apply update_link_resolved_never; auto. }
  repeat split; try (apply Hd; auto); try (apply Hc; auto).
  (* at most one comment *)
  unfold handle_issue_deleted, _leave_jira_issue_comment.
  rewrite !run_bind.
  pose proof (Never_run _ _ (find_jira_issue_readonly_never adds_comment (ev_issue event)
                               default_retries eq_refl (fun _ => eq_refl)
                               (fun _ _ _ _ _ => eq_refl) eq_refl) w h) as Hfind.
  destruct (run w h (_find_jira_issue (ev_issue event) false default_retries))
    as [[[j|]|e] t]; unfold trace in *; cbn [snd] in *.
  - cbn [bind run]. destruct (w (h ++ t)%list _) as [u|e]; cbn [unwrap bind run snd];
      rewrite ?app_nil_r, count_app, Hfind; cbn; lia.
  - cbn [run snd]. rewrite ?app_nil_r, Hfind. lia.
  - cbn [snd]. rewrite Hfind. lia.
Qed.

(** X18.  For a source issue that is not open, the Labeled and the
    Unlabeled handler never create a target issue, never sleep and never
    touch GitHub, in any world. *)
Theorem labels_of_closed_issue_never_create (w : World) (h : list Call) (event : Event) :
  gh_state (ev_issue event) <> "open" ->
  let labeled := trace (run w h (handle_issue_labeled event)) in
  let unlabeled := trace (run w h (handle_issue_unlabeled event)) in
  count creates_issue labeled = 0 /\ count sleeps labeled = 0 /\
  count edits_title labeled = 0 /\
  count creates_issue unlabeled = 0 /\ count sleeps unlabeled = 0 /\
  count edits_title unlabeled = 0.
Proof.
  intros Hstate. apply String.eqb_neq in Hstate. cbv zeta.
  assert (Hl : forall bad,
             bad (Jira_search_issues (jql_query (gh_html_url (ev_issue event)))) = false ->
             (forall key, bad (Jira_issue key) = false) ->
             (forall i u t g r, bad (Jira_add_remote_link i u t g r) = false) ->
             bad Jira_exceptions_JIRAError = false ->
             (forall i f, bad (Issue_update i f) = false) ->
             Never bad (handle_issue_labeled event) /\
             Never bad (handle_issue_unlabeled event)).
  { intros bad H0 H1 H2 H3 H4.
    unfold handle_issue_labeled, handle_issue_unlabeled. rewrite Hstate.
    split; (apply Never_bind; [now apply find_jira_issue_readonly_never|]);
      intros [j|]; try constructor.
    - destruct (_check_issue_label _); [|constructor].
      destruct (negb _); [|constructor].
      apply Never_Do; [apply H4|]. intros r; destruct r; constructor.
    - destruct (_check_issue_label _); [|constructor].
      apply Never_try_except; [|constructor|constructor].
      destruct (list_remove _ _); [|constructor].
      apply Never_Do; [apply H4|]. intros r; destruct r; constructor. }
  repeat split; apply Never_run; apply Hl; auto.
Qed.

Lemma labels_of_closed_issue_never_create_witness :
  let w := Scenario.world Scenario.fresh in
  let closed_event := Scenario.event_of Cases.closed42 "bug" in
  gh_state (ev_issue closed_event) <> "open" /\
  let labeled := trace (run w [] (handle_issue_labeled closed_event)) in
  let unlabeled := trace (run w [] (handle_issue_unlabeled closed_event)) in
  count creates_issue labeled = 0 /\ count sleeps labeled = 0 /\
  count edits_title labeled = 0 /\
  count creates_issue unlabeled = 0 /\ count sleeps unlabeled = 0 /\
  count edits_title unlabeled = 0.
Proof.
  cbv zeta. split; [discriminate|].
  apply (labels_of_closed_issue_never_create (Scenario.world Scenario.fresh) []).
  discriminate.
Defined.

(** ** Remote links *)

Lemma update_link_resolved_never_wrong gh j :
  Never (wrong_link_update gh) (_update_link_resolved gh j).
Proof.
  unfold _update_link_resolved.
  apply Never_Do; [reflexivity|]. intros [links|e]; cbn [unwrap bind]; [|constructor].
  apply Never_for_each. intros link.
  destruct (rl_globalId link) as [g|] eqn:Hg; [|constructor].
  destruct (String.eqb_spec g (gh_html_url gh)) as [->|]; [|constructor].
  apply Never_Do; [|intros r; destruct r; constructor].
  cbn [wrong_link_update lo_title lo_url lo_resolved]. rewrite Hg.
  rewrite !String.eqb_refl, eqb_reflx. reflexivity.
Qed.

(** X19.  Whatever links the tracker lists, [_update_link_resolved] updates
    only links whose global id is the URL of the GitHub issue; each update
    keeps the link's url, global id and relationship, sets the title to the
    issue's title and sets "resolved" exactly when the issue is not open.
    Besides listing the links it makes no other call. *)
Theorem update_link_resolved_only_own_links (w : World) (h : list Call)
    (gh_issue : GhIssue) (jira_issue : JiraIssue) (c : Call) :
  In c (trace (run w h (_update_link_resolved gh_issue jira_issue))) ->
  c = Jira_remote_links jira_issue \/
  exists link,
    rl_globalId link = Some (gh_html_url gh_issue) /\
    c = Link_update link
          {| lo_url := lo_url (rl_object link);
             lo_title := gh_title gh_issue;
             lo_resolved := negb (String.eqb (gh_state gh_issue) "open") |}
          (gh_html_url gh_issue) (rl_relationship link).
Proof.
  intros Hin.
  pose proof (Never_run_all _ _ (update_link_resolved_never_wrong gh_issue jira_issue)
                w h c Hin) as Hok.
  assert (Hnever : Never (fun c => match c with
                                   | Jira_remote_links _ | Link_update _ _ _ _ => false
                                   | _ => true
                                   end) (_update_link_resolved gh_issue jira_issue))
    by never_auto.
  pose proof (Never_run_all _ _ Hnever w h c Hin) as Hkind.
  assert (Hfirst : forall c', In c' (trace (run w h (_update_link_resolved gh_issue jira_issue))) ->
                     match c' with
                     | Jira_remote_links i => i = jira_issue
                     | _ => True
                     end).
  { clear. intros c' Hin. unfold _update_link_resolved in Hin. cbn [bind run] in Hin.
    destruct (w h (Jira_remote_links jira_issue)) as [links|e]; cbn [unwrap bind run] in Hin.
    - assert (Hloop : Never (fun c => match c with Jira_remote_links _ => true | _ => false end)
                        (for_each links (fun link =>
                           match rl_globalId link with
                           | Some globalId =>
                               if String.eqb globalId (gh_html_url gh_issue) then
                                 call (Link_update link
                                         {| lo_url := lo_url (rl_object link);
                                            lo_title := gh_title gh_issue;
                                            lo_resolved := negb (String.eqb (gh_state gh_issue) "open") |}
                                         globalId (rl_relationship link))
                               else Done tt
                           | None => Done tt
                           end))) by never_auto.
      pose proof (Never_run_all _ _ Hloop w (h ++ [Jira_remote_links jira_issue])%list c') as Hc.
      destruct (run w _ (for_each links _)) as [r t]. unfold trace in *. cbn [snd] in *.
      destruct Hin as [<-|Hin]; trivial.
      specialize (Hc Hin). destruct c'; trivial; discriminate.
    - unfold trace in Hin. cbn in Hin. destruct Hin as [<-|[]]. reflexivity. }
  specialize (Hfirst c Hin).
  destruct c; try discriminate.
  - left. now subst.
  - right. exists link. cbn [wrong_link_update] in Hok.
    apply negb_false_iff in Hok. rewrite !andb_true_iff in Hok.
    destruct Hok as [[[[[Hg Hgid] Hrel] Htitle] Hurl] Hres].
    destruct (rl_globalId link) as [g|] eqn:Hlg; [|discriminate].
    apply String.eqb_eq in Hg, Hgid, Hrel, Htitle, Hurl. apply eqb_prop in Hres.
    subst. split; trivial. destruct new_link as [u ti re]. cbn in *. now subst.
Qed.

Lemma update_link_resolved_only_own_links_witness :
  let w := Scenario.world Cases.linked in
  let c := Link_update Cases.link42
             {| lo_url := Scenario.url42; lo_title := "Crash on boot";
                lo_resolved := false |}
             Scenario.url42 "synced from" in
  In c (trace (run w [] (_update_link_resolved Scenario.gh42 Scenario.proj101))) /\
  (c = Jira_remote_links Scenario.proj101 \/
   exists link,
     rl_globalId link = Some (gh_html_url Scenario.gh42) /\
     c = Link_update link
           {| lo_url := lo_url (rl_object link);
              lo_title := gh_title Scenario.gh42;
              lo_resolved := negb (String.eqb (gh_state Scenario.gh42) "open") |}
           (gh_html_url Scenario.gh42) (rl_relationship link)).
Proof.
  cbv zeta. split; [right; left; reflexivity|].
  apply (update_link_resolved_only_own_links (Scenario.world Cases.linked) []
           Scenario.gh42 Scenario.proj101).
  right; left; reflexivity.
Defined.

(** ** Creating an issue *)

(** X20.  If JIRA_PROJECT is not set, [_create_jira_issue] ends with an
    exception before it has changed anything in the tracker; the exception is
    [KeyError] as soon as the listing of the issue types succeeds. *)
Theorem create_jira_issue_needs_project (w : World) (h : list Call) (gh_issue : GhIssue) :
  (forall h', w h' (Os_environ_get "JIRA_PROJECT") = None) ->
  let r := run w h (_create_jira_issue gh_issue) in
  (exists e, returned r = Err e) /\
  count mutates (trace r) = 0 /\
  (forall issue_types, w h Jira_issue_types = Ok issue_types ->
                       returned r = Err KeyError).
Proof.
  intros Hproj. cbv zeta.
  unfold _create_jira_issue, _get_jira_issue_type, os_environ, perform.
  cbn [bind run].
  destruct (w h Jira_issue_types) as [issue_types|e]; cbn [unwrap bind run].
  - destruct (map_labels_to_type _ issue_types) as [ty|]; cbn [bind run];
      rewrite Hproj; cbn [bind run returned trace fst snd];
      (split; [eauto|]); (split; [reflexivity|]); reflexivity.
  - cbn. split; [eauto|]. split; [reflexivity|]. discriminate.
Qed.

Lemma create_jira_issue_needs_project_witness :
  let w := Cases.no_project in
  (forall h', w h' (Os_environ_get "JIRA_PROJECT") = None) /\
  let r := run w [] (_create_jira_issue Scenario.gh42) in
  (exists e, returned r = Err e) /\
  count mutates (trace r) = 0 /\
  (forall issue_types, w [] Jira_issue_types = Ok issue_types ->
                       returned r = Err KeyError).
Proof.
  cbv zeta. split; [intros; reflexivity|].
  apply (create_jira_issue_needs_project Cases.no_project [] Scenario.gh42).
  intros; reflexivity.
Defined.

Lemma edit_title_loop_starts_with_edit (w : World) api j n h :
  exists t, trace (run w h (edit_title_loop api j n))
            = Api_gh_issue_edit api (amended_title api j) :: t.
Proof.
  rewrite edit_title_loop_run. cbv zeta.
  destruct (w h _) as [u|e]; [|destruct (exn_eqb e GithubException); [destruct n|]];
    unfold trace; cbn [snd]; eauto.
  destruct (run w _ (edit_title_loop api j n)). cbn [snd]. eauto.
Qed.

(** X21.  When [_create_jira_issue] returns an issue, it has called
    [jira.create_issue] exactly once, with the summary of [_get_summary] and
    the GitHub labels mapped by [_get_jira_label]; the returned issue is the
    answer to that call; and on that issue it has asked for the status field
    "Open", registered the remote link (global id and url both the GitHub
    URL, relationship "synced from") and asked GitHub to append the issue's
    key in parentheses to the title. *)
Theorem create_jira_issue_links_and_amends (w : World) (h : list Call)
    (gh_issue : GhIssue) (issue : JiraIssue) (t : list Call) :
  run w h (_create_jira_issue gh_issue) = (Ok issue, t) ->
  count creates_issue t = 1 /\
  (exists t0 fields t',
     t = (t0 ++ Jira_create_issue fields :: t')%list /\
     w (h ++ t0)%list (Jira_create_issue fields) = Ok issue /\
     f_summary fields = Some (_get_summary gh_issue) /\
     f_labels fields = Some (List.map _get_jira_label (gh_labels gh_issue))) /\
  In (Issue_update issue (status_field "Open")) t /\
  In (Jira_add_remote_link issue (gh_html_url gh_issue) (gh_title gh_issue)
        (gh_html_url gh_issue) "synced from") t /\
  (exists api_gh_issue,
     In (Api_gh_issue_edit api_gh_issue
           (api_title api_gh_issue ++ " (" ++ ji_key issue ++ ")")) t).
Proof.
  intros Hrun.
  pose proof (Never_run _ _ (create_jira_issue_never_creates_before gh_issue) w h) as Hpre.
  unfold _create_jira_issue in Hrun.
  apply run_bind_Ok in Hrun as (it & ta & t2 & Ha & Hrun & ->).
  apply run_bind_Ok in Hrun as (it' & tb & t3 & Hb & Hrun & ->).
  apply run_bind_Ok in Hrun as (project & tc & t4 & Hc & Hrun & ->).
  apply run_bind_Ok in Hrun as (description & td & t5 & Hd & Hrun & ->).
  apply run_bind_Ok in Hrun as (fields & te & t6 & He & Hrun & ->).
  rewrite run_bind, Ha in Hpre; cbv beta iota in Hpre.
  rewrite run_bind, Hb in Hpre; cbv beta iota in Hpre.
  rewrite run_bind, Hc in Hpre; cbv beta iota in Hpre.
  rewrite run_bind, Hd in Hpre; cbv beta iota in Hpre.
  rewrite He in Hpre. unfold trace in Hpre. cbn [snd] in Hpre.
  pose proof (Returns_run _ _ (update_components_field_returns _ None) w _ _ _ He)
    as (Hsum & _ & _ & _ & Hlab & _).
  cbn [f_summary f_labels] in Hsum, Hlab.
  cbn [bind run] in Hrun.
  match type of Hrun with
  | context [w ?h' (Jira_create_issue fields)] =>
      destruct (w h' (Jira_create_issue fields)) as [created|e] eqn:Hw
  end; cbn [unwrap bind run] in Hrun; [|discriminate].
  change (run w ?h' _) with (run w h' (after_create gh_issue created)) in Hrun.
  match type of Hrun with
  | (let (_, _) := run w ?h' _ in _) = _ =>
      pose proof (Never_run _ _ (after_create_never_creates gh_issue created) w h') as Hpost;
      destruct (run w h' (after_create gh_issue created)) as [r t7] eqn:Hrest
  end.
  unfold trace in Hpost. cbn [snd] in Hpost.
  injection Hrun as -> <-.
  unfold after_create in Hrest.
  apply run_bind_Ok in Hrest as (u1 & t8 & t9 & Htry & Hrest & ->).
  apply run_bind_Ok in Hrest as (u2 & t10 & t11 & Hadd & Hrest & ->).
  apply run_bind_Ok in Hrest as (u3 & t12 & t13 & Hupd & Hrest & ->).
  apply run_bind_Ok in Hrest as (u4 & t14 & t15 & _ & Hrest & ->).
  cbn [run] in Hrest. injection Hrest as -> <-.
  assert (H8 : In (Issue_update issue (status_field "Open")) t8).
  { rewrite run_try_except in Htry. cbn [bind run] in Htry.
    destruct (w _ (Issue_update _ _)) as [u|e]; cbn [unwrap run] in Htry.
    - injection Htry as _ <-. now left.
    - destruct (run w _ _) as [r' t'] in Htry. injection Htry as _ <-. now left. }
  assert (H10 : In (Jira_add_remote_link issue (gh_html_url gh_issue) (gh_title gh_issue)
                      (gh_html_url gh_issue) "synced from") t10).
  { unfold _add_remote_link in Hadd. cbn [bind run] in Hadd.
    destruct (w _ (Jira_add_remote_link _ _ _ _ _)); cbn [unwrap run] in Hadd;
      injection Hadd as _ <-; now left. }
  assert (H12 : exists api, In (Api_gh_issue_edit api (amended_title api issue)) t12).
  { unfold _update_github_with_jira_key in Hupd. cbn [bind run] in Hupd.
    destruct (w _ (REPO_get_issue _)) as [api|e]; cbn [unwrap bind run] in Hupd;
      [|discriminate].
    exists api.
    match type of Hupd with
    | context [run w ?h' (edit_title_loop api issue 5)] =>
        destruct (edit_title_loop_starts_with_edit w api issue 5 h') as [tl Htl];
        destruct (run w h' (edit_title_loop api issue 5)) as [r' t'']
    end.
    unfold trace in Htl. cbn [snd] in Htl. subst. injection Hupd as _ <-.
    right. now left. }
  split; [|split; [|split; [|split]]].
  - rewrite ?count_app in Hpre. rewrite ?count_app in Hpost.
    rewrite ?count_app, count_cons, ?count_app. cbn [creates_issue]. lia.
  - exists (ta ++ tb ++ tc ++ td ++ te)%list, fields. eexists.
    split; [rewrite <- !app_assoc; reflexivity|].
    split; [rewrite <- Hw; f_equal; now rewrite <- !app_assoc|]. auto.
  - rewrite !in_app_iff. cbn [In]. rewrite !in_app_iff. tauto.
  - rewrite !in_app_iff. cbn [In]. rewrite !in_app_iff. tauto.
  - destruct H12 as [api H12]. exists api.
    rewrite !in_app_iff. cbn [In]. rewrite !in_app_iff. tauto.
Qed.

Lemma create_jira_issue_links_and_amends_witness :
  let w := Cases.status_field_refused in
  exists t,
    run w [] (_create_jira_issue Scenario.gh42) = (Ok Scenario.new101, t) /\
    w [Jira_issue_types] (Issue_update Scenario.new101 (status_field "Open")) = Err JIRAError /\
    count creates_issue t = 1 /\
    In (Issue_update Scenario.new101 (status_field "Open")) t /\
    In (Jira_add_remote_link Scenario.new101 Scenario.url42 "Crash on boot"
          Scenario.url42 "synced from") t /\
    (exists api_gh_issue,
       In (Api_gh_issue_edit api_gh_issue
             (api_title api_gh_issue ++ " (" ++ "PROJ-101" ++ ")")) t).
Proof.
  cbv zeta. eexists. split; [reflexivity|]. split; [reflexivity|].
  match goal with
  | |- count _ ?t = 1 /\ _ =>
      destruct (create_jira_issue_links_and_amends Cases.status_field_refused []
                  Scenario.gh42 Scenario.new101 t eq_refl) as (H1 & _ & H3 & H4 & H5)
  end.
  split; [exact H1|]. split; [exact H3|]. split; [exact H4|exact H5].
Defined.

(** ** The type of an existing issue *)

Lemma create_jira_issue_never_issuetype gh : Never updates_issuetype (_create_jira_issue gh).
Proof. never; apply edit_title_loop_never; auto. Qed.

Lemma find_jira_issue_never_issuetype gh make_new retries :
  Never updates_issuetype (_find_jira_issue gh make_new retries).
Proof.
  revert make_new; induction retries as [|n IH]; intros make_new;
    rewrite find_jira_issue_eq;
    (apply Never_Do; [reflexivity|intros [[|first rest]|e]]; cbn [unwrap bind];
     try constructor);
    (apply Never_bind; [apply manual_match_calls; auto|]);
    (intros [issue|]; [constructor|]);
    (destruct make_new; cbn [negb]; [|constructor]).
  - apply Never_bind; [apply create_jira_issue_never_issuetype|constructor].
  - apply Never_Do; [reflexivity|intros z].
    apply Never_Do; [reflexivity|intros u]. apply IH.
Qed.

Lemma leave_comment_never_issuetype event verb should_create jira_issue :
  Never updates_issuetype (_leave_jira_issue_comment event verb should_create jira_issue).
Proof.
  unfold _leave_jira_issue_comment.
  apply Never_bind.
  - destruct jira_issue; [constructor|apply find_jira_issue_never_issuetype].
  - intros [j|]; never.
Qed.

Lemma update_old_comment_never_issuetype gh_comment body comments :
  Never updates_issuetype (update_old_comment gh_comment body comments).
Proof.
  induction comments as [|c rest IH]; simpl; [constructor|].
  destruct (String.eqb _ _); trivial.
  unfold _get_jira_comment_body. never.
Qed.

Lemma handle_issue_opened_never_issuetype event :
  Never updates_issuetype (handle_issue_opened event).
Proof.
  unfold handle_issue_opened.
  apply Never_bind; [apply find_jira_issue_never_issuetype|].
  intros [j|]; [constructor|].
  apply Never_bind; [apply create_jira_issue_never_issuetype|constructor].
Qed.

Lemma handle_issue_edited_never_issuetype event :
  Never updates_issuetype (handle_issue_edited event).
Proof.
  unfold handle_issue_edited.
  apply Never_bind; [apply find_jira_issue_never_issuetype|intros issue].
  apply Never_bind; [never|intros description].
  apply Never_bind_returns with (Q := same_but_components
    {| f_summary := Some (_get_summary (ev_issue event)); f_project := None;
       f_description := Some description; f_issuetype := None;
       f_labels := None; f_components := None; f_customfield_12100 := None |}).
  - never.
  - apply update_components_field_returns.
  - intros fields (_ & _ & _ & Htype & _). cbn [f_issuetype] in Htype.
    destruct issue as [j|]; cbn [not_None bind]; [|constructor].
    apply Never_Do; [cbn; now rewrite Htype|]. intros r.
    apply Never_bind; [destruct r; constructor|intros _].
    apply Never_bind; [apply update_link_resolved_never; auto|intros _].
    apply Never_bind; [apply leave_comment_never_issuetype|constructor].
Qed.

Lemma mirror_issues_never_issuetype raw_data event issues :
  Never updates_issuetype (Manual.mirror_issues raw_data event issues).
Proof.
  revert event; induction issues as [|tok rest IH]; intros event;
    cbn [Manual.mirror_issues]; [constructor|].
  destruct (negb _); [apply IH|].
  destruct (Manual.int tok) as [number|]; cbn [bind]; [|constructor].
  apply Never_Do; [reflexivity|]. intros [api|e]; cbn [unwrap bind]; [|constructor].
  apply Never_bind; [apply handle_issue_opened_never_issuetype|intros _; apply IH].
Qed.

(** X22.  No handler ever passes an ['issuetype'] entry to [issue.update]:
    whatever the tracker answers, the type of an issue is set when the issue
    is created and not changed afterwards. *)
Theorem no_handler_changes_issue_type (w : World) (h : list Call) (event : Event)
    (raw_data : GhApiIssue -> GhIssue) (issue_numbers : string) :
  let quiet {A} (p : Prog A) := count updates_issuetype (trace (run w h p)) = 0 in
  quiet (handle_issue_opened event) /\ quiet (handle_issue_edited event) /\
  quiet (handle_issue_closed event) /\ quiet (handle_issue_reopened event) /\
  quiet (handle_issue_deleted event) /\
  quiet (handle_issue_labeled event) /\ quiet (handle_issue_unlabeled event) /\
  quiet (handle_comment_created event) /\ quiet (handle_comment_edited event) /\
  quiet (handle_comment_deleted event) /\
  quiet (Manual.sync_issues_manually raw_data event issue_numbers).
Proof.
  cbv zeta. repeat split; apply Never_run.
  - apply handle_issue_opened_never_issuetype.
  - apply handle_issue_edited_never_issuetype.
  - unfold handle_issue_closed.
    apply Never_bind; [apply leave_comment_never_issuetype|intros [j|]]; never.
  - unfold handle_issue_reopened.
    apply Never_bind; [apply leave_comment_never_issuetype|intros [j|]]; never.
  - unfold handle_issue_deleted.
    apply Never_bind; [apply leave_comment_never_issuetype|constructor].
  - unfold handle_issue_labeled.
    apply Never_bind; [apply find_jira_issue_never_issuetype|intros [j|]]; never.
  - unfold handle_issue_unlabeled.
    apply Never_bind; [apply find_jira_issue_never_issuetype|intros [j|]]; never.
  - unfold handle_comment_created, _get_jira_comment_body.
    apply Never_bind; [apply find_jira_issue_never_issuetype|intros [j|]]; never.
  - unfold handle_comment_edited, _get_jira_comment_body.
    apply Never_bind; [never|intros old].
    apply Never_bind; [apply find_jira_issue_never_issuetype|intros [j|]];
      cbn [bind not_None]; [|constructor].
    apply Never_Do; [reflexivity|]. intros [cs|e]; cbn [unwrap bind]; [|constructor].
    apply Never_bind; [apply update_old_comment_never_issuetype|intros found].
    fold (_get_jira_comment_body (ev_comment event) None).
    unfold _get_jira_comment_body. never.
  - unfold handle_comment_deleted.
    apply Never_bind; [apply find_jira_issue_never_issuetype|intros [j|]]; never.
  - apply mirror_issues_never_issuetype.
Qed.

(** ** Manual synchronisation *)

Lemma split_from_pieces p acc sep s :
  forallb p acc = true -> forallb p s = true ->
  forall tok, In tok (Manual.split_from acc sep s) -> forallb p tok = true.
Proof.
  revert acc sep; induction s as [|c s IH]; intros acc sep Hacc Hs tok; cbn.
  - intros [<-|[]]. exact Hacc.
  - cbn in Hs. apply andb_true_iff in Hs as [Hc Hs].
    destruct (is_word c).
    + apply IH; trivial. rewrite forallb_append. cbn. now rewrite Hacc, Hc.
    + destruct sep.
      * apply IH; trivial.
      * intros [<-|Hin]; trivial. revert Hin. apply IH; trivial.
Qed.

Lemma isnumeric_has_numeric tok :
  Manual.isnumeric tok = true -> forallb not_numeric tok = false.
Proof.
  unfold Manual.isnumeric. destruct tok as [|c tok]; [discriminate|].
  cbn. intros H. apply andb_true_iff in H as [Hc _]. unfold not_numeric. now rewrite Hc.
Qed.

Lemma mirror_issues_skips raw_data event issues :
  (forall tok, In tok issues -> Manual.isnumeric tok = false) ->
  Manual.mirror_issues raw_data event issues = Done tt.
Proof.
  induction issues as [|tok rest IH]; intros H; cbn [Manual.mirror_issues]; trivial.
  rewrite (H tok) by now left. cbn [negb]. apply IH. intros tok' Hin. apply H. now right.
Qed.

Lemma is_numeric_is_word c : is_numeric c = true -> is_word c = true.
Proof. unfold is_word. intros ->. now rewrite !orb_true_r. Qed.

Lemma split_from_token acc sep s :
  forallb is_word s = true ->
  Manual.split_from acc sep s = [acc ++ s].
Proof.
  revert acc sep; induction s as [|c s IH]; intros acc sep H; cbn [Manual.split_from].
  - now rewrite append_nil_r.
  - cbn [forallb] in H. apply andb_true_iff in H as [Hc Hs]. rewrite Hc, IH by exact Hs.
    now rewrite append_assoc.
Qed.

(** X23.  When the text entered contains no numeric character (the empty
    text included), [sync_issues_manually] does nothing at all: no issue is
    fetched, nothing is mirrored, and it ends normally.  When the text is one
    token of numeric characters that are not all decimal digits (a
    superscript two, say), it ends with [ValueError], raised by [int], before
    any call. *)
Theorem sync_issues_manually_without_numbers (w : World) (h : list Call)
    (raw_data : GhApiIssue -> GhIssue) (event : Event) (issue_numbers : string) :
  (forallb not_numeric issue_numbers = true ->
   run w h (Manual.sync_issues_manually raw_data event issue_numbers) = (Ok tt, [])) /\
  (nonempty issue_numbers = true ->
   forallb is_numeric issue_numbers = true ->
   forallb is_digit issue_numbers = false ->
   run w h (Manual.sync_issues_manually raw_data event issue_numbers)
     = (Err ValueError, [])).
Proof.
  unfold Manual.sync_issues_manually, Manual.re_split_nonword. split.
  - intros Hno. rewrite mirror_issues_skips; trivial.
    intros tok Hin.
    pose proof (split_from_pieces not_numeric "" false issue_numbers eq_refl Hno tok Hin)
      as Htok.
    destruct (Manual.isnumeric tok) eqn:Hnum; trivial.
    apply isnumeric_has_numeric in Hnum. congruence.
  - intros Hne Hnum Hdec.
    rewrite split_from_token
      by (apply (forallb_impl _ _ _ is_numeric_is_word); exact Hnum).
    cbn [append Manual.mirror_issues]. unfold Manual.isnumeric, Manual.int.
    rewrite Hne, Hnum, Hdec. reflexivity.
Qed.

Lemma sync_issues_manually_without_numbers_witness :
  let w := Scenario.world Scenario.fresh in
  let event := Scenario.event_of Scenario.gh42 "bug" in
  let superscript_two := String "178" "" in
  (forallb not_numeric "abc, #x; -" = true /\
   run w [] (Manual.sync_issues_manually Cases.raw_data event "abc, #x; -") = (Ok tt, [])) /\
  (forallb is_numeric superscript_two = true /\
   forallb is_digit superscript_two = false /\
   run w [] (Manual.sync_issues_manually Cases.raw_data event superscript_two)
     = (Err ValueError, [])).
Proof.
  cbv zeta. split; (split; [reflexivity|]).
  - apply (sync_issues_manually_without_numbers (Scenario.world Scenario.fresh) []).
    reflexivity.
  - split; [reflexivity|].
    apply (sync_issues_manually_without_numbers (Scenario.world Scenario.fresh) []);
      reflexivity.
Defined.












(** ** Comments: what Created posts is what Edited looks for *)

(** X25.  If the converter's answer depends on its input only, the body the
    Created handler computes for a comment whose text is [text] is the
    fingerprint the Edited handler computes from [changes.body.from = text]
    for a comment with the same URL and author: the comment posted then is
    the comment looked for now. *)
Theorem created_body_is_edited_fingerprint (w : World) (h h' : list Call)
    (posted edited : GhComment) (text : option string) :
  (forall h1 h2 markdown,
     w h1 (Markdown2confluence markdown) = w h2 (Markdown2confluence markdown)) ->
  cm_body posted = text ->
  cm_html_url posted = cm_html_url edited ->
  cm_user_login posted = cm_user_login edited ->
  returned (run w h (_get_jira_comment_body posted None)) =
  returned (run w h' (old_gh_body <- _markdown2wiki text ;;
                      _get_jira_comment_body edited (Some old_gh_body))).
Proof.
  intros Hdet Hbody Hurl Hlogin.
  unfold _get_jira_comment_body, comment_head. rewrite Hbody, Hurl, Hlogin.
  cbn [bind].
  assert (Hconv : run w h (_markdown2wiki text) = run w h' (_markdown2wiki text)).
  { unfold _markdown2wiki. destruct text as [markdown|]; trivial.
    rewrite !run_try_except. cbn [bind run]. rewrite (Hdet h h').
    destruct (w h' _) as [r|e]; cbn [unwrap bind run the_CalledProcessError];
      [reflexivity|].
    destruct (exn_eqb e CalledProcessError); reflexivity. }
  rewrite !run_bind, Hconv.
  destruct (run w h' (_markdown2wiki text)) as [[body|e] t]; reflexivity.
Qed.

Lemma created_body_is_edited_fingerprint_witness :
  let w := Scenario.world Scenario.synced in
  let h' := [Jira_search_issues (jql_query Scenario.url42)] in
  (forall h1 h2 markdown,
     w h1 (Markdown2confluence markdown) = w h2 (Markdown2confluence markdown)) /\
  cm_body Scenario.comment7 = Some "new text" /\
  returned (run w [] (_get_jira_comment_body Scenario.comment7 None)) =
  returned (run w h' (old_gh_body <- _markdown2wiki (Some "new text") ;;
                      _get_jira_comment_body Scenario.comment7 (Some old_gh_body))).
Proof.
  cbv zeta. split; [intros; reflexivity|]. split; [reflexivity|].
  apply (created_body_is_edited_fingerprint (Scenario.world Scenario.synced) []
           [Jira_search_issues (jql_query Scenario.url42)]
           Scenario.comment7 Scenario.comment7 (Some "new text"));
    intros; reflexivity.
Defined.

(** ** What Edited sends *)

Lemma get_description_never bad gh :
  (forall m, bad (Markdown2confluence m) = false) -> Never bad (_get_description gh).
Proof. intros H. never_auto. Qed.

Lemma find_jira_issue_never_bad_edited gh0 gh make_new retries :
  Never (bad_edited_update gh0) (_find_jira_issue gh make_new retries).
Proof.
  revert make_new; induction retries as [|n IH]; intros make_new;
    rewrite find_jira_issue_eq;
    (apply Never_Do; [reflexivity|intros [[|first rest]|e]]; cbn [unwrap bind];
     try constructor);
    (apply Never_bind; [apply manual_match_calls; auto|]);
    (intros [issue|]; [constructor|]);
    (destruct make_new; cbn [negb]; [|constructor]).
  - apply Never_bind; [|constructor]. never; apply edit_title_loop_never; auto.
  - apply Never_Do; [reflexivity|intros z].
    apply Never_Do; [reflexivity|intros u]. apply IH.
Qed.

(** X26.  Every dictionary the Edited handler hands to [issue.update] is
    either the status field "Open" of an issue it has just created, or a
    dictionary with the summary of [_get_summary], a description, possibly
    components, and no labels, issue type, project or status. *)
Theorem edited_sends_summary_and_description (w : World) (h : list Call)
    (event : Event) (issue : JiraIssue) (fields : Fields) :
  In (Issue_update issue fields) (trace (run w h (handle_issue_edited event))) ->
  f_labels fields = None /\ f_issuetype fields = None /\ f_project fields = None /\
  ((f_customfield_12100 fields = Some "Open" /\ f_summary fields = None /\
    f_description fields = None /\ f_components fields = None) \/
   (f_customfield_12100 fields = None /\
    f_summary fields = Some (_get_summary (ev_issue event)) /\
    f_description fields <> None)).
Proof.
  intros Hin.
  assert (Hnever : Never (bad_edited_update (ev_issue event)) (handle_issue_edited event)).
  { unfold handle_issue_edited.
    apply Never_bind; [apply find_jira_issue_never_bad_edited|intros found].
    apply Never_bind; [apply get_description_never; auto|intros description].
    apply Never_bind_returns with (Q := same_but_components
      {| f_summary := Some (_get_summary (ev_issue event)); f_project := None;
         f_description := Some description; f_issuetype := None;
         f_labels := None; f_components := None; f_customfield_12100 := None |}).
    - never.
    - apply update_components_field_returns.
    - intros f (Hs & Hp & Hd & Ht & Hl & Hc).
      cbn [f_summary f_project f_description f_issuetype f_labels f_customfield_12100]
        in Hs, Hp, Hd, Ht, Hl, Hc.
      destruct found as [j|]; cbn [not_None bind]; [|constructor].
      apply Never_Do.
      { cbn. unfold edited_fields_ok. rewrite Hs, Hp, Hd, Ht, Hl, Hc.
        now rewrite String.eqb_refl. }
      intros r. apply Never_bind; [destruct r; constructor|intros _].
      apply Never_bind; [apply update_link_resolved_never; auto|intros _].
      apply Never_bind; [|constructor].
      unfold _leave_jira_issue_comment. cbn [bind]. never. }
  pose proof (Never_run_all _ _ Hnever w h _ Hin) as Hok.
  cbn [bad_edited_update] in Hok. apply negb_false_iff in Hok.
  unfold edited_fields_ok in Hok.
  destruct fields as [s p d ty l c cf]; cbn in *.
  destruct l, ty, p; try (rewrite andb_false_r in Hok; discriminate).
  repeat split.
  rewrite andb_true_r in Hok.
  destruct cf as [status|].
  - left. apply andb_true_iff in Hok as [Hst Hrest]. apply String.eqb_eq in Hst.
    destruct s, d, c; try discriminate. subst. auto.
  - right. destruct s as [summary|]; [|discriminate]. destruct d; [|discriminate].
    apply String.eqb_eq in Hok. subst. repeat split. discriminate.
Qed.

Lemma edited_sends_summary_and_description_witness :
  let w := Scenario.world Scenario.synced in
  let event := Scenario.event_of Scenario.gh42 "bug" in
  let issue := Scenario.proj101 in
  exists fields,
    In (Issue_update issue fields) (trace (run w [] (handle_issue_edited event))) /\
    f_summary fields = Some "GH #42: Crash on boot" /\
    f_components fields = Some ["Core"; "Core"] /\
    f_labels fields = None /\ f_issuetype fields = None /\ f_project fields = None.
Proof.
  cbv zeta. eexists. split; [do 5 right; left; reflexivity|].
  split; [reflexivity|]. split; [reflexivity|].
  match goal with
  | |- f_labels ?f = None /\ _ =>
      destruct (edited_sends_summary_and_description (Scenario.world Scenario.synced) []
                  (Scenario.event_of Scenario.gh42 "bug") Scenario.proj101 f)
        as (H1 & H2 & H3 & _)
  end.
  - do 5 right; left; reflexivity.
  - auto.
Defined.

(** ** A refused status update *)

Lemma exn_eqb_neq (e e' : exn) : e <> e' -> exn_eqb e e' = false.
Proof. destruct e, e'; intros H; trivial; now destruct H. Qed.

(** The [try] around the status update, run on a resolved issue. *)
Lemma status_update_run (w : World) (h : list Call) (issue : JiraIssue) (status : string) :
  let update := Issue_update issue (status_field status) in
  run w h (try_except (jira_issue <- not_None (Some issue) ;;
                       call (Issue_update jira_issue (status_field status)))
             the_JIRAError (Done tt)) =
  match w h update with
  | Ok u => (Ok u, [update])
  | Err e => if exn_eqb e JIRAError then (Ok tt, [update]) else (Err e, [update])
  end.
Proof.
  cbv zeta. rewrite run_try_except.
  cbn [not_None bind run unwrap the_JIRAError app].
  destruct (w h _) as [u|e]; cbn [run unwrap]; trivial.
  destruct (exn_eqb e JIRAError); reflexivity.
Qed.

(** X27.  Once the comment is left on a resolved issue, a status update that
    the tracker refuses with [JIRAError] does not stop the Closed or the
    Reopened handler: the remote links are brought up to date exactly as
    after an accepted update.  Any other exception of the update ends the
    handler at once. *)
Theorem refused_status_update_is_survived (w : World) (h : list Call) (event : Event)
    (issue : JiraIssue) (t1 : list Call) (verb : string) :
  let handler := if String.eqb verb "closed" then handle_issue_closed
                 else handle_issue_reopened in
  let should_create := negb (String.eqb verb "closed") in
  let status := if String.eqb verb "closed" then "Closed" else "Open" in
  let update := Issue_update issue (status_field status) in
  let links := run w (h ++ t1 ++ [update])%list
                 (_update_link_resolved (ev_issue event) issue) in
  verb = "closed" \/ verb = "reopened" ->
  run w h (_leave_jira_issue_comment event verb should_create None)
    = (Ok (Some issue), t1) ->
  (w (h ++ t1)%list update = Err JIRAError \/ w (h ++ t1)%list update = Ok tt ->
   run w h (handler event) = (returned links, (t1 ++ update :: trace links)%list)) /\
  (forall e, e <> JIRAError -> w (h ++ t1)%list update = Err e ->
   run w h (handler event) = (Err e, (t1 ++ [update])%list)).
Proof.
  intros handler should_create status update links Hverb Hleave.
  assert (Hrun : run w h (handler event) =
            match w (h ++ t1)%list update with
            | Err e => if exn_eqb e JIRAError
                       then (returned links, (t1 ++ update :: trace links)%list)
                       else (Err e, (t1 ++ [update])%list)
            | Ok _ => (returned links, (t1 ++ update :: trace links)%list)
            end).
  { subst handler should_create status update links.
    destruct Hverb as [-> | ->]; cbn [String.eqb Ascii.eqb Bool.eqb negb] in *;
      [unfold handle_issue_closed | unfold handle_issue_reopened];
      rewrite run_bind, Hleave, run_bind, status_update_run; cbv zeta;
      (destruct (w (h ++ t1)%list _) as [[]|e];
       [|destruct (exn_eqb e JIRAError)]);
      cbn [not_None bind]; rewrite <- ?app_assoc; cbn [app];
      try reflexivity;
      destruct (run w _ (_update_link_resolved _ _)) as [r t]; reflexivity. }
  rewrite Hrun. split.
  - intros [-> | ->]; reflexivity.
  - intros e Hne ->. now rewrite (exn_eqb_neq _ _ Hne).
Qed.

Lemma refused_status_update_is_survived_witness :
  let w := Cases.synced_status_refused in
  let event := Scenario.event_of Scenario.gh42 "bug" in
  run w [] (handle_issue_closed event) =
    (Ok tt,
     [Jira_search_issues (jql_query Scenario.url42);
      Jira_add_comment "20101" (event_comment event "closed");
      Issue_update Scenario.proj101 (status_field "Closed");
      Jira_remote_links Scenario.proj101]).
Proof.
  cbv zeta.
  apply (proj1 (refused_status_update_is_survived Cases.synced_status_refused []
                  (Scenario.event_of Scenario.gh42 "bug") Scenario.proj101
                  [Jira_search_issues (jql_query Scenario.url42);
                   Jira_add_comment "20101"
                     (event_comment (Scenario.event_of Scenario.gh42 "bug") "closed")]
                  "closed" (or_introl eq_refl) eq_refl)).
  left; reflexivity.
Defined.

(** ** One comment for one comment event *)

(** A program acts once: it makes at most one comment action, and exactly
    one whenever it returns. *)
Lemma once_add_comment (w : World) (h : list Call) issue_id body :
  count comment_action (trace (run w h (call (Jira_add_comment issue_id body)))) = 1.
Proof. cbn [run]. destruct (w h _); reflexivity. Qed.

Lemma once_comment_update (w : World) (h : list Call) comment body :
  count comment_action (trace (run w h (call (Comment_update comment body)))) = 1.
Proof. cbn [run]. destruct (w h _); reflexivity. Qed.

Lemma once_bind {A B} (w : World) (h : list Call) (p : Prog A) (f : A -> Prog B) :
  Never comment_action p ->
  (forall a h',
     let r := run w h' (f a) in
     count comment_action (trace r) <= 1 /\
     (forall b, returned r = Ok b -> count comment_action (trace r) = 1)) ->
  let r := run w h (bind p f) in
  count comment_action (trace r) <= 1 /\
  (forall b, returned r = Ok b -> count comment_action (trace r) = 1).
Proof.
  intros Hp Hf. cbv zeta. rewrite run_bind.
  assert (H0 : count comment_action (trace (run w h p)) = 0).
  { unfold count. apply length_zero_iff_nil.
    destruct (filter _ _) as [|c t] eqn:Hfil; trivial.
    assert (Hin : In c (filter comment_action (trace (run w h p))))
      by (rewrite Hfil; now left).
    apply filter_In in Hin as [Hin Hc].
    rewrite (Never_run_all _ _ Hp w h c Hin) in Hc. discriminate. }
  destruct (run w h p) as [[a|e] t1]; unfold trace, returned in *; cbn [fst snd] in *.
  - specialize (Hf a (h ++ t1)%list). cbv zeta in Hf.
    destruct (run w (h ++ t1)%list (f a)) as [r t2]; cbn [fst snd] in *.
    rewrite count_app, H0. exact Hf.
  - rewrite H0. split; [lia|discriminate].
Qed.

(** X28.  One comment event leaves one mark: in every world each of the
    three comment handlers adds or rewrites at most one comment, and exactly
    one whenever it ends normally. *)
Theorem comment_handlers_act_once (w : World) (h : list Call) (event : Event) :
  let once (r : result unit * list Call) :=
    count comment_action (trace r) <= 1 /\
    (returned r = Ok tt -> count comment_action (trace r) = 1) in
  once (run w h (handle_comment_created event)) /\
  once (run w h (handle_comment_edited event)) /\
  once (run w h (handle_comment_deleted event)).
Proof.
  cbv zeta.
  assert (Hadd : forall h' issue_id body,
            let r := run w h' (call (Jira_add_comment issue_id body)) in
            count comment_action (trace r) <= 1 /\
            (forall b : unit, returned r = Ok b -> count comment_action (trace r) = 1)).
  { intros h' issue_id body. cbv zeta. rewrite once_add_comment. auto. }
  assert (Hupd : forall h' comment body,
            let r := run w h' (call (Comment_update comment body)) in
            count comment_action (trace r) <= 1 /\
            (forall b : unit, returned r = Ok b -> count comment_action (trace r) = 1)).
  { intros h' comment body. cbv zeta. rewrite once_comment_update. auto. }
  assert (Hweak : forall r : result unit * list Call,
            (count comment_action (trace r) <= 1 /\
             (forall b, returned r = Ok b -> count comment_action (trace r) = 1)) ->
            count comment_action (trace r) <= 1 /\
            (returned r = Ok tt -> count comment_action (trace r) = 1)).
  { intros r [H1 H2]. split; eauto. }
  split; [|split]; apply Hweak.
  - unfold handle_comment_created.
    apply once_bind; [apply find_jira_issue_never_comments|intros jira_issue h1].
    apply once_bind; [destruct jira_issue; never|intros j h2].
    apply once_bind; [apply get_jira_comment_body_never_comments|intros body h3].
    apply Hadd.
  - unfold handle_comment_edited.
    apply once_bind; [unfold _markdown2wiki; never|intros old_gh_body h1].
    apply once_bind; [apply find_jira_issue_never_comments|intros jira_issue h2].
    apply once_bind; [apply get_jira_comment_body_never_comments|intros old_jira_body h3].
    apply once_bind; [destruct jira_issue; never|intros j h4].
    apply once_bind; [never|intros comments h5].
    cbv zeta. rewrite update_old_comment_run.
    apply once_bind; [apply get_jira_comment_body_never_comments|intros body h6].
    destruct (find _ comments); [apply Hupd|apply Hadd].
  - unfold handle_comment_deleted.
    apply once_bind; [apply find_jira_issue_never_comments|intros jira_issue h1].
    apply once_bind; [destruct jira_issue; never|intros j h2].
    apply Hadd.
Qed.

Lemma comment_handlers_act_once_witness :
  let w := Scenario.world Scenario.synced in
  let event := Scenario.event_of Scenario.gh42 "bug" in
  returned (run w [] (handle_comment_edited event)) = Ok tt /\
  count comment_action (trace (run w [] (handle_comment_edited event))) = 1.
Proof.
  cbv zeta. split; [reflexivity|].
  apply (comment_handlers_act_once (Scenario.world Scenario.synced) []
           (Scenario.event_of Scenario.gh42 "bug")).
  reflexivity.
Defined.

(** ** At most one issue for one event *)

Lemma count_run_Do {A} bad (w : World) h c (k : Ans c -> Prog A) :
  count bad (trace (run w h (Do c k))) =
  (if bad c then 1 else 0) + count bad (trace (run w (h ++ [c])%list (k (w h c)))).
Proof.
  cbn [run]. destruct (run w (h ++ [c])%list (k (w h c))) as [r t].
  unfold trace; cbn [snd]. apply count_cons.
Qed.

Lemma count_run_bind {A B} bad (w : World) h (p : Prog A) (f : A -> Prog B) :
  count bad (trace (run w h (bind p f))) =
  count bad (trace (run w h p)) +
  match run w h p with
  | (Ok a, t) => count bad (trace (run w (h ++ t)%list (f a)))
  | (Err _, _) => 0
  end.
Proof.
  rewrite run_bind. destruct (run w h p) as [[a|e] t]; unfold trace; cbn [snd].
  - destruct (run w (h ++ t)%list (f a)) as [r t']. cbn [snd]. apply count_app.
  - lia.
Qed.

Lemma count_bind_after_never {A B} bad n (w : World) h (p : Prog A) (f : A -> Prog B) :
  Never bad p ->
  (forall a h', count bad (trace (run w h' (f a))) <= n) ->
  count bad (trace (run w h (bind p f))) <= n.
Proof.
  intros Hp Hf. rewrite count_run_bind, (Never_run _ _ Hp).
  destruct (run w h p) as [[a|e] t]; [apply Hf|lia].
Qed.

Lemma count_bind_before_never {A B} bad n (w : World) h (p : Prog A) (f : A -> Prog B) :
  count bad (trace (run w h p)) <= n ->
  (forall a, Never bad (f a)) ->
  count bad (trace (run w h (bind p f))) <= n.
Proof.
  intros Hp Hf. rewrite count_run_bind.
  destruct (run w h p) as [[a|e] t]; [rewrite (Never_run _ _ (Hf a))|]; lia.
Qed.

Lemma create_jira_issue_creates_once (w : World) h gh :
  count creates_issue (trace (run w h (_create_jira_issue gh))) <= 1.
Proof.
  unfold _create_jira_issue.
  apply count_bind_after_never; [never|intros issuetype h1].
  apply count_bind_after_never; [destruct issuetype; never|intros issuetype' h2].
  apply count_bind_after_never; [never|intros project h3].
  apply count_bind_after_never; [never|intros description h4].
  apply count_bind_after_never; [never|intros fields h5].
  cbn [bind]. rewrite count_run_Do. cbn [creates_issue].
  destruct (w h5 _) as [issue|e]; cbn [unwrap bind].
  - change (run w ?h' _) with (run w h' (after_create gh issue)).
    rewrite (Never_run _ _ (after_create_never_creates gh issue)). lia.
  - cbn. lia.
Qed.

Lemma create_jira_issue_never_searches gh : Never searches (_create_jira_issue gh).
Proof. never; apply edit_title_loop_never; auto. Qed.

(** The searches and the creations of one resolution. *)
Lemma find_jira_issue_counts (w : World) gh retries : forall make_new h,
  let t := trace (run w h (_find_jira_issue gh make_new retries)) in
  count searches t <= retries + 1 /\
  count creates_issue t <= 1 /\
  (count creates_issue t = 1 -> make_new = true /\ count searches t = retries + 1).
Proof.
  induction retries as [|n IH]; intros make_new h; cbv zeta;
    rewrite find_jira_issue_eq; cbn [bind]; rewrite !count_run_Do;
    cbn [searches creates_issue];
    (destruct (w h _) as [[|first rest]|e]; cbn [unwrap bind];
     [|cbn; split; [lia|split; [lia|discriminate]]
      |cbn; split; [lia|split; [lia|discriminate]]]);
    rewrite !count_run_bind,
      (Never_run _ _ (manual_match_never_searches gh)),
      (Never_run _ _ (manual_match_never_creates gh));
    (destruct (run w _ (manual_match gh)) as [[[issue|]|e] t1];
     [cbn; split; [lia|split; [lia|discriminate]]
     | |cbn; split; [lia|split; [lia|discriminate]]]);
    (destruct make_new; cbn [negb];
     [|cbn; split; [lia|split; [lia|discriminate]]]).
  - rewrite !count_run_bind, (Never_run _ _ (create_jira_issue_never_searches gh)).
    match goal with
    | |- context [run w ?h' (_create_jira_issue gh)] =>
        pose proof (create_jira_issue_creates_once w h' gh) as Hle;
        destruct (run w h' (_create_jira_issue gh)) as [[issue|e] t2]
    end; cbn [run trace snd] in *; change (count _ []) with 0; lia.
  - unfold perform. cbn [bind]. rewrite !count_run_Do. cbn [searches creates_issue bind].
    match goal with
    | |- context [run w ?h' (_find_jira_issue gh true n)] =>
        specialize (IH true h'); cbv zeta in IH
    end.
    lia.
Qed.

(** X29.  Whatever the tracker answers, [_find_jira_issue] searches at most
    [retries + 1] times and creates at most one issue; and it creates one
    only with [make_new] set and after all [retries + 1] searches. *)
Theorem find_jira_issue_creates_last (w : World) (h : list Call) (gh_issue : GhIssue)
    (make_new : bool) (retries : nat) :
  let t := trace (run w h (_find_jira_issue gh_issue make_new retries)) in
  count searches t <= retries + 1 /\
  count creates_issue t <= 1 /\
  (count creates_issue t = 1 -> make_new = true /\ count searches t = retries + 1).
Proof.
  apply find_jira_issue_counts.
Qed.

Lemma find_jira_issue_creates_last_witness :
  let t := trace (run (Scenario.world Scenario.fresh) []
                    (_find_jira_issue Scenario.gh42 true default_retries)) in
  count creates_issue t = 1 /\ count searches t = 6.
Proof.
  cbv zeta. split; [reflexivity|].
  apply (find_jira_issue_creates_last (Scenario.world Scenario.fresh) [] Scenario.gh42
           true default_retries).
  reflexivity.
Defined.

Lemma update_old_comment_never_creates gh_comment body comments :
  Never creates_issue (update_old_comment gh_comment body comments).
Proof.
  induction comments as [|c rest IH]; simpl; [constructor|].
  destruct (String.eqb _ _); trivial.
  unfold _get_jira_comment_body. never.
Qed.

Lemma leave_comment_creates_once (w : World) h event verb should_create jira_issue :
  count creates_issue
    (trace (run w h (_leave_jira_issue_comment event verb should_create jira_issue))) <= 1.
Proof.
  unfold _leave_jira_issue_comment.
  apply count_bind_before_never; [|intros [j|]; never].
  destruct jira_issue as [j|]; [cbn; lia|apply find_jira_issue_counts].
Qed.

(** X30.  One event creates at most one target issue: in every world, each
    of the ten event handlers calls [jira.create_issue] at most once. *)
Theorem one_event_creates_at_most_one_issue (w : World) (h : list Call) (event : Event) :
  let at_most_one (p : Prog unit) := count creates_issue (trace (run w h p)) <= 1 in
  at_most_one (handle_issue_opened event) /\ at_most_one (handle_issue_edited event) /\
  at_most_one (handle_issue_closed event) /\ at_most_one (handle_issue_reopened event) /\
  at_most_one (handle_issue_deleted event) /\
  at_most_one (handle_issue_labeled event) /\ at_most_one (handle_issue_unlabeled event) /\
  at_most_one (handle_comment_created event) /\ at_most_one (handle_comment_edited event) /\
  at_most_one (handle_comment_deleted event).
Proof.
  cbv zeta. repeat split.
  - unfold handle_issue_opened. rewrite count_run_bind.
    pose proof (find_jira_issue_counts w (ev_issue event) default_retries false h)
      as (_ & Hle & Hone).
    cbv zeta in Hle, Hone.
    assert (H0 : count creates_issue
                   (trace (run w h (_find_jira_issue (ev_issue event) false
                                      default_retries))) = 0).
    { destruct (Nat.eq_dec (count creates_issue
                 (trace (run w h (_find_jira_issue (ev_issue event) false
                                    default_retries)))) 1) as [H1|H1];
        [now destruct (Hone H1)|lia]. }
    rewrite H0.
    destruct (run w h _) as [[[j|]|e] t]; cbn [plus]; [cbn; lia| |lia].
    apply count_bind_before_never; [apply create_jira_issue_creates_once|constructor].
  - unfold handle_issue_edited.
    apply count_bind_before_never; [apply find_jira_issue_counts|intros issue].
    apply Never_bind; [never|intros description].
    apply Never_bind; [never|intros fields].
    destruct issue as [j|]; cbn [not_None bind]; [|constructor].
    apply Never_Do; [reflexivity|intros r].
    apply Never_bind; [destruct r; constructor|intros _].
    apply Never_bind; [apply update_link_resolved_never; auto|intros _].
    unfold _leave_jira_issue_comment. never.
  - unfold handle_issue_closed.
    apply count_bind_before_never; [apply leave_comment_creates_once|intros [j|]]; never.
  - unfold handle_issue_reopened.
    apply count_bind_before_never; [apply leave_comment_creates_once|intros [j|]]; never.
  - unfold handle_issue_deleted.
    apply count_bind_before_never; [apply leave_comment_creates_once|constructor].
  - unfold handle_issue_labeled.
    apply count_bind_before_never; [apply find_jira_issue_counts|intros [j|]]; never.
  - unfold handle_issue_unlabeled.
    apply count_bind_before_never; [apply find_jira_issue_counts|intros [j|]]; never.
  - unfold handle_comment_created, _get_jira_comment_body.
    apply count_bind_before_never; [apply find_jira_issue_counts|intros [j|]]; never.
  - unfold handle_comment_edited, _get_jira_comment_body.
    apply count_bind_after_never; [never|intros old h1].
    apply count_bind_before_never; [apply find_jira_issue_counts|intros [j|]];
      cbn [bind not_None]; [|constructor].
    apply Never_Do; [reflexivity|]. intros [cs|e]; cbn [unwrap bind]; [|constructor].
    apply Never_bind; [apply update_old_comment_never_creates|intros found].
    fold (_get_jira_comment_body (ev_comment event) None).
    unfold _get_jira_comment_body. never.
  - unfold handle_comment_deleted.
    apply count_bind_before_never; [apply find_jira_issue_counts|intros [j|]]; never.
Qed.
